(* ===== verification/_CoqProject ===== *)
-Q . S2P
Prelude.v
World.v
Transcoder.v
Detection.v
ModelLoader.v
Orchestrator.v
Session.v
Output.v
Server.v
Pool.v
Concurrency.v
Runs.v
Isolation.v
Requests.v
Verdicts.v
