(* ===== verification/Prelude.v ===== *)
(** * A verification development for the YOLO video-detection app (src/deploy.py)

    ** The program
    src/deploy.py is a Streamlit script.  Each run of [main] (lines 45-125)
    draws the page, checks that the weights file [best.pt] exists, loads
    the model through [load_model] (lines 8-11, cached per process by
    [@st.cache_resource]), shows a file uploader and, when a video was
    uploaded, runs one block (lines 64-125): it saves the upload to a
    temporary file, normalises it with FFmpeg (lines 74-89, scaling the
    long side to 1280 with an even short side), runs [process_video]
    (lines 13-43: read every frame with OpenCV, run YOLO on it, draw the
    kept boxes, write the frame to an mp4v output), shows the result and
    a download button (lines 98-109), reports errors (lines 111-116) and,
    in a [finally] clause (lines 118-125), removes the temporary files.

    ** Files, in dependency order
    - [Prelude] (this file): the effect monad [PyM S E A = S -> result E A * S]
      of Python code (state threaded explicitly, exceptions as values, the
      state kept when an exception is raised), its [try_except] and
      [try_finally] (an exception of the [finally] replaces the outcome),
      the invariant predicate [preserves] with the hint database [pym] and
      the tactic [solve_preserves], and Hoare triples [hoare] with a normal
      and an exceptional postcondition.
    - [World]: the [world] record the script acts on (file system as a
      [gmap string file], page elements in order, temporary directory,
      name generator, model cache, tool availability, widget value, a
      pending Streamlit stop request) and the library calls as
      computations: Module [Os] ([os.path.exists], [os.remove],
      [os.path.getsize], [open().read()], [os.path.splitext] translated
      from CPython's [genericpath._splitext]), Module [St] (the page
      functions; each may raise Streamlit's stop exception), Module
      [Tempfile] ([NamedTemporaryFile(delete=False, suffix=...)]).
    - [Transcoder]: the FFmpeg command of lines 81-87, the filter as an
      expression of FFmpeg's language printed to the exact argument
      string, FFmpeg's evaluation of it ([scale_dims]: the [av_rescale]
      rounding and the [-2] rule of libavfilter), and [subprocess_run]
      with [check=True].  FFmpeg's resampler is the class [Scaler].
    - [Detection]: [process_video] with the capture and the writer as
      explicit records, the loop as [detect_loop] with fuel, Module [Cv2]
      for OpenCV's calls; the detector is the class [Yolo] (inference and
      drawing external; the [conf=0.5] filter is modelled).
    - [ModelLoader]: [load_model] as [cache_resource YOLO], the cache a
      field of the world shared by all runs.
    - [Orchestrator]: [present], [upload_body], [report_error],
      [handle_upload] (the try/except/finally from the three locals
      [None]) and [main]; the block's locals are a record threaded with
      the world, since the [finally] reads whatever they hold.
    - [Session]: the specification's per-upload machine (section 4.4:
      [Idle], [Uploaded], [Transcoding], [Detecting], [Ready], [Failed])
      as a labelled step relation [sstep] whose labels are the page
      elements each stage shows, its executions [sexec], and the proof
      that [handle_upload] refines it (Hoare triples over the block,
      stage by stage, with the invariant [at_phase]).
    - [Output]: the data through the block (the upload at the first
      temporary path, FFmpeg's output at the second, [process_video]'s at
      the third) and the reference output [expected_output] of an upload.
    - [Server]: lines 127-128 ([script]) and Streamlit's serving loop:
      [session_run] starts a script run on a fresh page with a session's
      uploader value, [serve] runs a list of them against the shared
      files and model cache, ignoring what a run raises.
    - [Pool]: the threads of the Streamlit process.  A session's part of
      the world ([sess]: page, uploader value, stop request) and the
      process-wide rest (files, temporary directory, [tempfile]'s name
      generator, model cache); the class [ThreadPool] of what a kind of
      thread promises the interleaving (a step, a request step, the
      temporary paths it owns, a measure, and their laws); [cstep], where
      any thread runs its next statement or a session's request reaches
      its thread, [run_sched] and [interrupt_at] for a concrete schedule,
      and the theory of every interleaving proved from the laws alone.
    - [Concurrency]: the upload block (lines 64-125) one statement at a
      time: a program counter [pc] and [stmt], each statement as an action
      with the [pc] it continues at (a statement of the [try] body that
      raises continues at the [except] clauses; the three [if] statements
      of the [finally] run one at a time), with the per-statement facts:
      ownership ([stmt_owned]), the cache ([stmt_cache]), [rank].
    - [Runs]: a script run of a session as a thread: [main]'s statements
      of lines 46-62 ([mpc], [mstmt]), then the block ([rstmt]); [rstep]
      runs the next statement on the shared world and the run's session;
      [rinterrupt n] is a user's rerun or stop request reaching the run,
      recorded with the [n] [st.*] calls the run makes before it arrives
      (Streamlit makes the first [st.*] call after it raise); the instance
      [run_pool] of [ThreadPool].
    - [Isolation]: what each run's statements keep of its page and of the
      files it owns, under the other runs' statements.
    - [Requests]: what a run does once a request has taken effect at
      it: its statements keep its page and, before the [finally] clause,
      its outcome [ScriptControl].
    - [Verdicts]: the stage of the specification's machine each run's
      page has reached before each statement ([verdict_at] in the block,
      [main_at] in [main]), kept by the run's own statements, by the
      other runs' statements and by requests.

    ** What is proved
    - Cleanup (Orchestrator): on every exit of the upload block, normal,
      FFmpeg failure, any exception or a stop request, the file system
      is exactly as before ([handle_upload_restores_fs], and
      [main_restores_fs] for a whole run); by the invariant [tracked]
      (every path written since the start is recorded in a local) and
      [cleanup_restores].
    - Scenarios of the specification, end to end on [handle_upload] and
      [main]: a decodable video is shown annotated at [scale_dims] of its
      size with one frame per input frame; a non-video upload shows
      FFmpeg's diagnostic; a missing [best.pt] stops the page with the
      fixed messages; a [best.pt] that does not load shows the loader's
      error and no uploader.
    - Detection: [detect_loop] with enough fuel equals the reference
      [render_frames] (one annotated frame per input frame, in order, up
      to the first failing inference), [process_video] on each branch.
    - Transcoder: even sides, long side 1280, aspect ratio kept up to
      rounding, exact outcomes on valid and invalid inputs.
    - Model loader: cache hit, miss, failed load (nothing kept); the
      handle of a path is a singleton: once loaded it is returned by
      every later call in any world whose cache keeps the entry, even
      with the weights file gone, and nothing is loaded again; the cache
      stays well formed.
    - Refinement (Session): with no stop request pending, every run of
      the upload block returns and shows a trace of the machine from
      [Idle] to [Ready] or [Failed]; hence every upload ends on a verdict
      (the video with its download button, or an error box last), and a
      video is shown only after both progress notes and with no error.
    - Output (every world, no assumption on temporary names, tools or a
      pending request):
      a video player shown by an upload shows the upload normalised to
      [scale_dims] of its size and annotated frame by frame, with as many
      frames as the upload; hence two uploads of the same bytes with the
      same model show the same video (the specification's idempotence).
    - Server: over any sequence of script runs the cache holds at most
      the handle of [best.pt] and never replaces it, and the first run that finds [best.pt] loads it
      once for all later runs; a [best.pt] that does not load is never
      kept, so every run loads it again and shows the error again.
    - Termination: the frame loop never runs out of fuel.
    - [os.path.splitext]: round trip [root ++ ext = p], and an extension
      never contains a path separator (so the temporary path stays in
      the temporary directory).
    - Error paths (Orchestrator): a missing [ffmpeg] binary is reported
      as an unexpected [FileNotFoundError] and the files are removed; a
      stop request pending at the start ends the block with
      [ScriptControl], which neither [except] clause catches.
    - Concurrency (Runs, Isolation, Requests, Verdicts): a script run scheduled
      alone is the sequential [session_run] ([run_alone_is_session_run],
      a consistency lemma between the two models of a run); every
      reachable configuration of any interleaving of runs and of the
      users' rerun or stop requests keeps the ownership
      invariant [cinv] (each temporary file belongs to at most one run,
      was free before, and files no run owns are unchanged), every run
      holding a model holds the one cached under [best.pt], the cache
      has no other key and holds only handles loaded from their key
      ([reachable_runs_invariant]); scheduling the runs one after the
      other is Server's sequential [serve] ([serial_runs_are_serve], the
      same consistency for the serving loop); once all runs are
      done the file system is the one they started from
      ([runs_restore_fs]); and every player on a run's page shows that
      run's own upload, normalised and annotated by the cached model
      ([runs_show_own_output]); a run at which a request takes effect
      before the [finally] clause ends with [ScriptControl]
      ([request_aborts_run]): a user can abort an in-flight run, and its
      files are still removed.  Conversely a run ends with an exception
      only when it is [ScriptControl] and a request reached it
      ([runs_fail_only_by_request]), and a run whose block ends normally
      shows, after [main]'s page, a trace of the session machine from
      [Idle] to [Ready] or [Failed] ([runs_refine_session]): the
      refinement of Session holds under every interleaving.  The ownership invariant is a
      per-statement frame property ([owned_step]) of each statement
      together with [NamedTemporaryFile]'s exclusive creation.

    ** Bounds and fuel
    [detect_loop] runs with fuel [S (length frames)]: each iteration
    consumes one frame and the last one sees the capture empty, so this
    fuel is enough ([detect_loop_spec] proves it for any fuel above the
    number of frames).  [run_alone] runs with fuel 16: the [try] body has
    12 statements, the [except] clause one and the [finally] clause
    three, and a raising statement of the body skips the rest of it, so
    no run takes more ([rank] decreases at every statement).  A script run
    takes at most 22 statements ([run_run_main]): six of [main] before the
    block and the block's sixteen; a failed check or load takes fewer.
    Integers are [Z]: frame sizes are far below any machine bound and
    FFmpeg computes the scale in 64 bits.

    The refinement and the verdict theorems assume that a failed YOLO
    inference raises an [Exception] (a Section hypothesis discharged by
    the witnesses), as Ultralytics does.

    ** Not modelled
    Interleaving is modelled at the granularity of statements of [main]
    and the block.  [load_model] is one step, since [st.cache_resource]
    holds a lock while it computes a value.  Interleaving inside one
    statement is left out: [process_video] and the [ffmpeg] subprocess act
    only on their run's own temporary files, and the page functions only
    on their session's page, so no other run observes a statement half
    done.  Python switches threads between bytecodes, which is finer than
    statements.  A request is recorded between two statements, together
    with the number of [st.*] calls the run makes before it arrives; only
    those calls observe a request, so one that arrives inside a statement
    (between the player of line 101 and the download button of lines
    102-107, or between the two error boxes of lines 112-113) is covered.
    The run Streamlit starts after a rerun request is not spawned by the
    model: the interleaving takes any list of runs from the start, and
    the new run is a run of that list that the schedule starts once the
    interrupted one has ended.  A request stays pending for every later
    [st.*] call of the run, as Streamlit's [StopException] does; for a
    rerun request Streamlit raises [RerunException] at the first call
    only.  No code path catches a [BaseException] and the [finally]
    clause makes no [st.*] call, so the run ends at that first raise in
    both cases.
    [@st.cache_resource] shows, on a miss, a spinner in a placeholder of
    the page that it empties once [load_model] returns; the page model
    holds the elements a run leaves visible, and the emptied placeholder
    shows nothing, so the spinner is left out.  [cap.release()] (lines
    30 and 42) is left out: a capture is a read-only value of the model,
    and releasing it changes no file and no page element.
    The internals of YOLO inference and drawing, and the codecs (frames
    are abstract pixel lists; only geometry, order, count and rate are
    observed).  The FFmpeg filter is interpreted by recognising the one
    string the program sends: a general parser of FFmpeg's expression
    language would model FFmpeg, not this program.  Imports (lines 1-6)
    have no behaviour to model. *)

From stdpp Require Export base gmap strings list pretty.
From Stdlib Require Export ZArith QArith Lia.
Close Scope Q_scope.
Open Scope string_scope.
Open Scope Z_scope.

(** ** Python-style results: a value or a raised exception *)

Inductive result (E A : Type) : Type :=
| Ok (a : A)
| Exc (e : E).
Arguments Ok {E A} a.
Arguments Exc {E A} e.

(** A computation of the program: it reads and updates a state [S] and
    either returns a value or raises an exception of type [E]; the state
    it leaves behind is kept in both cases (side effects done before a
    [raise] are not undone, as in Python). *)
Definition PyM (S E A : Type) : Type := S -> result E A * S.

Section PyM.
Context {S E : Type}.

Definition ret {A} (a : A) : PyM S E A := fun s => (Ok a, s).

Definition bind {A B} (c : PyM S E A) (k : A -> PyM S E B) : PyM S E B :=
  fun s => match c s with
           | (Ok a, s') => k a s'
           | (Exc e, s') => (Exc e, s')
           end.

Definition raise {A} (e : E) : PyM S E A := fun s => (Exc e, s).

Definition get : PyM S E S := fun s => (Ok s, s).
Definition gets {A} (f : S -> A) : PyM S E A := fun s => (Ok (f s), s).
Definition modify (f : S -> S) : PyM S E unit := fun s => (Ok tt, f s).

(** [try: c except e: h e]; the handler decides whether to re-raise. *)
Definition try_except {A} (c : PyM S E A) (h : E -> PyM S E A) : PyM S E A :=
  fun s => match c s with
           | (Exc e, s') => h e s'
           | r => r
           end.

(** [try: c finally: fin]: [fin] runs on every exit of [c]; an exception
    raised by [fin] replaces the outcome of [c]. *)
Definition try_finally {A} (c : PyM S E A) (fin : PyM S E unit) : PyM S E A :=
  fun s => match c s with
           | (r, s') => match fin s' with
                        | (Ok _, s'') => (r, s'')
                        | (Exc e, s'') => (Exc e, s'')
                        end
           end.

Definition when (b : bool) (c : PyM S E unit) : PyM S E unit :=
  if b then c else ret tt.

(** The state a computation ends in, and its outcome. *)
Definition final (c : PyM S E unit) (s : S) : S := snd (c s).
(** [preserves P c]: every run of [c] from a state satisfying [P] ends
    in a state satisfying [P], whether it returns or raises. *)
Definition preserves {A} (P : S -> Prop) (c : PyM S E A) : Prop :=
  forall s, P s -> P (snd (c s)).

(** [hoare P c Q X]: from a state satisfying [P], [c] either returns [a]
    in a state satisfying [Q a] or raises [e] in a state satisfying [X e]. *)
Definition hoare {A} (P : S -> Prop) (c : PyM S E A)
    (Q : A -> S -> Prop) (X : E -> S -> Prop) : Prop :=
  forall s, P s -> match c s with
                   | (Ok a, s') => Q a s'
                   | (Exc e, s') => X e s'
                   end.
End PyM.

Declare Scope py_scope.
Delimit Scope py_scope with py.
Notation "x <- c ;; k" := (bind c (fun x => k))
  (at level 100, c at next level, k at level 200, right associativity) : py_scope.
Notation "c ;; k" := (bind c (fun _ : unit => k))
  (at level 100, k at level 200, right associativity) : py_scope.
Open Scope py_scope.

(** ** Invariants of computations

    The lemmas below let [eauto with pym] prove [preserves P c] for a
    program from its statements. *)

Create HintDb pym discriminated.

Section Preserves.
Context {S E : Type} (P : S -> Prop).

Lemma preserves_ret {A} (a : A) : preserves P (ret (S:=S) (E:=E) a).
Proof. intros s Hs. exact Hs. Qed.

Lemma preserves_raise {A} (e : E) : preserves (A:=A) P (raise (S:=S) e).
Proof. intros s Hs. exact Hs. Qed.

Lemma preserves_gets {A} (f : S -> A) : preserves P (gets (E:=E) f).
Proof. intros s Hs. exact Hs. Qed.

Lemma preserves_get : preserves P (get (E:=E)).
Proof. intros s Hs. exact Hs. Qed.

Lemma preserves_modify (f : S -> S) :
  (forall s, P s -> P (f s)) -> preserves P (modify (E:=E) f).
Proof. intros Hf s Hs. exact (Hf s Hs). Qed.

Lemma preserves_bind {A B} (c : PyM S E A) (k : A -> PyM S E B) :
  preserves P c -> (forall a, preserves P (k a)) -> preserves P (bind c k).
Proof.
  intros Hc Hk s Hs. unfold bind.
  specialize (Hc s Hs). destruct (c s) as [[a|e] s']; simpl in *;
    [apply Hk|]; exact Hc.
Qed.

Lemma preserves_try_except {A} (c : PyM S E A) (h : E -> PyM S E A) :
  preserves P c -> (forall e, preserves P (h e)) -> preserves P (try_except c h).
Proof.
  intros Hc Hh s Hs. unfold try_except.
  specialize (Hc s Hs). destruct (c s) as [[a|e] s']; simpl in *;
    [|apply Hh]; exact Hc.
Qed.

Lemma preserves_try_finally {A} (c : PyM S E A) (fin : PyM S E unit) :
  preserves P c -> preserves P fin -> preserves P (try_finally c fin).
Proof.
  intros Hc Hf s Hs. unfold try_finally.
  specialize (Hc s Hs). destruct (c s) as [r s'].
  specialize (Hf s' Hc). destruct (fin s') as [[]  s'']; exact Hf.
Qed.

Lemma preserves_when (b : bool) (c : PyM S E unit) :
  preserves P c -> preserves P (when b c).
Proof. intros Hc. destruct b; [exact Hc | apply preserves_ret]. Qed.

Lemma preserves_if {A} (b : bool) (c1 c2 : PyM S E A) :
  preserves P c1 -> preserves P c2 -> preserves P (if b then c1 else c2).
Proof. destruct b; auto. Qed.
End Preserves.

#[export] Hint Resolve preserves_ret preserves_raise preserves_gets preserves_get
  preserves_bind preserves_try_except preserves_try_finally preserves_when
  preserves_if : pym.

(** Decompose a [preserves] goal statement by statement; the leaves are
    left to [eauto with pym]. *)
Ltac preserves_step :=
  match goal with
  | |- preserves _ (bind _ _) => apply preserves_bind; [|intros ?]
  | |- preserves _ (try_except _ _) => apply preserves_try_except; [|intros ?]
  | |- preserves _ (try_finally _ _) => apply preserves_try_finally
  | |- preserves _ (when _ _) => apply preserves_when
  | |- preserves _ (if ?b then _ else _) => destruct b
  | |- preserves _ (match ?x with _ => _ end) => destruct x
  end.

Ltac solve_preserves :=
  repeat first [ solve [eauto with pym] | preserves_step ].

(** ** Running a computation: unfolding equations *)

Section Run.
Context {S E : Type}.

Lemma run_bind_ok {A B} (c : PyM S E A) (k : A -> PyM S E B) s a s' :
  c s = (Ok a, s') -> bind c k s = k a s'.
Proof. intros H. unfold bind. rewrite H. reflexivity. Qed.

Lemma run_bind_exc {A B} (c : PyM S E A) (k : A -> PyM S E B) s e s' :
  c s = (Exc e, s') -> bind c k s = (Exc e, s').
Proof. intros H. unfold bind. rewrite H. reflexivity. Qed.

Lemma run_try_except_ok {A} (c : PyM S E A) h s a s' :
  c s = (Ok a, s') -> try_except c h s = (Ok a, s').
Proof. intros H. unfold try_except. rewrite H. reflexivity. Qed.

Lemma run_try_except_exc {A} (c : PyM S E A) h s e s' :
  c s = (Exc e, s') -> try_except c h s = h e s'.
Proof. intros H. unfold try_except. rewrite H. reflexivity. Qed.
End Run.

(** Decompose a hypothesis [(r, s) = (r', s')] or [Ok a = Ok b]. *)
Ltac inv_run :=
  repeat match goal with
         | H : (_, _) = (_, _) |- _ => injection H as H; subst
         | H : Ok _ = Ok _ |- _ => injection H as H; subst
         | H : Exc _ = Exc _ |- _ => injection H as H; subst
         | H : Ok _ = Exc _ |- _ => discriminate H
         | H : Exc _ = Ok _ |- _ => discriminate H
         | H : Some _ = Some _ |- _ => injection H as H; subst
         | H : Some _ = None |- _ => discriminate H
         | H : None = Some _ |- _ => discriminate H
         end.

(** ** Rules of the Hoare triples *)

Section Hoare.
Context {S E : Type}.

Lemma hoare_ret {A} (Q : A -> S -> Prop) (X : E -> S -> Prop) a : hoare (Q a) (ret a) Q X.
Proof. intros s Hs. exact Hs. Qed.

Lemma hoare_raise {A} (Q : A -> S -> Prop) (X : E -> S -> Prop) e : hoare (X e) (raise e) Q X.
Proof. intros s Hs. exact Hs. Qed.

Lemma hoare_get (Q : S -> S -> Prop) (X : E -> S -> Prop) : hoare (fun s => Q s s) get Q X.
Proof. intros s Hs. exact Hs. Qed.

Lemma hoare_gets {A} (f : S -> A) Q (X : E -> S -> Prop) : hoare (fun s => Q (f s) s) (gets f) Q X.
Proof. intros s Hs. exact Hs. Qed.

Lemma hoare_modify (f : S -> S) Q (X : E -> S -> Prop) : hoare (fun s => Q tt (f s)) (modify f) Q X.
Proof. intros s Hs. exact Hs. Qed.

Lemma hoare_bind {A B} P (c : PyM S E A) (k : A -> PyM S E B) Q R X :
  hoare P c Q X -> (forall a, hoare (Q a) (k a) R X) -> hoare P (bind c k) R X.
Proof.
  intros Hc Hk s Hs. specialize (Hc s Hs). unfold bind.
  destruct (c s) as [[a|e] s']; [apply Hk|]; exact Hc.
Qed.

Lemma hoare_consequence {A} P P' (c : PyM S E A) Q Q' X X' :
  hoare P c Q X ->
  (forall s, P' s -> P s) ->
  (forall a s, Q a s -> Q' a s) ->
  (forall e s, X e s -> X' e s) ->
  hoare P' c Q' X'.
Proof.
  intros Hc HP HQ HX s Hs. specialize (Hc s (HP s Hs)).
  destruct (c s) as [[a|e] s']; auto.
Qed.

Lemma hoare_pre {A} P P' (c : PyM S E A) Q X :
  hoare P c Q X -> (forall s, P' s -> P s) -> hoare P' c Q X.
Proof. intros Hc HP. eapply hoare_consequence; eauto. Qed.

Lemma hoare_if {A} (b : bool) P (c1 c2 : PyM S E A) Q X :
  (b = true -> hoare P c1 Q X) -> (b = false -> hoare P c2 Q X) ->
  hoare P (if b then c1 else c2) Q X.
Proof. destruct b; auto. Qed.

Lemma hoare_try_except {A} P (c : PyM S E A) h Q X Y :
  hoare P c Q Y -> (forall e, hoare (Y e) (h e) Q X) -> hoare P (try_except c h) Q X.
Proof.
  intros Hc Hh s Hs. specialize (Hc s Hs). unfold try_except.
  destruct (c s) as [[a|e] s']; [exact Hc | apply Hh; exact Hc].
Qed.

(** The finally block is proved once for every outcome [r] of the body. *)
Lemma hoare_try_finally {A} P (c : PyM S E A) fin (I : result E A -> S -> Prop) Q X :
  hoare P c (fun a => I (Ok a)) (fun e => I (Exc e)) ->
  (forall r, hoare (I r) fin
               (fun _ s => match r with Ok a => Q a s | Exc e => X e s end) X) ->
  hoare P (try_finally c fin) Q X.
Proof.
  intros Hc Hf s Hs. specialize (Hc s Hs). unfold try_finally.
  destruct (c s) as [r s'] eqn:Ec.
  assert (Hr : I r s') by (destruct r; exact Hc).
  specialize (Hf r s' Hr). destruct (fin s') as [[[]|e] s'']; exact Hf.
Qed.

(** Invariants are triples whose three conditions coincide. *)
Lemma preserves_hoare {A} (P : S -> Prop) (c : PyM S E A) :
  preserves P c -> hoare P c (fun _ => P) (fun _ => P).
Proof.
  intros Hc s Hs. specialize (Hc s Hs). destruct (c s) as [[a|e] s']; exact Hc.
Qed.

Lemma hoare_preserves {A} (P : S -> Prop) (c : PyM S E A) :
  hoare P c (fun _ => P) (fun _ => P) -> preserves P c.
Proof.
  intros Hc s Hs. specialize (Hc s Hs). destruct (c s) as [[a|e] s']; exact Hc.
Qed.
End Hoare.
