(* ===== verification/World.v ===== *)
(** * World: the state src/deploy.py runs against, and the library calls it makes

    The Python script only manipulates the outside world through library
    calls: [os] (paths and removal), [tempfile.NamedTemporaryFile],
    Streamlit's page functions ([st.title], [st.error], ...) and widget
    values, and [open(...).read()].  This file defines the [world] record
    those calls act on, Python's exceptions as the inductive [exn], and
    each library call as a computation of [M := PyM world exn].  The
    library code itself is not under src/: each call is modelled from its
    documented contract (marked spec_modelled in the manifest), except
    [os.path.splitext], translated from CPython's [genericpath._splitext]. *)

From S2P Require Import Prelude.
From Stdlib Require Import Ascii.

(** ** Data *)

(** A decoded frame: a numpy array of shape (h, w, 3), kept with its
    dimensions and its samples. *)
Record frame := mkFrame { frame_w : Z; frame_h : Z; frame_pixels : list Z }.

(** A video container: geometry, frame rate, the four-character codec tag
    and the frame sequence in order. *)
Record video := mkVideo {
  v_width : Z; v_height : Z; v_fps : Q; v_fourcc : string; v_frames : list frame }.

(** What a file on disk holds, at the granularity the program observes:
    arbitrary bytes, a finished video container, a container whose writer
    was never released (header and frames written, no index), or a YOLO
    weights artifact. *)
Inductive file :=
| RawFile (data : list Byte.byte)
| VideoFile (v : video)
| PartialVideo (v : video)
| WeightsFile (weights : Z).

(** [os.path.getsize]: only emptiness is observed by the program; a
    container or weights file always has a non-empty header. *)
Definition file_size (f : file) : nat :=
  match f with
  | RawFile d => length d
  | VideoFile v | PartialVideo v => S (length (v_frames v))
  | WeightsFile _ => 1%nat
  end.

(** A video whose frames all have the container's size. *)
Definition video_wf (v : video) : bool :=
  forallb (fun f => (frame_w f =? v_width v) && (frame_h f =? v_height v)) (v_frames v).


(** The object [YOLO(model_path)] returns: the file it was loaded from
    and the weights it read. *)
Record yolo_handle := YOLO_ { model_file : string; model_weights : Z }.

(** Streamlit's [UploadedFile]: its client-side name and its bytes. *)
Record uploaded_file := UploadedFile { up_name : string; up_data : file }.

(** Python exceptions raised by the calls the script makes.  [ScriptControl]
    is Streamlit's [StopException]/[RerunException], which derive from
    [BaseException] and not from [Exception]. *)
Inductive exn :=
| CalledProcessError (returncode : Z) (cmd : list string) (stderr : string)
| FileNotFoundError (filename : string)
| FileExistsError (msg : string)
| IndexError (msg : string)
| RuntimeError (msg : string)
| ScriptControl.

(** [isinstance(e, Exception)] *)
Definition is_exception (e : exn) : bool :=
  match e with ScriptControl => false | _ => true end.

Definition is_called_process_error (e : exn) : bool :=
  match e with CalledProcessError _ _ _ => true | _ => false end.

(** Python's [repr] of a string: single quotes unless the text holds a
    single quote and no double quote (escapes of control characters are
    not modelled). *)
Definition dquote : string := String (ascii_of_nat 34) EmptyString.
Definition squote : string := "'".

Definition py_repr_str (s : string) : string :=
  if bool_decide (String.index 0 squote s <> None /\ String.index 0 dquote s = None)
  then dquote ++ s ++ dquote
  else squote ++ s ++ squote.

Fixpoint join_comma (l : list string) : string :=
  match l with
  | [] => ""
  | [a] => a
  | a :: l' => a ++ ", " ++ join_comma l'
  end.

(** [str(e)], as an f-string shows it. *)
Definition exn_str (e : exn) : string :=
  match e with
  | CalledProcessError rc cmd _ =>
      "Command '[" ++ join_comma (map py_repr_str cmd) ++
      "]' returned non-zero exit status " ++ pretty rc ++ "."
  | FileNotFoundError p => "[Errno 2] No such file or directory: " ++ py_repr_str p
  | FileExistsError m => "[Errno 17] " ++ m
  | IndexError m | RuntimeError m => m
  | ScriptControl => ""
  end.

(** The elements the script puts on the page, in order. *)
Inductive element :=
| Title (text : string)
| Markdown (text : string)
| ErrorBox (text : string)
| InfoBox (text : string)
| SuccessBox (text : string)
| FileUploader (label : string) (types : list string)
| VideoPlayer (data : file)
| DownloadButton (label : string) (data : file) (file_name : string) (mime : string).

(** ** The world *)

Record world := mkWorld {
  fs : gmap string file;             (** the file system, by path *)
  ui : list element;                 (** the page built so far *)
  tempdir : string;                  (** [tempfile.gettempdir()] *)
  rng : list string;                 (** upcoming random names of [tempfile] *)
  cache : gmap string yolo_handle;   (** [st.cache_resource] of [load_model] *)
  ffmpeg_installed : bool;           (** an [ffmpeg] binary is on PATH *)
  writer_available : bool;           (** OpenCV can open an mp4v writer *)
  widget_upload : option uploaded_file;  (** the uploader widget's value *)
  stop_after : option nat            (** a rerun/stop request arrives when the
                                         page holds this many elements *)
}.

Definition map_fs (f : gmap string file -> gmap string file) (w : world) : world :=
  {| fs := f (fs w); ui := ui w; tempdir := tempdir w; rng := rng w; cache := cache w;
     ffmpeg_installed := ffmpeg_installed w; writer_available := writer_available w;
     widget_upload := widget_upload w; stop_after := stop_after w |}.

Definition map_ui (f : list element -> list element) (w : world) : world :=
  {| fs := fs w; ui := f (ui w); tempdir := tempdir w; rng := rng w; cache := cache w;
     ffmpeg_installed := ffmpeg_installed w; writer_available := writer_available w;
     widget_upload := widget_upload w; stop_after := stop_after w |}.

Definition set_rng (r : list string) (w : world) : world :=
  {| fs := fs w; ui := ui w; tempdir := tempdir w; rng := r; cache := cache w;
     ffmpeg_installed := ffmpeg_installed w; writer_available := writer_available w;
     widget_upload := widget_upload w; stop_after := stop_after w |}.

Definition map_cache (f : gmap string yolo_handle -> gmap string yolo_handle) (w : world)
  : world :=
  {| fs := fs w; ui := ui w; tempdir := tempdir w; rng := rng w; cache := f (cache w);
     ffmpeg_installed := ffmpeg_installed w; writer_available := writer_available w;
     widget_upload := widget_upload w; stop_after := stop_after w |}.

Abbreviation M := (PyM world exn).

(** ** [os] *)

Module Os.
Definition file_exists (m : gmap string file) (p : string) : bool :=
  match m !! p with Some _ => true | None => false end.

(** [os.path.exists(p)] *)
Definition path_exists (p : string) : M bool := gets (fun w => file_exists (fs w) p).

(** [os.remove(p)] *)
Definition remove (p : string) : M unit :=
  w <- get ;;
  match fs w !! p with
  | Some _ => modify (map_fs (delete p))
  | None => raise (FileNotFoundError p)
  end.

(** [os.path.getsize(p)] *)
Definition getsize (p : string) : M nat :=
  w <- get ;;
  match fs w !! p with
  | Some f => ret (file_size f)
  | None => raise (FileNotFoundError p)
  end.

(** [with open(p, "rb") as f: f.read()] *)
Definition read_file (p : string) : M file :=
  w <- get ;;
  match fs w !! p with
  | Some f => ret f
  | None => raise (FileNotFoundError p)
  end.

(** Writing a whole file through an open handle ([f.write(data)]). *)
Definition write_file (p : string) (data : file) : M unit :=
  modify (map_fs (<[p := data]>)).

(** [os.path.splitext(p)[1]], translated from CPython's
    [genericpath._splitext] with [sep = '/'] and [extsep = '.']:
    the extension starts at the last dot after the last separator,
    unless everything between the separator and that dot is dots. *)
Fixpoint rfind_aux (c : ascii) (s : list ascii) (i best : Z) : Z :=
  match s with
  | [] => best
  | a :: s' => rfind_aux c s' (i + 1) (if Ascii.eqb a c then i else best)
  end.

(** [str.rfind(c)]: the last index of [c], or -1. *)
Definition rfind (c : ascii) (s : list ascii) : Z := rfind_aux c s 0 (-1).

Definition splitext_list (p : list ascii) : list ascii * list ascii :=
  let sepIndex := rfind "/" p in
  let dotIndex := rfind "." p in
  if (sepIndex <? dotIndex)%Z then
    let between := take (Z.to_nat (dotIndex - (sepIndex + 1)))
                        (drop (Z.to_nat (sepIndex + 1)) p) in
    if existsb (fun a => negb (Ascii.eqb a ".")) between
    then (take (Z.to_nat dotIndex) p, drop (Z.to_nat dotIndex) p)
    else (p, [])
  else (p, []).

Definition splitext (p : string) : string * string :=
  let '(root, ext) := splitext_list (String.list_ascii_of_string p) in
  (String.string_of_list_ascii root, String.string_of_list_ascii ext).
End Os.

(** ** Streamlit *)

Module St.
(** Every element is enqueued to the browser; Streamlit handles a pending
    rerun or stop request at that point by raising [ScriptControl]. *)
Definition emit (el : element) : M unit :=
  w <- get ;;
  if bool_decide (stop_after w = Some (length (ui w)))
  then raise ScriptControl
  else modify (map_ui (fun u => (u ++ [el])%list)).

Definition title (s : string) : M unit := emit (Title s).
Definition write (s : string) : M unit := emit (Markdown s).
Definition error (s : string) : M unit := emit (ErrorBox s).
Definition info (s : string) : M unit := emit (InfoBox s).
Definition success (s : string) : M unit := emit (SuccessBox s).
Definition video (data : file) : M unit := emit (VideoPlayer data).
Definition download_button (label : string) (data : file) (file_name mime : string)
  : M unit := emit (DownloadButton label data file_name mime).

(** [st.file_uploader(label, type=types)]: draws the widget and returns
    its current value (the extension filter is applied by the browser). *)
Definition file_uploader (label : string) (types : list string)
  : M (option uploaded_file) :=
  emit (FileUploader label types) ;; gets widget_upload.
End St.

(** ** [tempfile] *)

Module Tempfile.
Definition template : string := "tmp".

(** [os.path.join(dir, pre + name + suf)] *)
Definition candidate (dir pre suf name : string) : string :=
  dir ++ "/" ++ pre ++ name ++ suf.

(** The loop of [tempfile._mkstemp_inner]: try the next random name,
    skip it when [os.open(..., O_CREAT|O_EXCL)] finds it taken; [rng]
    holds the names the generator will produce within [TMP_MAX] tries. *)
Fixpoint pick (m : gmap string file) (dir pre suf : string) (names : list string)
  : option (string * list string) :=
  match names with
  | [] => None
  | n :: rest =>
      let p := candidate dir pre suf n in
      if Os.file_exists m p then pick m dir pre suf rest else Some (p, rest)
  end.

(** [tempfile.NamedTemporaryFile(delete=False, suffix=suf).name]: the
    file is created empty; closing it changes nothing on disk. *)
Definition named_temporary_file (suf : string) : M string :=
  w <- get ;;
  match pick (fs w) (tempdir w) template suf (rng w) with
  | Some (p, rest) =>
      modify (fun w => set_rng rest (map_fs (<[p := RawFile []]>) w)) ;; ret p
  | None =>
      modify (set_rng []) ;;
      raise (FileExistsError "No usable temporary file name found")
  end.
End Tempfile.

(** ** Concrete worlds, for evaluating the model on examples *)

Definition sample_frame (w h : Z) (k : Z) : frame := mkFrame w h [k].

Definition sample_video (w h : Z) (n : nat) : video :=
  mkVideo w h 30 "avc1" (map (fun k => sample_frame w h (Z.of_nat k)) (seq 0 n)).

Definition sample_world : world :=
  mkWorld ∅ [] "/tmp" ["a1b2c3d4"; "e5f6g7h8"; "i9j0k1l2"] ∅ true true None None.

(** ** Which paths a computation may write

    [fs_effect out w0 w]: going from [w0] to [w], the file system changed
    only at paths in [out], and no file was deleted. *)
Definition fs_effect (out : string -> Prop) (w0 w : world) : Prop :=
  forall q, (~ out q -> fs w !! q = fs w0 !! q) /\ (is_Some (fs w0 !! q) -> is_Some (fs w !! q)).

Definition writes_within {A} (out : string -> Prop) (c : M A) : Prop :=
  forall w0, preserves (fs_effect out w0) c.

(** ** Lemmas *)

Lemma fs_effect_refl out w : fs_effect out w w.
Proof. intros q. split; auto. Qed.

Lemma fs_effect_mono (out out' : string -> Prop) w0 w :
  (forall q, out q -> out' q) -> fs_effect out w0 w -> fs_effect out' w0 w.
Proof. intros Hsub H q. destruct (H q) as [H1 H2]. split; auto. Qed.

Lemma fs_effect_insert (out : string -> Prop) w0 w p f :
  out p -> fs_effect out w0 w -> fs_effect out w0 (map_fs (<[p := f]>) w).
Proof.
  intros Hp H q. destruct (H q) as [H1 H2]. simpl.
  destruct (decide (p = q)) as [->|Hne].
  - rewrite lookup_insert_eq. split; [tauto | eauto].
  - rewrite lookup_insert_ne by exact Hne. split; auto.
Qed.

Lemma emit_fs_effect out w0 el : preserves (fs_effect out w0) (St.emit el).
Proof.
  intros w H. unfold St.emit, bind, get.
  destruct (bool_decide _); exact H.
Qed.

Lemma write_file_fs_effect (out : string -> Prop) w0 p d :
  out p -> preserves (fs_effect out w0) (Os.write_file p d).
Proof. intros Hp w H. apply fs_effect_insert; assumption. Qed.

Lemma path_exists_fs_effect out w0 p : preserves (fs_effect out w0) (Os.path_exists p).
Proof. intros w H. exact H. Qed.

Lemma getsize_fs_effect out w0 p : preserves (fs_effect out w0) (Os.getsize p).
Proof. intros w H. unfold Os.getsize, bind, get. destruct (fs w !! p); exact H. Qed.

Lemma read_file_fs_effect out w0 p : preserves (fs_effect out w0) (Os.read_file p).
Proof. intros w H. unfold Os.read_file, bind, get. destruct (fs w !! p); exact H. Qed.

Lemma map_cache_fs_effect out w0 f :
  preserves (fs_effect out w0) (modify (E:=exn) (map_cache f)).
Proof. intros w H. exact H. Qed.

(** No file changes means the same file system. *)
Lemma fs_effect_none w0 w : fs_effect (fun _ => False) w0 w -> fs w = fs w0.
Proof. intros H. apply map_eq. intros q. apply (H q). tauto. Qed.

#[export] Hint Resolve emit_fs_effect write_file_fs_effect path_exists_fs_effect map_cache_fs_effect
  getsize_fs_effect read_file_fs_effect : pym.

Lemma writes_within_mono {A} (out out' : string -> Prop) (c : M A) :
  (forall q, out q -> out' q) -> writes_within out c ->
  forall w0, preserves (fs_effect out' w0) c.
Proof.
  intros Hsub Hc w0 w H.
  pose proof (Hc w w (fs_effect_refl out w)) as Hw.
  intros q. destruct (H q) as [H1 H2]. destruct (Hw q) as [H3 H4].
  split.
  - intros Hq. rewrite H3 by (intros Hin; exact (Hq (Hsub q Hin))). auto.
  - intros Hs. auto.
Qed.

(** [tempfile]: the name picked is free in the file system it was picked
    against, and it lies in the temporary directory. *)
Lemma pick_spec m dir pre suf names p rest :
  Tempfile.pick m dir pre suf names = Some (p, rest) ->
  m !! p = None /\ exists n, p = Tempfile.candidate dir pre suf n.
Proof.
  induction names as [|n names IH]; simpl; [discriminate|].
  unfold Os.file_exists.
  destruct (m !! Tempfile.candidate dir pre suf n) eqn:E; [exact IH|].
  intros H. inv_run. eauto.
Qed.

Lemma candidate_nonempty dir pre suf n : Tempfile.candidate dir pre suf n <> "".
Proof.
  unfold Tempfile.candidate. destruct dir; simpl; discriminate.
Qed.

Lemma named_temporary_file_hoare suf w0 :
  hoare (eq w0) (Tempfile.named_temporary_file suf)
    (fun p w => fs w0 !! p = None /\ p <> "" /\
       exists rest, w = set_rng rest (map_fs (<[p := RawFile []]>) w0))
    (fun _ w => w = set_rng [] w0).
Proof.
  intros w ->. unfold Tempfile.named_temporary_file, bind, get, modify, ret, raise.
  destruct (Tempfile.pick _ _ _ _ _) as [[p rest]|] eqn:E; [|reflexivity].
  apply pick_spec in E as [Hfree [n ->]].
  split; [exact Hfree|]. split; [apply candidate_nonempty|]. eauto.
Qed.

(** [str.rfind]: the index returned holds the character and no later
    index does; -1 when the character does not occur. *)
Lemma rfind_aux_spec c s i best :
  (Os.rfind_aux c s i best = best /\ c ∉ s) \/
  (exists k, Os.rfind_aux c s i best = i + Z.of_nat k /\ s !! k = Some c /\
             forall j, (k < j)%nat -> s !! j <> Some c).
Proof.
  revert i best. induction s as [|a s IH]; intros i best; simpl.
  - left. split; [reflexivity|]. apply not_elem_of_nil.
  - destruct (IH (i + 1) (if Ascii.eqb a c then i else best))
      as [[-> Hnot] | (k & -> & Hk & Hlast)].
    + destruct (Ascii.eqb_spec a c) as [->|Hne].
      * right. exists 0%nat. split; [lia|]. split; [reflexivity|].
        intros [|j] Hj; [lia|]. simpl. intros Hj'.
        apply Hnot. eapply list_elem_of_lookup_2; exact Hj'.
      * left. split; [reflexivity|]. rewrite not_elem_of_cons. split; [congruence | exact Hnot].
    + right. exists (S k). split; [lia|]. split; [exact Hk|].
      intros [|j] Hj; [lia|]. simpl. apply Hlast. lia.
Qed.

Lemma string_of_list_ascii_app l1 l2 :
  String.string_of_list_ascii (l1 ++ l2) =
  String.string_of_list_ascii l1 ++ String.string_of_list_ascii l2.
Proof. induction l1 as [|a l1 IH]; simpl; [reflexivity|]. rewrite IH. reflexivity. Qed.

Lemma splitext_list_app p : ((Os.splitext_list p).1 ++ (Os.splitext_list p).2)%list = p.
Proof.
  unfold Os.splitext_list.
  destruct (_ <? _)%Z; [destruct (existsb _ _)|]; simpl;
    [apply take_drop | apply app_nil_r | apply app_nil_r].
Qed.

(** The extension found by [splitext_list] starts at a dot and holds no
    separator. *)
Lemma splitext_list_ext p :
  (Os.splitext_list p).2 = [] \/
  exists rest, (Os.splitext_list p).2 = "."%char :: rest /\ "/"%char ∉ rest.
Proof.
  unfold Os.splitext_list, Os.rfind.
  assert (Hsep : (Os.rfind_aux "/" p 0 (-1) = -1 /\ "/"%char ∉ p) \/
                 exists ks, Os.rfind_aux "/" p 0 (-1) = Z.of_nat ks /\
                            forall j, (ks < j)%nat -> p !! j <> Some "/"%char).
  { destruct (rfind_aux_spec "/" p 0 (-1)) as [H | (ks & Hs & _ & Hl)]; [left; exact H|].
    right. exists ks. split; [lia | exact Hl]. }
  destruct (rfind_aux_spec "." p 0 (-1)) as [[Hd _] | (kd & Hd & Hdk & _)]; rewrite Hd.
  - destruct (_ <? _)%Z eqn:Hlt; [|left; reflexivity].
    rewrite Z.ltb_lt in Hlt. destruct Hsep as [[Hs _] | (ks & Hs & _)]; lia.
  - destruct (_ <? _)%Z eqn:Hlt; [|left; reflexivity].
    destruct (existsb _ _); [|left; reflexivity].
    right. simpl. replace (Z.to_nat (0 + Z.of_nat kd)) with kd by lia.
    erewrite drop_S by exact Hdk. eexists; split; [reflexivity|].
    intros Hin. apply list_elem_of_lookup_1 in Hin as [j Hj]. rewrite lookup_drop in Hj.
    rewrite Z.ltb_lt in Hlt.
    destruct Hsep as [[_ Hn] | (ks & Hs & Hl)].
    + apply Hn. eapply list_elem_of_lookup_2. exact Hj.
    + apply (Hl (S kd + j)%nat); [lia | exact Hj].
Qed.

(** The path [NamedTemporaryFile] creates from an upload's name keeps the
    upload's text out of the directory part: the suffix holds no [/]. *)
Lemma splitext_ext_no_sep p : "/"%char ∉ String.list_ascii_of_string (Os.splitext p).2.
Proof.
  unfold Os.splitext. pose proof (splitext_list_ext (String.list_ascii_of_string p)) as H.
  destruct (Os.splitext_list _) as [root ext]; simpl in *.
  rewrite String.list_ascii_of_string_of_list_ascii.
  destruct H as [-> | (rest & -> & Hrest)].
  - apply not_elem_of_nil.
  - rewrite not_elem_of_cons. split; [discriminate | exact Hrest].
Qed.

(** [root + ext == p] for [root, ext = os.path.splitext(p)]. *)
Theorem splitext_roundtrip p : (Os.splitext p).1 ++ (Os.splitext p).2 = p.
Proof.
  unfold Os.splitext. pose proof (splitext_list_app (String.list_ascii_of_string p)) as H.
  destruct (Os.splitext_list _) as [root ext]. simpl in *.
  rewrite <- string_of_list_ascii_app, H. apply String.string_of_list_ascii_of_string.
Qed.

Example splitext_examples :
  Os.splitext "clip.final.mp4" = ("clip.final", ".mp4") /\
  Os.splitext ".hidden" = (".hidden", "") /\
  Os.splitext "a.b/c" = ("a.b/c", "") /\
  Os.splitext "movie." = ("movie", ".").
Proof. vm_compute. repeat split. Qed.

(** Running the library calls on a concrete outcome. *)
Lemma named_temporary_file_run suf w p rest :
  Tempfile.pick (fs w) (tempdir w) Tempfile.template suf (rng w) = Some (p, rest) ->
  Tempfile.named_temporary_file suf w = (Ok p, set_rng rest (map_fs (<[p := RawFile []]>) w)).
Proof. intros Hp. unfold Tempfile.named_temporary_file, bind, get. rewrite Hp. reflexivity. Qed.

Lemma emit_run el w :
  stop_after w = None -> St.emit el w = (Ok tt, map_ui (fun u => (u ++ [el])%list) w).
Proof. intros Hs. unfold St.emit, bind, get. rewrite Hs. reflexivity. Qed.

(** Whatever request is pending, [st.*] either raises and leaves the page
    as it was or adds its element. *)
Lemma emit_page (Q : world -> Prop) el :
  (forall w, Q w -> Q (map_ui (fun u => (u ++ [el])%list) w)) -> preserves Q (St.emit el).
Proof.
  intros HQ w Hw. unfold St.emit, bind, get, modify, raise.
  destruct (bool_decide _); [exact Hw | exact (HQ w Hw)].
Qed.

Lemma emit_stop el w :
  stop_after w = Some (length (ui w)) -> St.emit el w = (Exc ScriptControl, w).
Proof.
  intros Hs. unfold St.emit, bind, get. rewrite Hs, bool_decide_eq_true_2 by reflexivity.
  reflexivity.
Qed.

(** Whatever request is recorded, a page call either shows its element or
    raises [ScriptControl] because a request has taken effect. *)
Lemma emit_cases el W :
  St.emit el W = (Ok tt, map_ui (fun u => (u ++ [el])%list) W) \/
  (St.emit el W = (Exc ScriptControl, W) /\ stop_after W <> None).
Proof.
  unfold St.emit, bind, get. destruct (bool_decide (stop_after W = Some (length (ui W)))) eqn:E.
  - right. split; [reflexivity|]. apply bool_decide_eq_true_1 in E. congruence.
  - left. reflexivity.
Qed.

(** [NamedTemporaryFile] creates an empty file at a path that was
    free and is not empty, or raises and leaves the file system as it was. *)
Theorem named_temporary_file_spec suf w0 :
  hoare (eq w0) (Tempfile.named_temporary_file suf)
    (fun p w => fs w0 !! p = None /\ p <> "" /\
       exists rest, w = set_rng rest (map_fs (<[p := RawFile []]>) w0))
    (fun _ w => w = set_rng [] w0).
Proof. exact (named_temporary_file_hoare suf w0). Qed.
