(* ===== verification/Transcoder.v ===== *)
(** * Transcoder: the FFmpeg normalisation step of src/deploy.py (lines 74-89)

    The script builds the argument list [ffmpeg_command] (lines 81-87) and
    runs it with [subprocess.run(..., check=True, capture_output=True,
    text=True)] (line 89).  The filter argument is the string
    [scale='if(gt(a,1),1280,-2)':'if(gt(a,1),-2,1280)'], kept here as two
    expressions of FFmpeg's expression language ([fexpr]) and printed to
    that exact string.  The FFmpeg binary itself is not part of the
    repository: its behaviour on this argument template is modelled from
    its documentation and from libavfilter's [ff_scale_eval_dimensions] /
    [ff_scale_adjust_dimensions] and libavutil's [av_rescale] (round to
    nearest, halves away from zero). *)

From S2P Require Import Prelude World.
From Stdlib Require Import Ascii.

(** ** FFmpeg expressions (the subset the filter uses) *)

Inductive fexpr :=
| FVarA                          (** [a]: input aspect ratio iw/ih *)
| FNum (z : Z)
| FGt (x y : fexpr)              (** [gt(x,y)] *)
| FIf (c t e : fexpr).           (** [if(c,t,e)] *)

Fixpoint print_fexpr (e : fexpr) : string :=
  match e with
  | FVarA => "a"
  | FNum z => pretty z
  | FGt x y => "gt(" ++ print_fexpr x ++ "," ++ print_fexpr y ++ ")"
  | FIf c t f => "if(" ++ print_fexpr c ++ "," ++ print_fexpr t ++ "," ++ print_fexpr f ++ ")"
  end.

(** Evaluation over exact rationals; FFmpeg evaluates in doubles, which
    represent every value occurring here exactly. *)
Fixpoint eval_fexpr (a : Q) (e : fexpr) : Q :=
  match e with
  | FVarA => a
  | FNum z => inject_Z z
  | FGt x y => if Qle_bool (eval_fexpr a x) (eval_fexpr a y) then 0%Q else 1%Q
  | FIf c t f => if Qeq_bool (eval_fexpr a c) 0 then eval_fexpr a f else eval_fexpr a t
  end.

(** The two expressions of line 85. *)
Definition scale_w_expr : fexpr := FIf (FGt FVarA (FNum 1)) (FNum 1280) (FNum (-2)).
Definition scale_h_expr : fexpr := FIf (FGt FVarA (FNum 1)) (FNum (-2)) (FNum 1280).

Definition scale_filter (ew eh : fexpr) : string :=
  "scale='" ++ print_fexpr ew ++ "':'" ++ print_fexpr eh ++ "'".

(** ** Output geometry *)

(** [av_rescale(a, b, c)] = a*b/c rounded to nearest, for a, b >= 0, c > 0. *)
Definition av_rescale (a b c : Z) : Z := (a * b + c / 2) / c.

(** C's [(int)] cast of an evaluated expression: truncation. *)
Definition q_to_int (q : Q) : Z := Z.quot (Qnum q) (Zpos (Qden q)).

(** [ff_scale_eval_dimensions] followed by [ff_scale_adjust_dimensions]
    (no force_original_aspect_ratio): an expression evaluating to 0 means
    the input size, [-n] means "keep the aspect ratio, divisible by n". *)
Definition scale_eval (ew eh : fexpr) (iw ih : Z) : Z * Z :=
  let a := Qmake iw (Z.to_pos ih) in
  let w0 := q_to_int (eval_fexpr a ew) in
  let h0 := q_to_int (eval_fexpr a eh) in
  let w1 := if w0 =? 0 then iw else w0 in
  let h1 := if h0 =? 0 then ih else h0 in
  let factor_w := if w1 <? -1 then - w1 else 1 in
  let factor_h := if h1 <? -1 then - h1 else 1 in
  let '(w2, h2) := if (w1 <? 0) && (h1 <? 0) then (iw, ih) else (w1, h1) in
  let w3 := if w2 <? 0 then av_rescale h2 iw (ih * factor_w) * factor_w else w2 in
  let h3 := if h2 <? 0 then av_rescale w3 ih (iw * factor_h) * factor_h else h2 in
  (w3, h3).

Definition scale_dims (iw ih : Z) : Z * Z := scale_eval scale_w_expr scale_h_expr iw ih.

(** ** The command and its execution *)

(** Lines 81-87. *)
Definition ffmpeg_command (input_video_path downscaled_video_path : string) : list string :=
  ["ffmpeg"; "-y"; "-i"; input_video_path;
   "-vf"; scale_filter scale_w_expr scale_h_expr;
   downscaled_video_path].

(** Pixel resampling (libswscale) is an interface: the only promise the
    pipeline relies on is the size of the frames it produces. *)
Class Scaler := {
  sws_scale : Z -> Z -> frame -> frame;
  sws_scale_dims : forall w h f, frame_w (sws_scale w h f) = w /\ frame_h (sws_scale w h f) = h
}.

Section Ffmpeg.
Context `{Scaler}.

(** Re-encoding into the .mp4 output: same frames, same rate, new size. *)
Definition transcode (ow oh : Z) (v : video) : video :=
  mkVideo ow oh (v_fps v) "avc1" (map (sws_scale ow oh) (v_frames v)).

(** The filter arguments FFmpeg accepts for this template, recognised by
    printing: the model interprets exactly the string the program sends. *)
Definition parse_filter (vf : string) : option (fexpr * fexpr) :=
  if bool_decide (vf = scale_filter scale_w_expr scale_h_expr)
  then Some (scale_w_expr, scale_h_expr) else None.

(** [ffmpeg -y -i IN -vf VF OUT]: exit status and captured stderr. *)
Definition ffmpeg_exec (inp vf outp : string) : M (Z * string) :=
  w <- get ;;
  match fs w !! inp with
  | None => ret (1, inp ++ ": No such file or directory")
  | Some (VideoFile v) =>
      match parse_filter vf with
      | None => ret (1, "Error parsing a filter description")
      | Some (ew, eh) =>
          let '(ow, oh) := scale_eval ew eh (v_width v) (v_height v) in
          if (0 <? ow) && (0 <? oh)
          then Os.write_file outp (VideoFile (transcode ow oh v)) ;; ret (0, "")
          else ret (1, "Invalid output dimensions")
      end
  | Some _ => ret (1, inp ++ ": Invalid data found when processing input")
  end.

(** Process creation: [argv[0]] is looked up on PATH ([FileNotFoundError]
    when missing); only the [ffmpeg] template above is modelled. *)
Definition exec_program (argv : list string) : M (Z * string) :=
  match argv with
  | [prog; y; i; inp; vflag; vf; outp] =>
      w <- get ;;
      if bool_decide (prog = "ffmpeg") && ffmpeg_installed w then
        if bool_decide (y = "-y" /\ i = "-i" /\ vflag = "-vf")
        then ffmpeg_exec inp vf outp
        else ret (1, "Unrecognized option")
      else raise (FileNotFoundError prog)
  | prog :: _ => raise (FileNotFoundError prog)
  | [] => raise (RuntimeError "empty command")
  end.

(** [subprocess.run(cmd, check=True, capture_output=True, text=True)]. *)
Definition subprocess_run (cmd : list string) : M (Z * string) :=
  r <- exec_program cmd ;;
  let '(rc, err) := r in
  if rc =? 0 then ret (rc, err) else raise (CalledProcessError rc cmd err).
End Ffmpeg.

(** A resampler for concrete runs: it only relabels the frame size. *)
Definition scaler_relabel : Scaler :=
  {| sws_scale w h f := mkFrame w h (frame_pixels f);
     sws_scale_dims w h f := conj eq_refl eq_refl |}.

(** ** Lemmas *)

(** Evaluating the filter: [gt(a,1)] holds exactly for landscape input. *)
Lemma scale_dims_closed iw ih :
  0 < iw -> 0 < ih ->
  scale_dims iw ih =
  if ih <? iw then (1280, av_rescale 1280 ih (iw * 2) * 2)
  else (av_rescale 1280 iw (ih * 2) * 2, 1280).
Proof.
  intros Hw Hh. unfold scale_dims, scale_eval, scale_w_expr, scale_h_expr. simpl.
  unfold Qle_bool. simpl. rewrite Z2Pos.id by exact Hh.
  rewrite Z.mul_1_r, Z.mul_1_l.
  destruct (Z.leb_spec iw ih), (Z.ltb_spec ih iw); try lia; reflexivity.
Qed.

(** The shared arithmetic of both branches: the side scaled by [-2] is
    even, within one input unit of proportional, at most the fixed side
    1280 when it is the shorter one, and zero exactly when the input is
    more than 1280 times longer than it is wide. *)
Lemma rescale_even_spec x y :
  0 < x -> 0 <= y ->
  let s := av_rescale 1280 y (x * 2) * 2 in
  s mod 2 = 0 /\ 0 <= s /\ Z.abs (s * x - 1280 * y) <= x /\
  (y <= x -> s <= 1280) /\ (0 < s <-> x <= 1280 * y).
Proof.
  intros Hx Hy s. unfold s, av_rescale.
  replace (x * 2 / 2) with x by (rewrite Z.div_mul; lia).
  pose proof (Z.div_mod (1280 * y + x) (x * 2) ltac:(lia)) as Hdm.
  pose proof (Z.mod_pos_bound (1280 * y + x) (x * 2) ltac:(lia)) as Hb.
  set (q := (1280 * y + x) / (x * 2)) in *.
  set (r := (1280 * y + x) mod (x * 2)) in *.
  assert (0 <= q) by (apply Z.div_pos; lia).
  repeat split.
  - rewrite Z.mod_mul; lia.
  - lia.
  - apply Z.abs_le. nia.
  - intros Hyx. nia.
  - intros Hs. nia.
  - intros Hl. nia.
Qed.

(** C16: FFmpeg's output geometry for the filter of line 85: both sides
    even, the longer side exactly 1280, neither negative. *)
Theorem scale_dims_even_long_side iw ih :
  0 < iw -> 0 < ih ->
  (scale_dims iw ih).1 mod 2 = 0 /\ (scale_dims iw ih).2 mod 2 = 0 /\
  Z.max (scale_dims iw ih).1 (scale_dims iw ih).2 = 1280 /\
  0 <= Z.min (scale_dims iw ih).1 (scale_dims iw ih).2.
Proof.
  intros Hw Hh. rewrite scale_dims_closed by assumption.
  destruct (Z.ltb_spec ih iw); simpl.
  - destruct (rescale_even_spec iw ih) as (He & Hp & _ & Hle & _); [lia..|].
    repeat split; [exact He | lia | lia].
  - destruct (rescale_even_spec ih iw) as (He & Hp & _ & Hle & _); [lia..|].
    repeat split; [exact He | lia | lia].
Qed.

(** C17: the output keeps the input's aspect ratio up to rounding:
    [|w * ih - h * iw| <= max(iw, ih)], i.e. the scaled side is within
    one unit of its exact proportional value. *)
Theorem scale_dims_proportional iw ih :
  0 < iw -> 0 < ih ->
  Z.abs ((scale_dims iw ih).1 * ih - (scale_dims iw ih).2 * iw) <= Z.max iw ih.
Proof.
  intros Hw Hh. rewrite scale_dims_closed by assumption.
  destruct (Z.ltb_spec ih iw); simpl.
  - destruct (rescale_even_spec iw ih) as (_ & _ & Hprop & _); [lia..|].
    rewrite Z.abs_le in *. lia.
  - destruct (rescale_even_spec ih iw) as (_ & _ & Hprop & _); [lia..|].
    rewrite Z.abs_le in *. lia.
Qed.

(** The scaled side is 0, and FFmpeg refuses the size, exactly when the
    input is more than 1280 times longer than it is wide. *)
Lemma scale_dims_positive iw ih :
  0 < iw -> 0 < ih ->
  (0 < (scale_dims iw ih).1 /\ 0 < (scale_dims iw ih).2 <->
   iw <= 1280 * ih /\ ih <= 1280 * iw).
Proof.
  intros Hw Hh. rewrite scale_dims_closed by assumption.
  destruct (Z.ltb_spec ih iw); simpl.
  - destruct (rescale_even_spec iw ih) as (_ & _ & _ & _ & Hpos); [lia..|].
    rewrite Hpos. lia.
  - destruct (rescale_even_spec ih iw) as (_ & _ & _ & _ & Hpos); [lia..|].
    rewrite Hpos. lia.
Qed.

(** The scenarios of the specification, the square case it leaves open
    (it takes the portrait branch), and a long side above 1280 times the
    short side (the even-rounded short side is 0, which FFmpeg rejects). *)
Example scale_dims_scenarios :
  scale_dims 1920 1080 = (1280, 720) /\ scale_dims 1080 1920 = (720, 1280) /\
  scale_dims 1000 1000 = (1280, 1280) /\ scale_dims 3000 2 = (1280, 0).
Proof. vm_compute. repeat split. Qed.

(** The filter argument the model interprets is the literal of line 85. *)
Example ffmpeg_filter_literal :
  scale_filter scale_w_expr scale_h_expr = "scale='if(gt(a,1),1280,-2)':'if(gt(a,1),-2,1280)'".
Proof. vm_compute. reflexivity. Qed.

Section FfmpegLemmas.
Context `{Scaler}.

Lemma parse_filter_command :
  parse_filter (scale_filter scale_w_expr scale_h_expr) = Some (scale_w_expr, scale_h_expr).
Proof. unfold parse_filter. rewrite bool_decide_eq_true_2; reflexivity. Qed.

(** Running the command of lines 81-89, case by case. *)
Lemma subprocess_ffmpeg_run w inp outp :
  subprocess_run (ffmpeg_command inp outp) w =
  if ffmpeg_installed w then
    match fs w !! inp with
    | Some (VideoFile v) =>
        let '(ow, oh) := scale_dims (v_width v) (v_height v) in
        if (0 <? ow) && (0 <? oh)
        then (Ok (0, ""), map_fs (<[outp := VideoFile (transcode ow oh v)]>) w)
        else (Exc (CalledProcessError 1 (ffmpeg_command inp outp) "Invalid output dimensions"), w)
    | Some _ => (Exc (CalledProcessError 1 (ffmpeg_command inp outp)
                        (inp ++ ": Invalid data found when processing input")), w)
    | None => (Exc (CalledProcessError 1 (ffmpeg_command inp outp)
                      (inp ++ ": No such file or directory")), w)
    end
  else (Exc (FileNotFoundError "ffmpeg"), w).
Proof.
  unfold subprocess_run, exec_program, ffmpeg_command, bind, get, ret, raise.
  rewrite (bool_decide_eq_true_2 ("ffmpeg" = "ffmpeg")) by reflexivity. simpl.
  destruct (ffmpeg_installed w); [|reflexivity].
  unfold ffmpeg_exec, bind, get, ret. rewrite parse_filter_command.
  destruct (fs w !! inp) as [[d|v|v|wt]|]; try reflexivity.
  unfold scale_dims. destruct (scale_eval _ _ _ _) as [ow oh].
  destruct ((0 <? ow) && (0 <? oh)); reflexivity.
Qed.

(** The transcoding step writes no file but its output path. *)
Lemma subprocess_ffmpeg_writes inp outp :
  writes_within (eq outp) (subprocess_run (ffmpeg_command inp outp)).
Proof.
  intros w0 w Hw. rewrite subprocess_ffmpeg_run.
  destruct (ffmpeg_installed w); [|exact Hw].
  destruct (fs w !! inp) as [[d|v|v|wt]|]; try exact Hw.
  destruct (scale_dims _ _) as [ow oh]. destruct (_ && _); [|exact Hw].
  apply fs_effect_insert; [reflexivity | exact Hw].
Qed.

(** FFmpeg on an input that does not decode as a video. *)
Lemma ffmpeg_reject_run w inp outp f :
  ffmpeg_installed w = true -> fs w !! inp = Some f -> (forall v, f <> VideoFile v) ->
  subprocess_run (ffmpeg_command inp outp) w =
  (Exc (CalledProcessError 1 (ffmpeg_command inp outp)
          (inp ++ ": Invalid data found when processing input")), w).
Proof.
  intros Hi Hf Hnv. rewrite subprocess_ffmpeg_run, Hi, Hf.
  destruct f as [d|v|v|wt]; try reflexivity. exfalso. exact (Hnv v eq_refl).
Qed.

(** FFmpeg on a decodable video of sensible shape. *)
Lemma ffmpeg_transcode_run w inp outp v :
  ffmpeg_installed w = true -> fs w !! inp = Some (VideoFile v) ->
  0 < v_width v -> 0 < v_height v ->
  v_width v <= 1280 * v_height v -> v_height v <= 1280 * v_width v ->
  subprocess_run (ffmpeg_command inp outp) w =
  (Ok (0, ""), map_fs (<[outp := VideoFile (transcode (scale_dims (v_width v) (v_height v)).1
                                                    (scale_dims (v_width v) (v_height v)).2 v)]>) w).
Proof.
  intros Hi Hf Hw Hh Hr1 Hr2. rewrite subprocess_ffmpeg_run, Hi, Hf.
  destruct (proj2 (scale_dims_positive _ _ Hw Hh) (conj Hr1 Hr2)) as [Hpw Hph].
  destruct (scale_dims _ _) as [ow oh]. simpl in *.
  apply Z.ltb_lt in Hpw, Hph. rewrite Hpw, Hph. reflexivity.
Qed.
(** Every frame of a transcoded video has the size of the video. *)
Lemma transcode_wf ow oh v : video_wf (transcode ow oh v) = true.
Proof.
  unfold video_wf, transcode. simpl. apply forallb_forall. intros f Hf.
  apply in_map_iff in Hf as (f0 & <- & _).
  destruct (sws_scale_dims ow oh f0) as [-> ->]. rewrite !Z.eqb_refl. reflexivity.
Qed.

End FfmpegLemmas.

Section FfmpegClaims.
Context `{Scaler}.

(** C24: an upload that does not decode as a video makes FFmpeg exit with
    status 1, and [check=True] turns that into [CalledProcessError]
    carrying FFmpeg's diagnostic; nothing is written. *)
Theorem transcode_rejects_non_video w inp outp f :
  ffmpeg_installed w = true -> fs w !! inp = Some f -> (forall v, f <> VideoFile v) ->
  subprocess_run (ffmpeg_command inp outp) w =
  (Exc (CalledProcessError 1 (ffmpeg_command inp outp)
          (inp ++ ": Invalid data found when processing input")), w).
Proof. exact (ffmpeg_reject_run w inp outp f). Qed.

(** C25: a decodable video of sensible shape is re-encoded into the output
    path at the size [scale_dims] gives, with the same frames (resampled)
    in the same order and the same frame rate. *)
Theorem transcode_ok w inp outp v :
  ffmpeg_installed w = true -> fs w !! inp = Some (VideoFile v) ->
  0 < v_width v -> 0 < v_height v ->
  v_width v <= 1280 * v_height v -> v_height v <= 1280 * v_width v ->
  subprocess_run (ffmpeg_command inp outp) w =
  (Ok (0, ""), map_fs (<[outp := VideoFile (transcode (scale_dims (v_width v) (v_height v)).1
                                                    (scale_dims (v_width v) (v_height v)).2 v)]>) w).
Proof. exact (ffmpeg_transcode_run w inp outp v). Qed.
End FfmpegClaims.

Lemma transcode_rejects_non_video_witness :
  let w := map_fs (<["/tmp/tmpa1b2c3d4.avi" := RawFile [Byte.x00]]>) sample_world in
  ffmpeg_installed w = true /\ fs w !! "/tmp/tmpa1b2c3d4.avi" = Some (RawFile [Byte.x00]) /\
  (forall v, RawFile [Byte.x00] <> VideoFile v) /\
  @subprocess_run scaler_relabel (ffmpeg_command "/tmp/tmpa1b2c3d4.avi" "/tmp/tmpe5f6g7h8.mp4") w =
  (Exc (CalledProcessError 1 (ffmpeg_command "/tmp/tmpa1b2c3d4.avi" "/tmp/tmpe5f6g7h8.mp4")
          ("/tmp/tmpa1b2c3d4.avi" ++ ": Invalid data found when processing input")), w).
Proof.
  intros w. split; [reflexivity|]. split; [reflexivity|]. split; [discriminate|].
  apply (@transcode_rejects_non_video scaler_relabel w _ _ (RawFile [Byte.x00]));
    [reflexivity | reflexivity | discriminate].
Defined.

Lemma transcode_ok_witness :
  let v := sample_video 1920 1080 3 in
  let w := map_fs (<["/tmp/in.mp4" := VideoFile v]>) sample_world in
  @subprocess_run scaler_relabel (ffmpeg_command "/tmp/in.mp4" "/tmp/out.mp4") w =
  (Ok (0, ""), map_fs (<["/tmp/out.mp4" := VideoFile (@transcode scaler_relabel 1280 720 v)]>) w).
Proof.
  intros v w.
  apply (@transcode_ok scaler_relabel w "/tmp/in.mp4" "/tmp/out.mp4" v);
    try reflexivity; vm_compute; congruence.
Defined.

Lemma scale_dims_even_long_side_witness :
  0 < 1080 /\ 0 < 1920 /\
  (scale_dims 1080 1920).1 mod 2 = 0 /\ (scale_dims 1080 1920).2 mod 2 = 0 /\
  Z.max (scale_dims 1080 1920).1 (scale_dims 1080 1920).2 = 1280 /\
  0 <= Z.min (scale_dims 1080 1920).1 (scale_dims 1080 1920).2.
Proof.
  split; [lia|]. split; [lia|].
  exact (scale_dims_even_long_side 1080 1920 ltac:(lia) ltac:(lia)).
Defined.

Lemma scale_dims_proportional_witness :
  0 < 641 /\ 0 < 480 /\
  Z.abs ((scale_dims 641 480).1 * 480 - (scale_dims 641 480).2 * 641) <= Z.max 641 480.
Proof.
  split; [lia|]. split; [lia|].
  exact (scale_dims_proportional 641 480 ltac:(lia) ltac:(lia)).
Defined.
