(* ===== verification/Detection.v ===== *)
(** * Detection: [process_video] of src/deploy.py (lines 13-43)

    [process_video] opens the normalised video with [cv2.VideoCapture],
    opens a [cv2.VideoWriter] with the capture's geometry and the [mp4v]
    tag, then loops [cap.read()] until it fails, running the YOLO model on
    each frame ([model(frame, imgsz=640, conf=0.5)]), drawing the first
    result ([results[0].plot()]) and writing it.  The capture and the writer
    are local objects, threaded explicitly; the writer's effect on disk is
    an update of the output file after every [write].  The model is the
    [Yolo] interface: raw inference and drawing are external (Ultralytics),
    the confidence filter is modelled from Ultralytics' documented
    [conf] semantics. *)

From S2P Require Import Prelude World.

(** ** The model interface *)

Record box := mkBox { box_xyxy : Z * Z * Z * Z; box_cls : nat; box_conf : Q }.

(** An Ultralytics [Results] object: the frame it was computed on and the
    boxes kept. *)
Record results := mkResults { res_orig : frame; res_boxes : list box }.

Class Yolo := {
  (** the network and non-maximum suppression on one image, at [imgsz];
      may raise (e.g. a torch runtime error) *)
  yolo_infer : Z -> Z -> frame -> result exn (list box);
  (** [Results.plot()]: the frame with the boxes and labels drawn on it *)
  plot_boxes : frame -> list box -> frame;
  plot_boxes_dims : forall f bs,
    frame_w (plot_boxes f bs) = frame_w f /\ frame_h (plot_boxes f bs) = frame_h f
}.

Definition IMG_SIZE : Z := 640.
Definition CONF_THRESHOLD : Q := 1 # 2.

(** ** Captures and writers *)

Record capture := mkCapture {
  cap_opened : bool; cap_width : Z; cap_height : Z; cap_fps : Q; cap_pending : list frame }.

Record writer := mkWriter {
  wr_opened : bool; wr_path : string; wr_fourcc : string; wr_fps : Q;
  wr_w : Z; wr_h : Z; wr_frames : list frame }.

Definition writer_video (o : writer) : video :=
  mkVideo (wr_w o) (wr_h o) (wr_fps o) (wr_fourcc o) (wr_frames o).

(** [cv2.VideoWriter_fourcc] applied to the characters of mp4v *)
Definition fourcc_mp4v : string := "mp4v".

(** [out.write(frame)] appends a frame of the writer's size; OpenCV's
    FFmpeg backend drops frames of another size. *)
Definition frame_fits (o : writer) (f : frame) : bool :=
  (frame_w f =? wr_w o) && (frame_h f =? wr_h o).

Definition writer_push (o : writer) (f : frame) : writer :=
  if frame_fits o f
  then mkWriter (wr_opened o) (wr_path o) (wr_fourcc o) (wr_fps o) (wr_w o) (wr_h o)
                (wr_frames o ++ [f])%list
  else o.

Definition cap_read (c : capture) : option frame * capture :=
  match cap_pending c with
  | f :: rest => (Some f, mkCapture (cap_opened c) (cap_width c) (cap_height c) (cap_fps c) rest)
  | [] => (None, c)
  end.

Module Cv2.
(** [cv2.VideoCapture(path)]: opened when the file decodes as a video;
    a closed capture reports 0 for its properties. *)
Definition VideoCapture (p : string) : M capture :=
  gets (fun w => match fs w !! p with
                 | Some (VideoFile v) =>
                     mkCapture true (v_width v) (v_height v) (v_fps v) (v_frames v)
                 | _ => mkCapture false 0 0 0 []
                 end).

(** [cv2.VideoWriter(path, fourcc, fps, (width, height))]: on success the
    container header is written at once. *)
Definition VideoWriter (p fourcc : string) (fps : Q) (width height : Z) : M writer :=
  w <- get ;;
  if writer_available w && (0 <? width) && (0 <? height) then
    let o := mkWriter true p fourcc fps width height [] in
    Os.write_file p (PartialVideo (writer_video o)) ;; ret o
  else ret (mkWriter false p fourcc fps width height []).

Definition write (o : writer) (f : frame) : M writer :=
  let o' := writer_push o f in
  (if frame_fits o f then Os.write_file (wr_path o) (PartialVideo (writer_video o'))
   else ret tt) ;;
  ret o'.

(** [out.release()]: the index is written and the file becomes a
    playable container. *)
Definition release (o : writer) : M unit :=
  when (wr_opened o) (Os.write_file (wr_path o) (VideoFile (writer_video o))).
End Cv2.

Section Process.
Context `{Yolo}.

(** [model(frame, imgsz=..., conf=...)]: one [Results] per image, keeping
    the boxes whose confidence exceeds [conf]. *)
Definition predict (m : yolo_handle) (f : frame) (imgsz : Z) (conf : Q)
  : M (list results) :=
  match yolo_infer (model_weights m) imgsz f with
  | Ok bs => ret [mkResults f (filter (fun b => negb (Qle_bool (box_conf b) conf)) bs)]
  | Exc e => raise e
  end.

Definition plot (r : results) : frame := plot_boxes (res_orig r) (res_boxes r).

(** [l[i]] on a Python list. *)
Definition py_index {A} (l : list A) (i : nat) : M A :=
  match l !! i with
  | Some x => ret x
  | None => raise (IndexError "list index out of range")
  end.

(** Lines 33-40: [while True] with [fuel] iterations; [None] when the
    fuel runs out before [cap.read()] fails. *)
Fixpoint detect_loop (fuel : nat) (model : yolo_handle) (cap : capture) (out : writer)
  : M (option (capture * writer)) :=
  match fuel with
  | O => ret None
  | S fuel' =>
      let '(fr, cap') := cap_read cap in
      match fr with
      | None => ret (Some (cap', out))
      | Some frm =>
          res <- predict model frm IMG_SIZE CONF_THRESHOLD ;;
          r0 <- py_index res 0 ;;
          let rendered_frame := plot r0 in
          out' <- Cv2.write out rendered_frame ;;
          detect_loop fuel' model cap' out'
      end
  end.

(** Lines 13-43.  The loop runs at most once per frame of the capture
    plus the final failing read, which is the fuel given. *)
Definition process_video (input_path output_path : string) (model : yolo_handle) : M unit :=
  cap <- Cv2.VideoCapture input_path ;;
  if negb (cap_opened cap) then
    St.error ("Error: Could not open pre-processed video file at " ++ input_path)
  else
    let width := cap_width cap in
    let height := cap_height cap in
    let fps := cap_fps cap in
    out <- Cv2.VideoWriter output_path fourcc_mp4v fps width height ;;
    if negb (wr_opened out) then
      St.error "Error: Could not open video writer."
    else
      r <- detect_loop (S (length (cap_pending cap))) model cap out ;;
      match r with
      | Some (_, out') => Cv2.release out'
      | None => raise (RuntimeError "frame loop did not terminate")
      end.

(** ** Reference behaviour of the frame loop

    One frame through the model and the drawing, as a value. *)
Definition detect_frame (m : yolo_handle) (f : frame) : result exn frame :=
  match yolo_infer (model_weights m) IMG_SIZE f with
  | Ok bs => Ok (plot_boxes f (filter (fun b => negb (Qle_bool (box_conf b) CONF_THRESHOLD)) bs))
  | Exc e => Exc e
  end.

(** The annotated frames, in order, up to the first failing inference,
    and that failure if there is one. *)
Fixpoint render_frames (m : yolo_handle) (frames : list frame) : list frame * option exn :=
  match frames with
  | [] => ([], None)
  | f :: rest =>
      match detect_frame m f with
      | Ok g => let '(gs, err) := render_frames m rest in (g :: gs, err)
      | Exc e => ([], Some e)
      end
  end.
End Process.

(** A detector for concrete runs: two boxes per frame, one above and one
    below the threshold; drawing appends the kept classes to the samples. *)
Definition yolo_two_boxes : Yolo :=
  {| yolo_infer wt imgsz f := Ok [mkBox (0, 0, 10, 10) 1 (3 # 4); mkBox (5, 5, 20, 20) 2 (1 # 4)];
     plot_boxes f bs := mkFrame (frame_w f) (frame_h f)
                                (frame_pixels f ++ map (fun b => Z.of_nat (box_cls b)) bs)%list;
     plot_boxes_dims f bs := conj eq_refl eq_refl |}.

(** ** Lemmas *)

Lemma map_fs_id (f : gmap string file -> gmap string file) w :
  f (fs w) = fs w -> map_fs f w = w.
Proof. destruct w; unfold map_fs; simpl. intros ->. reflexivity. Qed.

Lemma writer_push_path o f : wr_path (writer_push o f) = wr_path o.
Proof. unfold writer_push. destruct (frame_fits o f); reflexivity. Qed.

Lemma cv2_write_run o g w :
  Cv2.write o g w =
  (Ok (writer_push o g),
   if frame_fits o g then map_fs (<[wr_path o := PartialVideo (writer_video (writer_push o g))]>) w
   else w).
Proof. unfold Cv2.write, bind, ret. destruct (frame_fits o g); reflexivity. Qed.

(** After a [write], the file on disk is the writer's video. *)
Lemma cv2_write_synced o g w :
  fs w !! wr_path o = Some (PartialVideo (writer_video o)) ->
  fs (Cv2.write o g w).2 !! wr_path o = Some (PartialVideo (writer_video (writer_push o g))).
Proof.
  intros Hs. rewrite cv2_write_run. simpl.
  destruct (frame_fits o g) eqn:E; simpl;
    [apply lookup_insert_eq | unfold writer_push; rewrite E; exact Hs].
Qed.

Section Loop.
Context `{Yolo}.

Lemma predict_index_run m f w :
  bind (predict m f IMG_SIZE CONF_THRESHOLD) (fun res => py_index res 0) w =
  match detect_frame m f with
  | Ok g => (Ok (mkResults f (filter (fun b => negb (Qle_bool (box_conf b) CONF_THRESHOLD))
                     (match yolo_infer (model_weights m) IMG_SIZE f with Ok bs => bs | Exc _ => [] end))), w)
  | Exc e => (Exc e, w)
  end.
Proof.
  unfold predict, detect_frame, py_index, bind, ret, raise.
  destruct (yolo_infer _ _ _); reflexivity.
Qed.
End Loop.

Lemma cv2_videowriter_run p fourcc fps wd ht w :
  Cv2.VideoWriter p fourcc fps wd ht w =
  if writer_available w && (0 <? wd) && (0 <? ht)
  then (Ok (mkWriter true p fourcc fps wd ht []),
        map_fs (<[p := PartialVideo (writer_video (mkWriter true p fourcc fps wd ht []))]>) w)
  else (Ok (mkWriter false p fourcc fps wd ht []), w).
Proof.
  unfold Cv2.VideoWriter, bind, get, ret, Os.write_file, modify.
  destruct (writer_available w && _ && _); reflexivity.
Qed.

Section LoopSpec.
Context `{Yolo}.

(** The frame loop against the reference behaviour. *)
Lemma detect_loop_run fuel m cap out w :
  (length (cap_pending cap) < fuel)%nat ->
  fs w !! wr_path out = Some (PartialVideo (writer_video out)) ->
  detect_loop fuel m cap out w =
  (match (render_frames m (cap_pending cap)).2 with
   | None => Ok (Some (mkCapture (cap_opened cap) (cap_width cap) (cap_height cap)
                                 (cap_fps cap) [],
                       fold_left writer_push (render_frames m (cap_pending cap)).1 out))
   | Some e => Exc e
   end,
   map_fs (<[wr_path out := PartialVideo (writer_video
               (fold_left writer_push (render_frames m (cap_pending cap)).1 out))]>) w).
Proof.
  destruct cap as [op cw ch cf pend]. simpl.
  revert fuel out w. induction pend as [|f rest IH]; intros fuel out w Hfuel Hsync;
    (destruct fuel as [|fuel]; [simpl in Hfuel; lia|]); simpl.
  - unfold ret. f_equal. symmetry. apply map_fs_id. apply insert_id. exact Hsync.
  - unfold predict, detect_frame, py_index.
    destruct (yolo_infer (model_weights m) IMG_SIZE f) as [bs|e]; simpl.
    + cbv [bind ret]. cbn [lookup list_lookup].
      pose proof (cv2_write_synced out (plot (mkResults f
        (filter (fun b => negb (Qle_bool (box_conf b) CONF_THRESHOLD)) bs))) w Hsync) as Hs'.
      rewrite cv2_write_run in *. simpl in Hs'.
      rewrite IH by (simpl in Hfuel; lia || (rewrite writer_push_path; exact Hs')).
      rewrite writer_push_path. unfold plot. simpl.
      destruct (render_frames m rest) as [gs err]. simpl. f_equal.
      destruct (frame_fits _ _); [|reflexivity].
      unfold map_fs; simpl. rewrite insert_insert_eq. reflexivity.
    + unfold raise. f_equal. symmetry. apply map_fs_id. apply insert_id. exact Hsync.
Qed.

(** C12: the frame loop, run with more iterations than the capture has
    frames, computes the reference [render_frames]: it writes the
    annotated frames in order up to the first failing inference, then
    either drains the capture or propagates that failure.  (The loop
    never runs out of fuel: its result is not [None].) *)
Theorem detect_loop_spec fuel m cap out w :
  (length (cap_pending cap) < fuel)%nat ->
  fs w !! wr_path out = Some (PartialVideo (writer_video out)) ->
  detect_loop fuel m cap out w =
  (match (render_frames m (cap_pending cap)).2 with
   | None => Ok (Some (mkCapture (cap_opened cap) (cap_width cap) (cap_height cap)
                                 (cap_fps cap) [],
                       fold_left writer_push (render_frames m (cap_pending cap)).1 out))
   | Some e => Exc e
   end,
   map_fs (<[wr_path out := PartialVideo (writer_video
               (fold_left writer_push (render_frames m (cap_pending cap)).1 out))]>) w).
Proof. intros Hfuel Hsync. exact (detect_loop_run fuel m cap out w Hfuel Hsync). Qed.
End LoopSpec.

Lemma fold_writer_push_fit (gs : list frame) o :
  (forall g, g ∈ gs -> frame_fits o g = true) ->
  fold_left writer_push gs o =
  mkWriter (wr_opened o) (wr_path o) (wr_fourcc o) (wr_fps o) (wr_w o) (wr_h o)
           (wr_frames o ++ gs)%list.
Proof.
  revert o. induction gs as [|g gs IH]; intros o Hfit; simpl.
  - rewrite app_nil_r. destruct o; reflexivity.
  - unfold writer_push at 2. rewrite (Hfit g) by (left; reflexivity).
    rewrite IH; simpl.
    + rewrite <- app_assoc. reflexivity.
    + intros g' Hg'. unfold frame_fits in *. simpl. apply Hfit. right. exact Hg'.
Qed.

Section ProcessSpec.
Context `{Yolo}.

Lemma render_frames_ok_length m l gs :
  render_frames m l = (gs, None) -> length gs = length l.
Proof.
  revert gs. induction l as [|f l IH]; intros gs; simpl; [intros [= <-]; reflexivity|].
  destruct (detect_frame m f); [|discriminate].
  destruct (render_frames m l) as [gs' err] eqn:E. intros [= <- ->]. simpl.
  f_equal. apply IH. reflexivity.
Qed.

(** Drawing keeps the size: every rendered frame has the size of a frame
    it was drawn on. *)
Lemma render_frames_dims m l gs err :
  render_frames m l = (gs, err) ->
  forall g, g ∈ gs -> exists f, f ∈ l /\ frame_w g = frame_w f /\ frame_h g = frame_h f.
Proof.
  revert gs err. induction l as [|f l IH]; intros gs err; simpl.
  - intros [= <- _] g Hg. inversion Hg.
  - unfold detect_frame. destruct (yolo_infer _ _ _) as [bs|e];
      [|intros [= <- _] g Hg; inversion Hg].
    destruct (render_frames m l) as [gs' err'] eqn:E. intros [= <- _] g Hg.
    apply elem_of_cons in Hg as [->|Hg].
    + exists f. split; [left; reflexivity|]. apply plot_boxes_dims.
    + destruct (IH gs' err' eq_refl g Hg) as (f' & Hf' & Hd). exists f'. split; [right|]; assumption.
Qed.
(** Frames drawn from a well-formed video fit a writer of its size. *)
Lemma rendered_frames_fit m v gs err o :
  video_wf v = true -> render_frames m (v_frames v) = (gs, err) ->
  wr_w o = v_width v -> wr_h o = v_height v ->
  forall g, g ∈ gs -> frame_fits o g = true.
Proof.
  intros Hwf Hr Hw Hh g Hg.
  destruct (render_frames_dims m _ _ _ Hr g Hg) as (f & Hf & Hgw & Hgh).
  unfold video_wf in Hwf. rewrite forallb_forall in Hwf.
  apply list_elem_of_In, Hwf in Hf. apply andb_true_iff in Hf as [Hfw Hfh].
  apply Z.eqb_eq in Hfw, Hfh. unfold frame_fits.
  rewrite Hgw, Hgh, Hfw, Hfh, Hw, Hh, !Z.eqb_refl. reflexivity.
Qed.
End ProcessSpec.

Section ProcessClaims.
Context `{Yolo}.

(** C30: when the normalised file does not decode, [process_video] shows
    an error and returns normally: it raises nothing and writes nothing. *)
Theorem process_video_open_fails inp outp m w :
  (forall v, fs w !! inp <> Some (VideoFile v)) ->
  process_video inp outp m w =
  St.error ("Error: Could not open pre-processed video file at " ++ inp) w.
Proof.
  intros Hnv. unfold process_video, Cv2.VideoCapture, bind, gets.
  destruct (fs w !! inp) as [[d|v|v|wt]|]; try reflexivity.
  exfalso. exact (Hnv v eq_refl).
Qed.

Lemma process_video_writer_fails inp outp m w v :
  fs w !! inp = Some (VideoFile v) -> writer_available w = false ->
  process_video inp outp m w = St.error "Error: Could not open video writer." w.
Proof.
  intros Hin Hwa. cbv [process_video Cv2.VideoCapture Cv2.VideoWriter bind gets get ret].
  rewrite Hin. simpl. rewrite Hwa. reflexivity.
Qed.

(** The run of [process_video] on a decodable video when every step succeeds. *)
Lemma process_video_run inp outp m w v gs :
  fs w !! inp = Some (VideoFile v) -> writer_available w = true ->
  0 < v_width v -> 0 < v_height v -> video_wf v = true ->
  render_frames m (v_frames v) = (gs, None) ->
  process_video inp outp m w =
  (Ok tt, map_fs (<[outp := VideoFile (mkVideo (v_width v) (v_height v) (v_fps v)
                                               fourcc_mp4v gs)]>) w) /\
  length gs = length (v_frames v).
Proof.
  intros Hin Hwa Hw Hh Hwf Hr. split; [|exact (render_frames_ok_length m _ _ Hr)].
  cbv [process_video Cv2.VideoCapture Cv2.VideoWriter bind gets get ret Os.write_file modify].
  rewrite Hin. cbn [negb cap_opened cap_width cap_height cap_fps cap_pending].
  rewrite Hwa. apply Z.ltb_lt in Hw, Hh. rewrite Hw, Hh. cbn [andb negb wr_opened].
  rewrite detect_loop_run by (simpl; [lia || apply lookup_insert_eq]).
  cbn [cap_pending wr_path]. rewrite Hr. cbn [fst snd].
  rewrite fold_writer_push_fit by (eapply rendered_frames_fit; eauto).
  cbv [Cv2.release when Os.write_file modify writer_video map_fs]. simpl.
  rewrite !insert_insert_eq. reflexivity.
Qed.

(** C11: on a well-formed decodable video, with a writer available and
    every inference succeeding, the output file is a finished mp4v
    container with the input's size and rate whose frames are the
    annotated input frames, one per input frame, in order. *)
Theorem process_video_ok inp outp m w v gs :
  fs w !! inp = Some (VideoFile v) -> writer_available w = true ->
  0 < v_width v -> 0 < v_height v -> video_wf v = true ->
  render_frames m (v_frames v) = (gs, None) ->
  process_video inp outp m w =
  (Ok tt, map_fs (<[outp := VideoFile (mkVideo (v_width v) (v_height v) (v_fps v)
                                               fourcc_mp4v gs)]>) w) /\
  length gs = length (v_frames v).
Proof. exact (process_video_run inp outp m w v gs). Qed.
End ProcessClaims.

Section ProcessWrites.
Context `{Yolo}.

Lemma detect_loop_writes fuel m cap out :
  writes_within (eq (wr_path out)) (detect_loop fuel m cap out).
Proof.
  intros w0. revert cap out. induction fuel as [|fuel IH]; intros cap out; simpl;
    [solve_preserves|].
  destruct (cap_read cap) as [[frm|] cap']; [|solve_preserves].
  apply preserves_bind; [unfold predict; solve_preserves | intros res].
  apply preserves_bind; [unfold py_index; solve_preserves | intros r0].
  intros w Hw. unfold bind at 1. rewrite cv2_write_run.
  rewrite <- (writer_push_path out (plot r0)). apply IH.
  rewrite writer_push_path. destruct (frame_fits out (plot r0)); [|exact Hw].
  apply fs_effect_insert; [reflexivity | exact Hw].
Qed.

Lemma detect_loop_path fuel m cap out w c o w' :
  detect_loop fuel m cap out w = (Ok (Some (c, o)), w') -> wr_path o = wr_path out.
Proof.
  revert cap out w. induction fuel as [|fuel IH]; intros cap out w; simpl; [discriminate|].
  destruct (cap_read cap) as [[frm|] cap']; [|intros [= _ <- _]; reflexivity].
  unfold predict, py_index, bind at 1.
  destruct (yolo_infer _ _ _) as [bs|e]; [|discriminate]. cbv [bind ret]. cbn [lookup list_lookup].
  rewrite cv2_write_run. intros E. apply IH in E. rewrite E. apply writer_push_path.
Qed.

(** [process_video] writes no file but its output path. *)
Lemma process_video_writes inp outp m :
  writes_within (eq outp) (process_video inp outp m).
Proof.
  intros w0. unfold process_video, Cv2.VideoCapture.
  apply preserves_bind; [solve_preserves | intros cap].
  destruct (negb (cap_opened cap)); [solve_preserves|].
  intros w Hw. unfold bind at 1. rewrite cv2_videowriter_run.
  destruct (writer_available w && _ && _); cbn [negb wr_opened snd];
    [|apply emit_fs_effect; exact Hw].
  assert (Hw' : fs_effect (eq outp) w0 (map_fs (<[outp := PartialVideo
             (writer_video (mkWriter true outp fourcc_mp4v (cap_fps cap) (cap_width cap)
                                     (cap_height cap) []))]>) w))
    by (apply fs_effect_insert; [reflexivity | exact Hw]).
  pose proof (detect_loop_writes (S (length (cap_pending cap))) m cap
                (mkWriter true outp fourcc_mp4v (cap_fps cap) (cap_width cap)
                          (cap_height cap) []) w0 _ Hw') as Hl.
  unfold bind. destruct (detect_loop _ _ _ _ _) as [[[[c o]|]|e] w''] eqn:E; try exact Hl.
  apply detect_loop_path in E. unfold Cv2.release, when.
  destruct (wr_opened o); [|exact Hl].
  apply fs_effect_insert; [simpl in E; congruence | exact Hl].
Qed.
End ProcessWrites.

Section Termination.
Context `{Yolo}.

(** C23: the frame loop terminates: given more iterations than the capture
    has frames it never runs out of fuel, whatever the model does; the
    fuel [S (length frames)] of [process_video] is therefore enough. *)
Theorem detect_loop_terminates fuel m cap out w :
  (length (cap_pending cap) < fuel)%nat -> (detect_loop fuel m cap out w).1 <> Ok None.
Proof.
  revert cap out w. induction fuel as [|fuel IH]; intros cap out w Hf; [lia|].
  simpl. unfold cap_read. destruct (cap_pending cap) as [|frm rest] eqn:Hp; [discriminate|].
  cbv beta iota. unfold predict, py_index, bind at 1. destruct (yolo_infer _ _ _) as [bs|e]; [|discriminate].
  cbv [bind ret]. cbn [lookup list_lookup]. rewrite cv2_write_run.
  apply IH. simpl in *. lia.
Qed.
End Termination.

(** ** Witnesses on a concrete run: two 1280x720 frames, the two-box detector *)

Lemma detect_loop_spec_witness :
  let v := sample_video 1280 720 2 in
  let out := mkWriter true "/tmp/out.mp4" fourcc_mp4v 30 1280 720 [] in
  let w := map_fs (<["/tmp/out.mp4" := PartialVideo (writer_video out)]>) sample_world in
  let cap := mkCapture true 1280 720 30 (v_frames v) in
  (length (cap_pending cap) < 3)%nat /\
  fs w !! wr_path out = Some (PartialVideo (writer_video out)) /\
  @detect_loop yolo_two_boxes 3 (YOLO_ "best.pt" 7) cap out w =
  (match (@render_frames yolo_two_boxes (YOLO_ "best.pt" 7) (cap_pending cap)).2 with
   | None => Ok (Some (mkCapture true 1280 720 30 [],
                       fold_left writer_push
                         (@render_frames yolo_two_boxes (YOLO_ "best.pt" 7) (cap_pending cap)).1 out))
   | Some e => Exc e
   end,
   map_fs (<[wr_path out := PartialVideo (writer_video
               (fold_left writer_push
                  (@render_frames yolo_two_boxes (YOLO_ "best.pt" 7) (cap_pending cap)).1 out))]>) w).
Proof.
  intros v out w cap. split; [simpl; lia|]. split; [reflexivity|].
  apply (@detect_loop_spec yolo_two_boxes 3 (YOLO_ "best.pt" 7) cap out w);
    [simpl; lia | reflexivity].
Defined.

Lemma process_video_ok_witness :
  let v := sample_video 1280 720 2 in
  let w := map_fs (<["/tmp/in.mp4" := VideoFile v]>) sample_world in
  let gs := (@render_frames yolo_two_boxes (YOLO_ "best.pt" 7) (v_frames v)).1 in
  @render_frames yolo_two_boxes (YOLO_ "best.pt" 7) (v_frames v) = (gs, None) /\
  @process_video yolo_two_boxes "/tmp/in.mp4" "/tmp/out.mp4" (YOLO_ "best.pt" 7) w =
  (Ok tt, map_fs (<["/tmp/out.mp4" := VideoFile (mkVideo 1280 720 30 fourcc_mp4v gs)]>) w) /\
  length gs = length (v_frames v).
Proof.
  intros v w gs. split; [reflexivity|].
  apply (@process_video_ok yolo_two_boxes "/tmp/in.mp4" "/tmp/out.mp4" (YOLO_ "best.pt" 7) w v gs);
    reflexivity.
Defined.

Lemma process_video_open_fails_witness :
  let w := map_fs (<["/tmp/in.mp4" := RawFile []]>) sample_world in
  (forall v, fs w !! "/tmp/in.mp4" <> Some (VideoFile v)) /\
  @process_video yolo_two_boxes "/tmp/in.mp4" "/tmp/out.mp4" (YOLO_ "best.pt" 7) w =
  St.error ("Error: Could not open pre-processed video file at " ++ "/tmp/in.mp4") w.
Proof.
  intros w. assert (H : forall v, fs w !! "/tmp/in.mp4" <> Some (VideoFile v))
    by (intros v; vm_compute; discriminate).
  split; [exact H|]. exact (@process_video_open_fails yolo_two_boxes _ _ _ w H).
Defined.

Lemma detect_loop_terminates_witness :
  let cap := mkCapture true 1280 720 30 (v_frames (sample_video 1280 720 2)) in
  let out := mkWriter true "/tmp/out.mp4" fourcc_mp4v 30 1280 720 [] in
  (length (cap_pending cap) < 3)%nat /\
  (@detect_loop yolo_two_boxes 3 (YOLO_ "best.pt" 7) cap out sample_world).1 <> Ok None.
Proof.
  intros cap out. split; [simpl; lia|].
  apply (@detect_loop_terminates yolo_two_boxes 3 (YOLO_ "best.pt" 7) cap out sample_world).
  simpl; lia.
Defined.
