(* ===== verification/ModelLoader.v ===== *)
(** * ModelLoader: [load_model] of src/deploy.py (lines 8-11)

    [load_model(model_path)] constructs [YOLO(model_path)]; the decorator
    [@st.cache_resource] keeps the result per argument for the life of the
    server process (shared by every session), and does not keep a failed
    call.  The cache is the [cache] field of the world. *)

From S2P Require Import Prelude World.

(** [YOLO(model_path)] (Ultralytics): loads a weights file. *)
Definition YOLO (model_path : string) : M yolo_handle :=
  w <- get ;;
  match fs w !! model_path with
  | Some (WeightsFile wt) => ret (YOLO_ model_path wt)
  | Some _ => raise (RuntimeError ("Error loading " ++ model_path))
  | None => raise (FileNotFoundError model_path)
  end.

(** [@st.cache_resource] applied to a one-argument function: a hit returns
    the kept object itself; a miss runs the function and keeps its result
    only when it returns. *)
Definition cache_resource (f : string -> M yolo_handle) (arg : string) : M yolo_handle :=
  w <- get ;;
  match cache w !! arg with
  | Some h => ret h
  | None => h <- f arg ;; modify (map_cache (<[arg := h]>)) ;; ret h
  end.

Definition load_model (model_path : string) : M yolo_handle :=
  cache_resource YOLO model_path.

(** The cache holds, for each path, a model loaded from that path. *)
Definition cache_wf (w : world) : Prop :=
  forall p h, cache w !! p = Some h -> model_file h = p.

(** ** Lemmas *)

Lemma YOLO_run p w :
  YOLO p w =
  match fs w !! p with
  | Some (WeightsFile wt) => (Ok (YOLO_ p wt), w)
  | Some _ => (Exc (RuntimeError ("Error loading " ++ p)), w)
  | None => (Exc (FileNotFoundError p), w)
  end.
Proof. unfold YOLO, bind, get. destruct (fs w !! p) as [[]|]; reflexivity. Qed.

Lemma cache_hit_run p h w :
  cache w !! p = Some h -> load_model p w = (Ok h, w).
Proof. intros Hc. unfold load_model, cache_resource, bind, get. rewrite Hc. reflexivity. Qed.

Lemma cache_miss_run p w :
  cache w !! p = None ->
  load_model p w =
  match fs w !! p with
  | Some (WeightsFile wt) => (Ok (YOLO_ p wt), map_cache (<[p := YOLO_ p wt]>) w)
  | Some _ => (Exc (RuntimeError ("Error loading " ++ p)), w)
  | None => (Exc (FileNotFoundError p), w)
  end.
Proof.
  intros Hc. unfold load_model, cache_resource, bind at 1, get. rewrite Hc.
  unfold bind. rewrite YOLO_run. destruct (fs w !! p) as [[]|]; reflexivity.
Qed.


(** A handle [load_model] returned is the entry the cache keeps for its path. *)
Lemma load_model_keeps p w h w' : load_model p w = (Ok h, w') -> cache w' !! p = Some h.
Proof.
  intros E. destruct (cache w !! p) as [h0|] eqn:Hc.
  - rewrite (cache_hit_run p h0 w Hc) in E. inv_run. exact Hc.
  - rewrite (cache_miss_run p w Hc) in E.
    destruct (fs w !! p) as [[]|]; inv_run. apply lookup_insert_eq.
Qed.

(** C31: the handle of a path is a singleton: once [load_model] returned a
    handle, the cache keeps it, and every later call with that path, in
    any world whose cache still holds that entry (whatever became of the
    weights file, the page or the rest of the cache), returns the same
    handle without loading again and leaves the world as it is. *)
Theorem load_model_singleton p w h w' :
  load_model p w = (Ok h, w') ->
  cache w' !! p = Some h /\
  forall w'', cache w'' !! p = cache w' !! p -> load_model p w'' = (Ok h, w'').
Proof.
  intros E. pose proof (load_model_keeps p w h w' E) as Hk. split; [exact Hk|].
  intros w'' Hc. apply cache_hit_run. congruence.
Qed.

(** [load_model] keeps the cache well formed. *)
Lemma load_model_cache_wf p : preserves cache_wf (load_model p).
Proof.
  intros w Hwf. destruct (cache w !! p) as [h0|] eqn:Hc.
  - rewrite (cache_hit_run p h0 w Hc). exact Hwf.
  - rewrite (cache_miss_run p w Hc).
    destruct (fs w !! p) as [[]|]; simpl; try exact Hwf.
    intros q h. simpl. rewrite lookup_insert.
    case_decide as Hq; [intros [= <-]; exact Hq | apply Hwf].
Qed.

(** A file that is not a weights file fails to load, and nothing is kept. *)
Lemma load_model_bad_run p f w :
  fs w !! p = Some f -> (forall wt, f <> WeightsFile wt) -> cache w !! p = None ->
  load_model p w = (Exc (RuntimeError ("Error loading " ++ p)), w).
Proof.
  intros Hf Hnw Hc. rewrite (cache_miss_run p w Hc), Hf.
  destruct f as [d|v|v|wt]; try reflexivity. exfalso. exact (Hnw wt eq_refl).
Qed.

(** Loading a model reads the file system and writes nothing. *)
Lemma load_model_writes out p : writes_within out (load_model p).
Proof. intros w0. unfold load_model, cache_resource, YOLO. solve_preserves. Qed.

(** ** Witnesses: a process whose cache is empty, then warm *)

Lemma load_model_singleton_witness :
  let w := map_fs (<["best.pt" := WeightsFile 7]>) sample_world in
  let w' := map_cache (<["best.pt" := YOLO_ "best.pt" 7]>) w in
  let w'' := map_fs (delete "best.pt") w' in
  load_model "best.pt" w = (Ok (YOLO_ "best.pt" 7), w') /\
  cache w' !! "best.pt" = Some (YOLO_ "best.pt" 7) /\ load_model "best.pt" w'' = (Ok (YOLO_ "best.pt" 7), w'').
Proof.
  intros w w' w''. assert (E : load_model "best.pt" w = (Ok (YOLO_ "best.pt" 7), w')) by reflexivity.
  destruct (load_model_singleton "best.pt" w _ _ E) as [Hk Hl].
  split; [exact E|]. split; [exact Hk|]. apply Hl. reflexivity.
Defined.
