(* ===== verification/Orchestrator.v ===== *)
(** * Orchestrator: [main] of src/deploy.py (lines 45-125)

    [main] draws the page, checks that [best.pt] exists, loads the model
    through the cache, shows the uploader and, for an upload, runs the
    block of lines 64-125: three temporary files (upload, normalised,
    output), FFmpeg, [process_video], presentation of the result, two
    exception handlers and a [finally] that removes the temporary files.
    The block's local variables [input_video_path], [downscaled_video_path]
    and [output_video_path] are part of the state ([locals]) because the
    [finally] clause reads whatever they hold when it runs. *)

From S2P Require Import Prelude World Transcoder Detection ModelLoader.

Record locals := mkLocals {
  input_video_path : option string;
  downscaled_video_path : option string;
  output_video_path : option string }.

Abbreviation MS := (PyM (world * locals) exn).

(** A library call inside the block: it acts on the world only. *)
Definition lift {A} (c : M A) : MS A :=
  fun s => let '(r, w') := c (fst s) in (r, (w', snd s)).

Definition assign_input (p : string) : MS unit :=
  modify (fun s => (fst s, mkLocals (Some p) (downscaled_video_path (snd s))
                                     (output_video_path (snd s)))).
Definition assign_downscaled (p : string) : MS unit :=
  modify (fun s => (fst s, mkLocals (input_video_path (snd s)) (Some p)
                                     (output_video_path (snd s)))).
Definition assign_output (p : string) : MS unit :=
  modify (fun s => (fst s, mkLocals (input_video_path (snd s))
                                     (downscaled_video_path (snd s)) (Some p))).

(** [if path and os.path.exists(path): os.remove(path)] (lines 120-125);
    [None] and the empty string are false. *)
Definition remove_if_exists (path : option string) : MS unit :=
  match path with
  | Some p =>
      if bool_decide (p = "") then ret tt
      else ex <- lift (Os.path_exists p) ;; when ex (lift (Os.remove p))
  | None => ret tt
  end.

(** Lines 118-125. *)
Definition cleanup : MS unit :=
  l <- gets snd ;; remove_if_exists (input_video_path l) ;;
  l <- gets snd ;; remove_if_exists (downscaled_video_path l) ;;
  l <- gets snd ;; remove_if_exists (output_video_path l).

Section Session.
Context `{Scaler} `{Yolo}.

(** Lines 98-109: present the output if it exists and is not empty. *)
Definition present (output_path : string) : M unit :=
  ex <- Os.path_exists output_path ;;
  ok <- (if ex then sz <- Os.getsize output_path ;; ret (0 <? sz)%nat else ret false) ;;
  if ok then
    video_bytes <- Os.read_file output_path ;;
    St.video video_bytes ;;
    St.download_button "Download Processed Video" video_bytes
                       "video_with_detections.mp4" "video/mp4"
  else St.error "Processing failed to produce a video file.".

(** Lines 69-109: the [try] body. *)
Definition upload_body (model : yolo_handle) (uploaded_video : uploaded_file) : MS unit :=
  tfile_in <- lift (Tempfile.named_temporary_file (Os.splitext (up_name uploaded_video)).2) ;;
  assign_input tfile_in ;;
  lift (Os.write_file tfile_in (up_data uploaded_video)) ;;
  lift (St.info "Standardizing video with FFmpeg...") ;;
  tfile_downscaled <- lift (Tempfile.named_temporary_file ".mp4") ;;
  assign_downscaled tfile_downscaled ;;
  _ <- lift (subprocess_run (ffmpeg_command tfile_in tfile_downscaled)) ;;
  lift (St.info "Processing the standardized video for object detection...") ;;
  tfile_out <- lift (Tempfile.named_temporary_file ".mp4") ;;
  assign_output tfile_out ;;
  lift (process_video tfile_downscaled tfile_out model) ;;
  lift (present tfile_out).

(** Lines 111-116: [CalledProcessError] first, then any [Exception];
    a [BaseException] such as Streamlit's stop request propagates. *)
Definition report_error (e : exn) : M unit :=
  match e with
  | CalledProcessError _ _ stderr =>
      St.error "FFmpeg failed to process the video. This can happen with certain video formats." ;;
      St.error ("FFmpeg Error Details: " ++ stderr)
  | _ =>
      if is_exception e
      then St.error ("An unexpected error occurred: " ++ exn_str e)
      else raise e
  end.

Definition upload_handler (e : exn) : MS unit := lift (report_error e).

(** Lines 64-125, from the locals of lines 65-67. *)
Definition handle_upload (model : yolo_handle) (uploaded_video : uploaded_file) : M unit :=
  fun w =>
    let '(r, (w', _)) :=
      try_finally (try_except (upload_body model uploaded_video) upload_handler) cleanup
                  (w, mkLocals None None None) in
    (r, w').

Definition model_path : string := "best.pt".

(** Lines 45-125. *)
Definition main : M unit :=
  St.title "YOLOv11 Object Detection" ;;
  St.write "This app uses a pre-configured model to detect objects in an uploaded video." ;;
  ex <- Os.path_exists model_path ;;
  if negb ex then
    St.error ("Error: The model file was not found at the path: " ++ model_path) ;;
    St.info "Please make sure the 'best.pt' file is located in the correct directory."
  else
    om <- try_except
            (model <- load_model model_path ;;
             St.success "Model loaded successfully!" ;;
             ret (Some model))
            (fun e => if is_exception e
                      then St.error ("An error occurred while loading the model: " ++ exn_str e) ;;
                           ret None
                      else raise e) ;;
    match om with
    | None => ret tt
    | Some model =>
        uploaded_video <- St.file_uploader "Upload a video to begin detection (MP4, MOV, AVI)"
                                           ["mp4"; "mov"; "avi"] ;;
        match uploaded_video with
        | None => ret tt
        | Some up => handle_upload model up
        end
    end.
End Session.

(** ** The temporary-file invariant

    [recorded l q]: one of the three locals holds [q].
    [tracked m0 X s]: relative to the file system [m0] the block started
    from, the world of [s] differs only at recorded paths or paths in [X];
    each such path was free in [m0], is not empty, and exists now. *)
Definition recorded (l : locals) (q : string) : Prop :=
  input_video_path l = Some q \/ downscaled_video_path l = Some q \/ output_video_path l = Some q.

Definition tracked (m0 : gmap string file) (X : string -> Prop) (s : world * locals) : Prop :=
  (forall q, ~ (recorded (snd s) q \/ X q) -> fs (fst s) !! q = m0 !! q) /\
  (forall q, recorded (snd s) q \/ X q -> m0 !! q = None /\ q <> "" /\ is_Some (fs (fst s) !! q)).

(** During the [finally] clause: the paths of [R] may still differ from
    [m0]; they were free in [m0]. *)
Definition cleaning (m0 : gmap string file) (R : string -> Prop) (l : locals)
    (s : world * locals) : Prop :=
  snd s = l /\ (forall q, ~ R q -> fs (fst s) !! q = m0 !! q) /\ (forall q, R q -> m0 !! q = None).

(** The file system after the [finally] clause removed the recorded paths. *)
Definition del_opt (o : option string) (m : gmap string file) : gmap string file :=
  match o with Some p => delete p m | None => m end.

(** ** Lemmas *)

Lemma lift_run {A} (c : M A) w l :
  lift c (w, l) = ((c w).1, ((c w).2, l)).
Proof. unfold lift. simpl. destruct (c w); reflexivity. Qed.

(** A call that writes within recorded paths keeps the invariant. *)
Lemma lift_tracked {A} (out : string -> Prop) (c : M A) m0 l :
  writes_within out c -> (forall q, out q -> recorded l q) ->
  hoare (fun s => tracked m0 (fun _ => False) s /\ snd s = l) (lift c)
        (fun _ s => tracked m0 (fun _ => False) s /\ snd s = l)
        (fun _ s => tracked m0 (fun _ => False) s).
Proof.
  intros Hc Hout [w l'] [[H1 H2] Hl]. simpl in Hl. subst l'.
  rewrite lift_run. pose proof (Hc w w (fs_effect_refl out w)) as He.
  assert (Ht : tracked m0 (fun _ => False) ((c w).2, l)).
  { split; simpl.
    - intros q Hq. destruct (He q) as [He1 _].
      rewrite He1 by (intros Hq'; apply Hq; left; apply Hout; exact Hq'). apply H1. exact Hq.
    - intros q Hq. destruct (H2 q Hq) as (Hm & Hne & Hs). destruct (He q) as [_ He2]. auto. }
  destruct (c w) as [[a|e] w']; simpl in *; auto.
Qed.

Lemma lift_tracked_any {A} (c : M A) m0 :
  writes_within (fun _ => False) c ->
  hoare (tracked m0 (fun _ => False)) (lift c)
        (fun _ => tracked m0 (fun _ => False)) (fun _ => tracked m0 (fun _ => False)).
Proof.
  intros Hc s Hs. pose proof (lift_tracked _ c m0 (snd s) Hc (fun q Hq => False_ind _ Hq) s
                                (conj Hs eq_refl)) as H.
  destruct (lift c s) as [[a|e] s']; [apply H | exact H].
Qed.

(** A new temporary file joins the tracked paths, as the extra path. *)
Lemma tempfile_tracked suf m0 l :
  hoare (fun s => tracked m0 (fun _ => False) s /\ snd s = l)
        (lift (Tempfile.named_temporary_file suf))
        (fun p s => tracked m0 (eq p) s /\ snd s = l)
        (fun _ s => tracked m0 (fun _ => False) s).
Proof.
  intros [w l'] [[H1 H2] Hl]. simpl in Hl. subst l'. rewrite lift_run.
  pose proof (named_temporary_file_hoare suf w w eq_refl) as Hs.
  destruct (Tempfile.named_temporary_file suf w) as [[p|e] w']; simpl in *.
  - destruct Hs as (Hfree & Hne & rest & ->). split; [|reflexivity]. split; simpl.
    + intros q Hq. rewrite lookup_insert_ne by tauto. apply H1. tauto.
    + intros q [Hr | <-].
      * destruct (H2 q (or_introl Hr)) as (Hm & Hq & Hsome).
        destruct (decide (p = q)) as [<-|Hpq]; [rewrite Hfree in Hsome; destruct Hsome as [? Hx]; discriminate Hx|].
        rewrite lookup_insert_ne by exact Hpq. auto.
      * split; [|split; [exact Hne | rewrite lookup_insert_eq; eauto]].
        destruct (decide (recorded l p)) as [Hr|Hr]; unfold recorded in *;
          [destruct (H2 p (or_introl Hr)) as (_ & _ & Hsome); rewrite Hfree in Hsome;
           destruct Hsome as [? Hx]; discriminate Hx|].
        assert (Hp : fs w !! p = m0 !! p) by (apply H1; tauto). rewrite <- Hp. exact Hfree.
  - subst w'. split; assumption.
Qed.

(** Recording the new path in a local that was [None] restores the
    invariant without extra paths. *)
Lemma tracked_relabel m0 X Y s s' :
  fst s' = fst s ->
  (forall q, recorded (snd s') q \/ Y q <-> recorded (snd s) q \/ X q) ->
  tracked m0 X s -> tracked m0 Y s'.
Proof.
  intros Hw Hiff [H1 H2]. unfold tracked. rewrite Hw. split.
  - intros q Hq. apply H1. rewrite <- Hiff. exact Hq.
  - intros q Hq. apply H2. apply Hiff. exact Hq.
Qed.

(** Assigning a local that held [None] moves the extra path into the
    recorded ones. *)
Lemma assign_tracked m0 p l (f : locals -> locals) :
  (forall q, recorded (f l) q <-> recorded l q \/ p = q) ->
  hoare (fun s => tracked m0 (eq p) s /\ snd s = l)
        (modify (E:=exn) (fun s => (fst s, f (snd s))))
        (fun _ s => tracked m0 (fun _ => False) s /\ snd s = f l)
        (fun _ s => tracked m0 (fun _ => False) s).
Proof.
  intros Hf [w l'] [Ht Hl]. simpl in Hl. subst l'. unfold modify. simpl.
  split; [|reflexivity].
  apply (tracked_relabel m0 (eq p) (fun _ => False) (w, l) (w, f l)); [reflexivity | | exact Ht].
  intros q. simpl. rewrite Hf. tauto.
Qed.

Lemma lookup_del_opt o m q :
  del_opt o m !! q = if decide (o = Some q) then None else m !! q.
Proof.
  destruct o as [p|]; cbn [del_opt]; case_decide as H; try congruence.
  - injection H as ->. apply lookup_delete_eq.
  - apply lookup_delete_ne. congruence.
Qed.

Lemma remove_if_exists_run o w l :
  (forall p, o = Some p -> p <> "") ->
  remove_if_exists o (w, l) = (Ok tt, (map_fs (del_opt o) w, l)).
Proof.
  intros Hne. destruct o as [p|]; simpl.
  - rewrite bool_decide_eq_false_2 by exact (Hne p eq_refl).
    unfold bind. rewrite lift_run. simpl. unfold Os.file_exists.
    destruct (fs w !! p) as [f|] eqn:E; simpl.
    + rewrite lift_run. unfold Os.remove, bind, get. simpl. rewrite E. reflexivity.
    + unfold ret. do 3 f_equal. symmetry. apply map_fs_id. apply delete_id. exact E.
  - do 3 f_equal. symmetry. apply map_fs_id. reflexivity.
Qed.

(** The [finally] clause removes the three recorded paths. *)
Lemma cleanup_run w l :
  (forall q, recorded l q -> q <> "") ->
  cleanup (w, l) =
  (Ok tt, (map_fs (fun m => del_opt (output_video_path l)
                     (del_opt (downscaled_video_path l) (del_opt (input_video_path l) m))) w, l)).
Proof.
  intros Hne. cbv [cleanup bind gets]. cbn [fst snd].
  rewrite remove_if_exists_run by (intros p Hp; apply Hne; left; exact Hp).
  rewrite remove_if_exists_run by (intros p Hp; apply Hne; right; left; exact Hp).
  rewrite remove_if_exists_run by (intros p Hp; apply Hne; right; right; exact Hp).
  reflexivity.
Qed.

(** From the invariant, the [finally] clause brings the file system back
    to where the block started. *)
Lemma cleanup_restores m0 :
  hoare (tracked m0 (fun _ => False)) cleanup (fun _ s => fs (fst s) = m0) (fun _ _ => False).
Proof.
  intros [w l] [H1 H2]. simpl in *.
  rewrite cleanup_run by (intros q Hq; apply (H2 q (or_introl Hq))). simpl.
  apply map_eq. intros q. rewrite !lookup_del_opt.
  destruct (decide (recorded l q)) as [Hr|Hr].
  - destruct (H2 q (or_introl Hr)) as [Hm _]. rewrite Hm.
    unfold recorded in Hr. repeat case_decide; tauto.
  - unfold recorded in Hr. repeat (case_decide; [tauto|]). apply H1. tauto.
Qed.

Ltac solve_recorded := intros ?; unfold recorded; simpl; intuition congruence.

Section SessionLemmas.
Context `{Scaler} `{Yolo}.

Lemma present_writes p : writes_within (fun _ => False) (present p).
Proof. intros w0. unfold present. solve_preserves. Qed.

Lemma report_error_writes e : writes_within (fun _ => False) (report_error e).
Proof. intros w0. unfold report_error. solve_preserves. Qed.

Lemma st_writes_none el : writes_within (fun _ => False) (St.emit el).
Proof. intros w0. apply emit_fs_effect. Qed.

(** The [try] body keeps the invariant on every exit. *)
Lemma upload_body_tracked model up m0 :
  hoare (fun s => tracked m0 (fun _ => False) s /\ snd s = mkLocals None None None)
        (upload_body model up)
        (fun _ => tracked m0 (fun _ => False)) (fun _ => tracked m0 (fun _ => False)).
Proof.
  unfold upload_body.
  eapply hoare_bind; [apply tempfile_tracked | intros p1].
  eapply hoare_bind; [apply (assign_tracked _ p1 _ (fun l => mkLocals (Some p1)
    (downscaled_video_path l) (output_video_path l))); solve_recorded | intros []].
  eapply hoare_bind; [apply (lift_tracked (eq p1));
    [intros w0; apply write_file_fs_effect; reflexivity | solve_recorded] | intros []].
  eapply hoare_bind; [apply (lift_tracked _ _ _ _ (st_writes_none _)); tauto | intros []].
  eapply hoare_bind; [apply tempfile_tracked | intros p2].
  eapply hoare_bind; [apply (assign_tracked _ p2 _ (fun l => mkLocals (input_video_path l)
    (Some p2) (output_video_path l))); solve_recorded | intros []].
  eapply hoare_bind; [apply (lift_tracked (eq p2) _ _ _ (subprocess_ffmpeg_writes _ _));
    solve_recorded | intros r].
  eapply hoare_bind; [apply (lift_tracked _ _ _ _ (st_writes_none _)); tauto | intros []].
  eapply hoare_bind; [apply tempfile_tracked | intros p3].
  eapply hoare_bind; [apply (assign_tracked _ p3 _ (fun l => mkLocals (input_video_path l)
    (downscaled_video_path l) (Some p3))); solve_recorded | intros []].
  eapply hoare_bind; [apply (lift_tracked (eq p3) _ _ _ (process_video_writes _ _ _));
    solve_recorded | intros []].
  eapply hoare_consequence;
    [apply (lift_tracked _ _ m0 (mkLocals (Some p1) (Some p2) (Some p3)) (present_writes _));
     tauto | ..]; simpl; tauto.
Qed.

(** The upload block restores the file system. *)
Lemma handle_upload_fs_unchanged model up w :
  fs (handle_upload model up w).2 = fs w.
Proof.
  unfold handle_upload.
  assert (Hh : hoare (fun s => tracked (fs w) (fun _ => False) s /\
                               snd s = mkLocals None None None)
                 (try_finally (try_except (upload_body model up) upload_handler) cleanup)
                 (fun _ s => fs (fst s) = fs w) (fun _ s => fs (fst s) = fs w)).
  { apply hoare_try_finally with (I := fun _ => tracked (fs w) (fun _ => False)).
    - eapply hoare_try_except; [apply upload_body_tracked|].
      intros e. apply lift_tracked_any, report_error_writes.
    - intros r. eapply hoare_consequence; [apply (cleanup_restores (fs w)) | ..].
      + trivial.
      + intros a s Hs. destruct r; exact Hs.
      + intros e s []. }
  assert (Hpre : tracked (fs w) (fun _ => False) (w, mkLocals None None None)).
  { split; [intros; reflexivity|].
    intros q Hq. exfalso. unfold recorded in Hq. simpl in Hq. intuition congruence. }
  specialize (Hh _ (conj Hpre eq_refl)).
  destruct (try_finally _ _ _) as [[a|e] [w' l']]; exact Hh.
Qed.

(** C1: whatever happens in the upload block (success, FFmpeg failure, an
    exception from any library call, or Streamlit's stop request), the
    [finally] clause leaves the file system exactly as it was before the
    block: every temporary file is removed and nothing else changed. *)
Theorem handle_upload_restores_fs model up w :
  fs (handle_upload model up w).2 = fs w.
Proof. exact (handle_upload_fs_unchanged model up w). Qed.
Lemma handle_upload_writes out model up : writes_within out (handle_upload model up).
Proof.
  intros w0 w Hw q. rewrite handle_upload_fs_unchanged. apply Hw.
Qed.

(** A run of the script leaves the file system as it found it. *)
Lemma main_fs_unchanged w : fs (main w).2 = fs w.
Proof.
  apply fs_effect_none.
  assert (Hm : writes_within (fun _ => False) main).
  { intros w0. unfold main, St.file_uploader. solve_preserves;
      apply load_model_writes || apply handle_upload_writes. }
  apply (Hm w w (fs_effect_refl _ w)).
Qed.

(** C3 for the whole script run: [main] leaves the file system as it
    found it. *)
Theorem main_restores_fs w : fs (main w).2 = fs w.
Proof. exact (main_fs_unchanged w). Qed.
End SessionLemmas.

(** ** Runs of the upload block on concrete outcomes *)

Ltac step_ok tac := erewrite run_bind_ok; [cbv beta | tac].

Lemma pick_nonempty m dir suf names p rest :
  Tempfile.pick m dir Tempfile.template suf names = Some (p, rest) -> p <> "".
Proof. intros H. apply pick_spec in H as [_ [n ->]]. apply candidate_nonempty. Qed.

Section Runs.
Context `{Scaler} `{Yolo}.

Lemma report_error_cpe_run rc cmd err w :
  stop_after w = None ->
  report_error (CalledProcessError rc cmd err) w =
  (Ok tt, map_ui (fun u => (u ++ [ErrorBox "FFmpeg failed to process the video. This can happen with certain video formats.";
                                  ErrorBox ("FFmpeg Error Details: " ++ err)])%list) w).
Proof.
  intros Hs. unfold report_error, St.error, bind. rewrite emit_run by exact Hs.
  rewrite emit_run by exact Hs. unfold map_ui. simpl. rewrite <- app_assoc. reflexivity.
Qed.

Lemma handle_upload_exc_run model up w e w1 l r w2 :
  upload_body model up (w, mkLocals None None None) = (Exc e, (w1, l)) ->
  report_error e w1 = (r, w2) ->
  (forall q, recorded l q -> q <> "") ->
  handle_upload model up w =
  (r, map_fs (fun m => del_opt (output_video_path l)
                 (del_opt (downscaled_video_path l) (del_opt (input_video_path l) m))) w2).
Proof.
  intros Hb He Hne. unfold handle_upload, try_finally, try_except. rewrite Hb.
  unfold upload_handler. rewrite lift_run, He. simpl.
  rewrite cleanup_run by exact Hne. reflexivity.
Qed.

Lemma handle_upload_ok_run model up w w1 l :
  upload_body model up (w, mkLocals None None None) = (Ok tt, (w1, l)) ->
  (forall q, recorded l q -> q <> "") ->
  handle_upload model up w =
  (Ok tt, map_fs (fun m => del_opt (output_video_path l)
                     (del_opt (downscaled_video_path l) (del_opt (input_video_path l) m))) w1).
Proof.
  intros Hb Hne. unfold handle_upload, try_finally, try_except. rewrite Hb.
  rewrite cleanup_run by exact Hne. reflexivity.
Qed.

(** The first six statements of the body (lines 69-77) when both
    temporary names are free: the upload is saved at [p1], [p2] is
    created empty, and the first progress note is shown. *)
Lemma upload_prefix_run (K : string -> string -> MS unit) up w p1 r1 p2 r2 :
  stop_after w = None ->
  Tempfile.pick (fs w) (tempdir w) Tempfile.template (Os.splitext (up_name up)).2 (rng w)
    = Some (p1, r1) ->
  Tempfile.pick (<[p1 := up_data up]> (fs w)) (tempdir w) Tempfile.template ".mp4" r1
    = Some (p2, r2) ->
  (tfile_in <- lift (Tempfile.named_temporary_file (Os.splitext (up_name up)).2) ;;
   assign_input tfile_in ;;
   lift (Os.write_file tfile_in (up_data up)) ;;
   lift (St.info "Standardizing video with FFmpeg...") ;;
   tfile_downscaled <- lift (Tempfile.named_temporary_file ".mp4") ;;
   assign_downscaled tfile_downscaled ;;
   K tfile_in tfile_downscaled) (w, mkLocals None None None) =
  K p1 p2 (set_rng r2 (map_fs (<[p2 := RawFile []]>)
             (map_ui (fun u => (u ++ [InfoBox "Standardizing video with FFmpeg..."])%list)
               (map_fs (<[p1 := up_data up]>) (set_rng r1 (map_fs (<[p1 := RawFile []]>) w))))),
           mkLocals (Some p1) (Some p2) None).
Proof.
  intros Hs Hp1 Hp2.
  step_ok ltac:(rewrite lift_run, (named_temporary_file_run _ _ _ _ Hp1); reflexivity).
  step_ok ltac:(cbv [assign_input modify]; reflexivity).
  step_ok ltac:(rewrite lift_run; reflexivity).
  step_ok ltac:(rewrite lift_run; unfold St.info; rewrite emit_run by exact Hs; reflexivity).
  step_ok ltac:(rewrite lift_run, (named_temporary_file_run _ _ p2 r2);
                [reflexivity | simpl; rewrite insert_insert_eq; exact Hp2]).
  step_ok ltac:(cbv [assign_downscaled modify]; reflexivity).
  reflexivity.
Qed.

(** The body on an upload that is not a video: FFmpeg fails after the two
    temporary files are created. *)
Lemma upload_body_invalid_run model up w p1 r1 p2 r2 :
  ffmpeg_installed w = true -> stop_after w = None ->
  (forall v, up_data up <> VideoFile v) ->
  Tempfile.pick (fs w) (tempdir w) Tempfile.template (Os.splitext (up_name up)).2 (rng w)
    = Some (p1, r1) ->
  Tempfile.pick (<[p1 := up_data up]> (fs w)) (tempdir w) Tempfile.template ".mp4" r1
    = Some (p2, r2) ->
  exists w1,
    upload_body model up (w, mkLocals None None None) =
    (Exc (CalledProcessError 1 (ffmpeg_command p1 p2)
            (p1 ++ ": Invalid data found when processing input")),
     (w1, mkLocals (Some p1) (Some p2) None)) /\
    ui w1 = (ui w ++ [InfoBox "Standardizing video with FFmpeg..."])%list /\
    stop_after w1 = None.
Proof.
  intros Hff Hs Hnv Hp1 Hp2.
  pose proof (proj1 (pick_spec _ _ _ _ _ _ _ Hp2)) as Hfree2.
  eexists. split.
  { unfold upload_body.
    etransitivity; [exact (upload_prefix_run _ up w p1 r1 p2 r2 Hs Hp1 Hp2)|]. cbv beta.
    erewrite run_bind_exc; [reflexivity|].
    rewrite lift_run, (ffmpeg_reject_run _ _ _ (up_data up)); [reflexivity | exact Hff | | exact Hnv].
    simpl. rewrite lookup_insert_ne by (intros <-; rewrite lookup_insert_eq in Hfree2; discriminate).
    apply lookup_insert_eq.
  }
  simpl. split; [reflexivity | exact Hs].
Qed.

(** The page with a non-empty output video: the player, then the button. *)
Lemma present_ok_run p out w :
  fs w !! p = Some (VideoFile out) -> stop_after w = None ->
  present p w =
  (Ok tt, map_ui (fun u => (u ++ [VideoPlayer (VideoFile out);
                                  DownloadButton "Download Processed Video" (VideoFile out)
                                                 "video_with_detections.mp4" "video/mp4"])%list) w).
Proof.
  intros Hp Hs. cbv [present Os.path_exists Os.getsize Os.read_file Os.file_exists bind gets get ret].
  rewrite Hp. simpl. rewrite Hp. unfold St.video, St.download_button. simpl. rewrite Hp.
  rewrite emit_run by exact Hs. simpl. rewrite emit_run by exact Hs.
  unfold map_ui. simpl. rewrite <- app_assoc. reflexivity.
Qed.

(** The body on a decodable video when every step succeeds. *)
Lemma upload_body_video_run model up w v ow oh p1 r1 p2 r2 p3 r3 gs :
  ffmpeg_installed w = true -> writer_available w = true -> stop_after w = None ->
  up_data up = VideoFile v ->
  0 < v_width v -> 0 < v_height v ->
  v_width v <= 1280 * v_height v -> v_height v <= 1280 * v_width v ->
  scale_dims (v_width v) (v_height v) = (ow, oh) ->
  Tempfile.pick (fs w) (tempdir w) Tempfile.template (Os.splitext (up_name up)).2 (rng w)
    = Some (p1, r1) ->
  Tempfile.pick (<[p1 := VideoFile v]> (fs w)) (tempdir w) Tempfile.template ".mp4" r1
    = Some (p2, r2) ->
  Tempfile.pick (<[p2 := VideoFile (transcode ow oh v)]> (<[p1 := VideoFile v]> (fs w)))
                (tempdir w) Tempfile.template ".mp4" r2 = Some (p3, r3) ->
  render_frames model (v_frames (transcode ow oh v)) = (gs, None) ->
  exists w1,
    upload_body model up (w, mkLocals None None None) =
    (Ok tt, (w1, mkLocals (Some p1) (Some p2) (Some p3))) /\
    ui w1 = (ui w ++ [InfoBox "Standardizing video with FFmpeg...";
                      InfoBox "Processing the standardized video for object detection...";
                      VideoPlayer (VideoFile (mkVideo ow oh (v_fps v) fourcc_mp4v gs));
                      DownloadButton "Download Processed Video"
                        (VideoFile (mkVideo ow oh (v_fps v) fourcc_mp4v gs))
                        "video_with_detections.mp4" "video/mp4"])%list /\
    length gs = length (v_frames v).
Proof.
  intros Hff Hwa Hs Hd Hw Hh Hr1 Hr2 Hsd Hp1 Hp2 Hp3 Hr.
  pose proof (proj1 (pick_spec _ _ _ _ _ _ _ Hp2)) as Hfree2.
  pose proof (proj1 (pick_spec _ _ _ _ _ _ _ Hp3)) as Hfree3.
  pose proof (proj2 (scale_dims_positive _ _ Hw Hh) (conj Hr1 Hr2)) as Hpos.
  rewrite Hsd in Hpos. simpl in Hpos. destruct Hpos as [Hpw Hph].
  assert (Hne21 : p2 <> p1) by (intros ->; rewrite lookup_insert_eq in Hfree2; discriminate).
  assert (Hne32 : p3 <> p2) by (intros ->; rewrite lookup_insert_eq in Hfree3; discriminate).
  pose proof (render_frames_ok_length model _ _ Hr) as Hlen.
  pose proof (fun w' => process_video_run p2 p3 model w' (transcode ow oh v) gs) as Hpv.
  simpl in Hpv. specialize (fun w' H1 H2 => Hpv w' H1 H2 Hpw Hph (transcode_wf ow oh v) Hr).
  eexists. split.
  { unfold upload_body.
    etransitivity; [apply (upload_prefix_run _ up w p1 r1 p2 r2 Hs Hp1); rewrite Hd; exact Hp2|].
    cbv beta.
    step_ok ltac:(rewrite lift_run, (ffmpeg_transcode_run _ _ _ v); [reflexivity | exact Hff | | lia..];
                  simpl; rewrite lookup_insert_ne, lookup_insert_eq, Hd by exact Hne21; reflexivity).
    rewrite Hsd. cbv [fst snd].
    step_ok ltac:(rewrite lift_run; unfold St.info; rewrite emit_run by exact Hs; reflexivity).
    step_ok ltac:(rewrite lift_run, (named_temporary_file_run _ _ p3 r3);
                  [reflexivity | simpl; rewrite !insert_insert_eq, Hd; exact Hp3]).
    step_ok ltac:(cbv [assign_output modify]; reflexivity).
    step_ok ltac:(rewrite lift_run;
                  unshelve erewrite (proj1 (Hpv _ _ _));
                  first [reflexivity | exact Hwa | simpl;
                     rewrite lookup_insert_ne, lookup_insert_eq by exact Hne32; reflexivity]).
    rewrite lift_run, (present_ok_run _ (mkVideo ow oh (v_fps v) fourcc_mp4v gs));
      [reflexivity | simpl; apply lookup_insert_eq | exact Hs].
  }
  split; [simpl; rewrite <- !app_assoc; reflexivity|].
  rewrite Hlen. unfold transcode. simpl. apply length_map.
Qed.

(** The body when no [ffmpeg] binary is on PATH: [subprocess.run] raises
    [FileNotFoundError] after the two temporary files are created. *)
Lemma upload_body_no_ffmpeg_run model up w p1 r1 p2 r2 :
  ffmpeg_installed w = false -> stop_after w = None ->
  Tempfile.pick (fs w) (tempdir w) Tempfile.template (Os.splitext (up_name up)).2 (rng w)
    = Some (p1, r1) ->
  Tempfile.pick (<[p1 := up_data up]> (fs w)) (tempdir w) Tempfile.template ".mp4" r1
    = Some (p2, r2) ->
  exists w1,
    upload_body model up (w, mkLocals None None None) =
    (Exc (FileNotFoundError "ffmpeg"), (w1, mkLocals (Some p1) (Some p2) None)) /\
    ui w1 = (ui w ++ [InfoBox "Standardizing video with FFmpeg..."])%list /\
    stop_after w1 = None.
Proof.
  intros Hff Hs Hp1 Hp2. eexists. split.
  { unfold upload_body.
    etransitivity; [exact (upload_prefix_run _ up w p1 r1 p2 r2 Hs Hp1 Hp2)|]. cbv beta.
    erewrite run_bind_exc; [reflexivity|].
    rewrite lift_run, subprocess_ffmpeg_run. simpl. rewrite Hff. reflexivity.
  }
  simpl. split; [reflexivity | exact Hs].
Qed.

End Runs.

Section Scenarios.
Context `{Scaler} `{Yolo}.

Lemma recorded_picked_nonempty (o1 o2 o3 : option string) :
  (forall p, o1 = Some p \/ o2 = Some p \/ o3 = Some p -> p <> "") ->
  forall q, recorded (mkLocals o1 o2 o3) q -> q <> "".
Proof. intros Hne q Hq. apply Hne. exact Hq. Qed.


(** C4: the specification's first scenario: a decodable video of sensible
    shape is standardised by FFmpeg to [scale_dims] of its size, every
    frame is annotated, and the page shows the two progress notes, the
    player and the download button on the annotated mp4v video, which has
    one frame per uploaded frame, the uploaded frame rate and the
    standardised size; the block returns normally and no temporary file
    is left. *)
Theorem upload_video_presented model up w v ow oh p1 r1 p2 r2 p3 r3 gs :
  ffmpeg_installed w = true -> writer_available w = true -> stop_after w = None ->
  up_data up = VideoFile v ->
  0 < v_width v -> 0 < v_height v ->
  v_width v <= 1280 * v_height v -> v_height v <= 1280 * v_width v ->
  scale_dims (v_width v) (v_height v) = (ow, oh) ->
  Tempfile.pick (fs w) (tempdir w) Tempfile.template (Os.splitext (up_name up)).2 (rng w)
    = Some (p1, r1) ->
  Tempfile.pick (<[p1 := VideoFile v]> (fs w)) (tempdir w) Tempfile.template ".mp4" r1
    = Some (p2, r2) ->
  Tempfile.pick (<[p2 := VideoFile (transcode ow oh v)]> (<[p1 := VideoFile v]> (fs w)))
                (tempdir w) Tempfile.template ".mp4" r2 = Some (p3, r3) ->
  render_frames model (v_frames (transcode ow oh v)) = (gs, None) ->
  (handle_upload model up w).1 = Ok tt /\
  ui (handle_upload model up w).2 =
    (ui w ++ [InfoBox "Standardizing video with FFmpeg...";
              InfoBox "Processing the standardized video for object detection...";
              VideoPlayer (VideoFile (mkVideo ow oh (v_fps v) fourcc_mp4v gs));
              DownloadButton "Download Processed Video"
                (VideoFile (mkVideo ow oh (v_fps v) fourcc_mp4v gs))
                "video_with_detections.mp4" "video/mp4"])%list /\
  length gs = length (v_frames v) /\
  fs (handle_upload model up w).2 = fs w.
Proof.
  intros Hff Hwa Hs Hd Hw Hh Hr1 Hr2 Hsd Hp1 Hp2 Hp3 Hr.
  destruct (upload_body_video_run model up w v ow oh p1 r1 p2 r2 p3 r3 gs
              Hff Hwa Hs Hd Hw Hh Hr1 Hr2 Hsd Hp1 Hp2 Hp3 Hr) as (w1 & Hb & Hui & Hlen).
  assert (Hne : forall q, recorded (mkLocals (Some p1) (Some p2) (Some p3)) q -> q <> "")
    by (apply recorded_picked_nonempty; intros p [Hq|[Hq|Hq]]; inv_run;
        eapply pick_nonempty; eauto).
  pose proof (handle_upload_ok_run model up w w1 _ Hb Hne) as E.
  rewrite E. split; [reflexivity|]. split; [exact Hui|]. split; [exact Hlen|].
  rewrite <- E. apply handle_upload_fs_unchanged.
Qed.

(** C19: the specification's third scenario: an upload that is not a
    video makes FFmpeg fail; the page shows the progress note and the two
    FFmpeg error boxes with FFmpeg's own diagnostic, the block returns
    normally and no temporary file is left. *)
Theorem upload_invalid_video_reported model up w p1 r1 p2 r2 :
  ffmpeg_installed w = true -> stop_after w = None ->
  (forall v, up_data up <> VideoFile v) ->
  Tempfile.pick (fs w) (tempdir w) Tempfile.template (Os.splitext (up_name up)).2 (rng w)
    = Some (p1, r1) ->
  Tempfile.pick (<[p1 := up_data up]> (fs w)) (tempdir w) Tempfile.template ".mp4" r1
    = Some (p2, r2) ->
  (handle_upload model up w).1 = Ok tt /\
  ui (handle_upload model up w).2 =
    (ui w ++ [InfoBox "Standardizing video with FFmpeg...";
              ErrorBox "FFmpeg failed to process the video. This can happen with certain video formats.";
              ErrorBox ("FFmpeg Error Details: " ++ p1 ++
                        ": Invalid data found when processing input")])%list /\
  fs (handle_upload model up w).2 = fs w.
Proof.
  intros Hff Hs Hnv Hp1 Hp2.
  destruct (upload_body_invalid_run model up w p1 r1 p2 r2 Hff Hs Hnv Hp1 Hp2)
    as (w1 & Hb & Hui & Hs1).
  assert (Hne : forall q, recorded (mkLocals (Some p1) (Some p2) None) q -> q <> "")
    by (apply recorded_picked_nonempty; intros p [Hq|[Hq|Hq]]; inv_run;
        eapply pick_nonempty; eauto).
  pose proof (handle_upload_exc_run model up w _ w1 _ _ _ Hb
                (report_error_cpe_run _ _ _ w1 Hs1) Hne) as E.
  rewrite E. split; [reflexivity|]. split; [simpl; rewrite Hui, <- app_assoc; reflexivity|].
  rewrite <- E. apply handle_upload_fs_unchanged.
Qed.

(** C26: the specification's fourth scenario: when [best.pt] is missing
    the page shows the title, the description and the two fixed messages,
    and stops there: no model is loaded and no uploader is drawn. *)
Theorem main_model_missing w :
  fs w !! model_path = None -> stop_after w = None ->
  main w =
  (Ok tt, map_ui (fun u => (u ++
     [Title "YOLOv11 Object Detection";
      Markdown "This app uses a pre-configured model to detect objects in an uploaded video.";
      ErrorBox "Error: The model file was not found at the path: best.pt";
      InfoBox "Please make sure the 'best.pt' file is located in the correct directory."])%list) w).
Proof.
  intros Hm Hs. unfold main, St.title, St.write, St.error, St.info.
  step_ok ltac:(rewrite emit_run by exact Hs; reflexivity).
  step_ok ltac:(rewrite emit_run by exact Hs; reflexivity).
  step_ok ltac:(cbv [Os.path_exists Os.file_exists gets]; simpl; rewrite Hm; reflexivity).
  simpl. step_ok ltac:(rewrite emit_run by exact Hs; reflexivity).
  rewrite emit_run by exact Hs. unfold map_ui. simpl. rewrite <- !app_assoc. reflexivity.
Qed.

(** The run of the script on a [best.pt] that does not load. *)
Lemma main_load_error_run w f :
  fs w !! model_path = Some f -> (forall wt, f <> WeightsFile wt) ->
  cache w !! model_path = None -> stop_after w = None ->
  main w =
  (Ok tt, map_ui (fun u => (u ++
     [Title "YOLOv11 Object Detection";
      Markdown "This app uses a pre-configured model to detect objects in an uploaded video.";
      ErrorBox "An error occurred while loading the model: Error loading best.pt"])%list) w).
Proof.
  intros Hf Hnw Hc Hs. unfold main, St.title, St.write, St.error.
  step_ok ltac:(rewrite emit_run by exact Hs; reflexivity).
  step_ok ltac:(rewrite emit_run by exact Hs; reflexivity).
  step_ok ltac:(reflexivity).
  cbn [negb Os.file_exists fs map_ui]. unfold Os.file_exists. rewrite Hf. cbn [negb].
  step_ok ltac:(erewrite run_try_except_exc;
                [|erewrite run_bind_exc; [reflexivity | apply (load_model_bad_run _ f); assumption]];
                simpl; step_ok ltac:(rewrite emit_run by exact Hs; reflexivity); reflexivity).
  simpl.
  unfold map_ui. simpl. rewrite <- !app_assoc. reflexivity.
Qed.

(** C27: a [best.pt] that does not load: the page shows the title, the
    description and the loader's error, draws no uploader, and the cache
    keeps nothing, so the next script run tries to load it again. *)
Theorem main_model_load_error w f :
  fs w !! model_path = Some f -> (forall wt, f <> WeightsFile wt) ->
  cache w !! model_path = None -> stop_after w = None ->
  main w =
  (Ok tt, map_ui (fun u => (u ++
     [Title "YOLOv11 Object Detection";
      Markdown "This app uses a pre-configured model to detect objects in an uploaded video.";
      ErrorBox "An error occurred while loading the model: Error loading best.pt"])%list) w).
Proof. exact (main_load_error_run w f). Qed.

(** A stop request pending when the block starts: the first element the
    block puts on the page raises [ScriptControl], the progress note when
    the temporary file is created, the error box when it is not. *)
Lemma upload_body_stop_run model up w :
  stop_after w = Some (length (ui w)) ->
  exists e w1 l,
    upload_body model up (w, mkLocals None None None) = (Exc e, (w1, l)) /\
    report_error e w1 = (Exc ScriptControl, w1) /\ ui w1 = ui w /\
    (forall q, recorded l q -> q <> "").
Proof.
  intros Hs.
  destruct (Tempfile.pick (fs w) (tempdir w) Tempfile.template (Os.splitext (up_name up)).2 (rng w))
    as [[p1 r1]|] eqn:Hp1.
  - do 3 eexists. split.
    + unfold upload_body.
      step_ok ltac:(rewrite lift_run, (named_temporary_file_run _ _ _ _ Hp1); reflexivity).
      step_ok ltac:(cbv [assign_input modify]; reflexivity).
      step_ok ltac:(rewrite lift_run; reflexivity).
      erewrite run_bind_exc; [reflexivity|].
      rewrite lift_run. unfold St.info. rewrite emit_stop by exact Hs. reflexivity.
    + split; [reflexivity|]. split; [reflexivity|]. apply recorded_picked_nonempty.
      simpl. intros p [Hq|[Hq|Hq]]; inv_run; eapply pick_nonempty; eauto.
  - do 3 eexists. split.
    + unfold upload_body. erewrite run_bind_exc; [reflexivity|].
      rewrite lift_run. cbv [Tempfile.named_temporary_file bind get modify raise]. rewrite Hp1.
      reflexivity.
    + split; [unfold report_error, St.error; simpl; rewrite emit_stop by exact Hs; reflexivity|].
      split; [reflexivity|]. intros q [Hq|[Hq|Hq]]; discriminate.
Qed.

(** C20: no [ffmpeg] binary on PATH: [subprocess.run] raises
    [FileNotFoundError], which the generic handler reports with Python's
    message; the block returns normally and no temporary file is left. *)
Theorem upload_ffmpeg_missing_reported model up w p1 r1 p2 r2 :
  ffmpeg_installed w = false -> stop_after w = None ->
  Tempfile.pick (fs w) (tempdir w) Tempfile.template (Os.splitext (up_name up)).2 (rng w)
    = Some (p1, r1) ->
  Tempfile.pick (<[p1 := up_data up]> (fs w)) (tempdir w) Tempfile.template ".mp4" r1
    = Some (p2, r2) ->
  (handle_upload model up w).1 = Ok tt /\
  ui (handle_upload model up w).2 =
    (ui w ++ [InfoBox "Standardizing video with FFmpeg...";
              ErrorBox "An unexpected error occurred: [Errno 2] No such file or directory: 'ffmpeg'"])%list /\
  fs (handle_upload model up w).2 = fs w.
Proof.
  intros Hff Hs Hp1 Hp2.
  destruct (upload_body_no_ffmpeg_run model up w p1 r1 p2 r2 Hff Hs Hp1 Hp2) as (w1 & Hb & Hui & Hs1).
  assert (Hne : forall q, recorded (mkLocals (Some p1) (Some p2) None) q -> q <> "")
    by (apply recorded_picked_nonempty; intros p [Hq|[Hq|Hq]]; inv_run;
        eapply pick_nonempty; eauto).
  assert (He : report_error (FileNotFoundError "ffmpeg") w1 =
               (Ok tt, map_ui (fun u => (u ++ [ErrorBox "An unexpected error occurred: [Errno 2] No such file or directory: 'ffmpeg'"])%list) w1))
    by (unfold report_error, St.error; simpl; rewrite emit_run by exact Hs1; reflexivity).
  pose proof (handle_upload_exc_run model up w _ w1 _ _ _ Hb He Hne) as E.
  rewrite E. split; [reflexivity|]. split; [simpl; rewrite Hui, <- app_assoc; reflexivity|].
  rewrite <- E. apply handle_upload_fs_unchanged.
Qed.

(** C21: a stop request pending when the block starts ends it with
    Streamlit's [ScriptControl]: neither [except] clause catches it (it is
    not an [Exception]), nothing is added to the page, and the [finally]
    clause still runs. *)
Theorem handle_upload_stop_request model up w :
  stop_after w = Some (length (ui w)) ->
  (handle_upload model up w).1 = Exc ScriptControl /\ ui (handle_upload model up w).2 = ui w.
Proof.
  intros Hs. destruct (upload_body_stop_run model up w Hs) as (e & w1 & l & Hb & He & Hui & Hne).
  rewrite (handle_upload_exc_run model up w e w1 l _ _ Hb He Hne). split; [reflexivity | exact Hui].
Qed.
End Scenarios.

(** ** Witnesses: the two scenarios on a fresh server with an empty
    temporary directory *)

Lemma upload_video_presented_witness :
  let up := UploadedFile "street.mov" (VideoFile (sample_video 1920 1080 2)) in
  let out := mkVideo 1280 720 30 fourcc_mp4v
               [mkFrame 1280 720 [0; 1]; mkFrame 1280 720 [1; 1]] in
  (@handle_upload scaler_relabel yolo_two_boxes (YOLO_ "best.pt" 7) up sample_world).1 = Ok tt /\
  ui (@handle_upload scaler_relabel yolo_two_boxes (YOLO_ "best.pt" 7) up sample_world).2 =
    [InfoBox "Standardizing video with FFmpeg...";
     InfoBox "Processing the standardized video for object detection...";
     VideoPlayer (VideoFile out);
     DownloadButton "Download Processed Video" (VideoFile out)
                    "video_with_detections.mp4" "video/mp4"] /\
  length [mkFrame 1280 720 [0; 1]; mkFrame 1280 720 [1; 1]]
    = length (v_frames (sample_video 1920 1080 2)) /\
  fs (@handle_upload scaler_relabel yolo_two_boxes (YOLO_ "best.pt" 7) up sample_world).2
    = fs sample_world.
Proof.
  intros up out.
  apply (@upload_video_presented scaler_relabel yolo_two_boxes (YOLO_ "best.pt" 7) up
           sample_world (sample_video 1920 1080 2) 1280 720
           "/tmp/tmpa1b2c3d4.mov" ["e5f6g7h8"; "i9j0k1l2"]
           "/tmp/tmpe5f6g7h8.mp4" ["i9j0k1l2"] "/tmp/tmpi9j0k1l2.mp4" []);
    first [reflexivity | simpl; lia | vm_compute; reflexivity].
Defined.

Lemma upload_invalid_video_reported_witness :
  let up := UploadedFile "notes.avi" (RawFile [Byte.x00]) in
  (@handle_upload scaler_relabel yolo_two_boxes (YOLO_ "best.pt" 7) up sample_world).1 = Ok tt /\
  ui (@handle_upload scaler_relabel yolo_two_boxes (YOLO_ "best.pt" 7) up sample_world).2 =
    [InfoBox "Standardizing video with FFmpeg...";
     ErrorBox "FFmpeg failed to process the video. This can happen with certain video formats.";
     ErrorBox "FFmpeg Error Details: /tmp/tmpa1b2c3d4.avi: Invalid data found when processing input"] /\
  fs (@handle_upload scaler_relabel yolo_two_boxes (YOLO_ "best.pt" 7) up sample_world).2
    = fs sample_world.
Proof.
  intros up.
  apply (@upload_invalid_video_reported scaler_relabel yolo_two_boxes (YOLO_ "best.pt" 7) up
           sample_world "/tmp/tmpa1b2c3d4.avi" ["e5f6g7h8"; "i9j0k1l2"]
           "/tmp/tmpe5f6g7h8.mp4" ["i9j0k1l2"]);
    first [reflexivity | intros v Hv; discriminate Hv].
Defined.

Lemma main_model_missing_witness :
  @main scaler_relabel yolo_two_boxes sample_world =
  (Ok tt, map_ui (fun _ =>
     [Title "YOLOv11 Object Detection";
      Markdown "This app uses a pre-configured model to detect objects in an uploaded video.";
      ErrorBox "Error: The model file was not found at the path: best.pt";
      InfoBox "Please make sure the 'best.pt' file is located in the correct directory."])
     sample_world).
Proof. apply (@main_model_missing scaler_relabel yolo_two_boxes sample_world); reflexivity. Defined.

Lemma main_model_load_error_witness :
  let w := map_fs (<[model_path := RawFile [Byte.x00]]>) sample_world in
  @main scaler_relabel yolo_two_boxes w =
  (Ok tt, map_ui (fun _ =>
     [Title "YOLOv11 Object Detection";
      Markdown "This app uses a pre-configured model to detect objects in an uploaded video.";
      ErrorBox "An error occurred while loading the model: Error loading best.pt"]) w).
Proof.
  intros w. apply (@main_model_load_error scaler_relabel yolo_two_boxes w (RawFile [Byte.x00]));
    [reflexivity | intros wt Hwt; discriminate Hwt | reflexivity | reflexivity].
Defined.

Lemma upload_ffmpeg_missing_reported_witness :
  let up := UploadedFile "street.mov" (VideoFile (sample_video 1920 1080 2)) in
  let w := mkWorld ∅ [] "/tmp" ["a1b2c3d4"; "e5f6g7h8"; "i9j0k1l2"] ∅ false true None None in
  (@handle_upload scaler_relabel yolo_two_boxes (YOLO_ "best.pt" 7) up w).1 = Ok tt /\
  ui (@handle_upload scaler_relabel yolo_two_boxes (YOLO_ "best.pt" 7) up w).2 =
    [InfoBox "Standardizing video with FFmpeg...";
     ErrorBox "An unexpected error occurred: [Errno 2] No such file or directory: 'ffmpeg'"] /\
  fs (@handle_upload scaler_relabel yolo_two_boxes (YOLO_ "best.pt" 7) up w).2 = fs w.
Proof.
  intros up w.
  apply (@upload_ffmpeg_missing_reported scaler_relabel yolo_two_boxes (YOLO_ "best.pt" 7) up w
           "/tmp/tmpa1b2c3d4.mov" ["e5f6g7h8"; "i9j0k1l2"] "/tmp/tmpe5f6g7h8.mp4" ["i9j0k1l2"]);
    reflexivity.
Defined.

Lemma handle_upload_stop_request_witness :
  let up := UploadedFile "street.mov" (VideoFile (sample_video 1920 1080 2)) in
  let w := mkWorld ∅ [] "/tmp" ["a1b2c3d4"; "e5f6g7h8"; "i9j0k1l2"] ∅ true true None (Some 0%nat) in
  (@handle_upload scaler_relabel yolo_two_boxes (YOLO_ "best.pt" 7) up w).1 = Exc ScriptControl /\
  ui (@handle_upload scaler_relabel yolo_two_boxes (YOLO_ "best.pt" 7) up w).2 = [].
Proof.
  intros up w.
  apply (@handle_upload_stop_request scaler_relabel yolo_two_boxes (YOLO_ "best.pt" 7) up w).
  reflexivity.
Defined.
