(* ===== verification/Session.v ===== *)
(** * Session: the per-upload state machine of the specification, refined
    by [handle_upload]

    Section 4.4 of the specification describes one upload as the linear
    machine [Idle -> Uploaded -> Transcoding -> Detecting -> Ready | Failed],
    [Failed] being entered from any stage.  This file states that machine
    as a labelled step relation [sstep] whose labels are the page elements
    a stage shows, and proves that every run of [handle_upload]
    (src/deploy.py lines 64-125) shows a sequence of elements that is a
    trace of the machine from [Idle] to [Ready] or [Failed]: the abstract
    machine is the contract, [handle_upload] the implementation. *)

From S2P Require Import Prelude World Transcoder Detection ModelLoader Orchestrator.

(** ** The abstract machine *)

Inductive phase := Idle | Uploaded | Transcoding | Detecting | Ready | Failed.

#[export] Instance phase_eq_dec : EqDecision phase.
Proof. solve_decision. Defined.

Definition terminal (p : phase) : bool :=
  match p with Ready | Failed => true | _ => false end.

Definition is_error_box (el : element) : bool :=
  match el with ErrorBox _ => true | _ => false end.

(** The progress notes of lines 72 and 91, shown on entering a stage. *)
Definition msg_standardizing : string := "Standardizing video with FFmpeg...".
Definition msg_processing : string :=
  "Processing the standardized video for object detection...".

(** One stage: [sstep p o q] moves from [p] to [q] showing [o].  [Ready]
    shows the video and its download button on the same bytes; [Failed]
    shows one or more error boxes and is entered from any stage that is
    not terminal. *)
Inductive sstep : phase -> list element -> phase -> Prop :=
| S_upload : sstep Idle [] Uploaded
| S_transcode : sstep Uploaded [InfoBox msg_standardizing] Transcoding
| S_detect : sstep Transcoding [InfoBox msg_processing] Detecting
| S_ready f : sstep Detecting
    [VideoPlayer f; DownloadButton "Download Processed Video" f
                                   "video_with_detections.mp4" "video/mp4"] Ready
| S_fail p errs : terminal p = false -> errs <> [] ->
    Forall (fun el => is_error_box el = true) errs -> sstep p errs Failed.

(** Executions, extended at the end; the label is the concatenation. *)
Inductive sexec : phase -> list element -> phase -> Prop :=
| X_refl p : sexec p [] p
| X_snoc p o q o' r : sexec p o q -> sstep q o' r -> sexec p (o ++ o')%list r.

(** ** Concrete runs seen through the machine *)

(** The page, started from [u0], has shown a trace of the machine that
    leads from [Idle] to [ph]; no stop request is pending. *)
Definition at_phase (u0 : list element) (ph : phase) (w : world) : Prop :=
  stop_after w = None /\ exists o, ui w = (u0 ++ o)%list /\ sexec Idle o ph.

(** A library call that shows nothing, leaves the stop request alone and
    raises only [Exception]s. *)
Definition quiet {A} (c : M A) : Prop :=
  forall w, ui (c w).2 = ui w /\ stop_after (c w).2 = stop_after w /\
            match (c w).1 with Ok _ => True | Exc e => is_exception e = true end.

(** Where the [try] body may raise: at a stage that is not terminal. *)
Definition body_exc (u0 : list element) (e : exn) (s : world * locals) : Prop :=
  is_exception e = true /\ exists ph, terminal ph = false /\ at_phase u0 ph (fst s).

(** After [process_video] at the [Detecting] stage: either the output is a
    video, or an error box was shown and the output is still the empty
    file [NamedTemporaryFile] created. *)
Definition detect_done (u0 : list element) (outp : string) (w : world) : Prop :=
  (at_phase u0 Detecting w /\ exists v, fs w !! outp = Some (VideoFile v)) \/
  (stop_after w = None /\ fs w !! outp = Some (RawFile []) /\
   exists msg o, ui w = (u0 ++ o ++ [ErrorBox msg])%list /\ sexec Idle o Detecting).

(** The page elements the machine shows on the way to each phase. *)
Definition ready_elements (f : file) : list element :=
  [InfoBox msg_standardizing; InfoBox msg_processing; VideoPlayer f;
   DownloadButton "Download Processed Video" f "video_with_detections.mp4" "video/mp4"].

Definition trace_shape (q : phase) (o : list element) : Prop :=
  match q with
  | Idle | Uploaded => o = []
  | Transcoding => o = [InfoBox msg_standardizing]
  | Detecting => o = [InfoBox msg_standardizing; InfoBox msg_processing]
  | Ready => exists f, o = ready_elements f
  | Failed => exists pre errs, o = (pre ++ errs)%list /\
      (pre = [] \/ pre = [InfoBox msg_standardizing] \/
       pre = [InfoBox msg_standardizing; InfoBox msg_processing]) /\
      errs <> [] /\ Forall (fun el => is_error_box el = true) errs
  end.

(** ** Lemmas on the machine *)

Lemma sexec_one p o q : sstep p o q -> sexec p o q.
Proof. intros H. change o with ([] ++ o)%list. econstructor; [constructor | exact H]. Qed.

(** The traces of the machine from [Idle], phase by phase: the stages
    come in order, each at most once, and nothing follows [Ready] or
    [Failed]. *)
Lemma sexec_shape o q : sexec Idle o q -> trace_shape q o.
Proof.
  remember Idle as i eqn:Hi. induction 1 as [p|p o q o' r Hx IH Hst]; subst; [reflexivity|].
  specialize (IH eq_refl).
  inversion Hst as [| | |f|p' errs Ht Hne Hall]; subst; simpl in *; try (rewrite IH; reflexivity).
  - exists f. rewrite IH. reflexivity.
  - destruct q; simpl in Ht; try discriminate; exists o, o'; repeat split; auto.
Qed.

(** ** Quiet calls *)

Create HintDb quiet discriminated.

Lemma quiet_ret {A} (a : A) : quiet (ret a).
Proof. intros w. repeat split. Qed.

Lemma quiet_get : quiet get.
Proof. intros w. repeat split. Qed.

Lemma quiet_gets {A} (f : world -> A) : quiet (gets f).
Proof. intros w. repeat split. Qed.

Lemma quiet_raise {A} (e : exn) : is_exception e = true -> quiet (A:=A) (raise e).
Proof. intros He w. repeat split. exact He. Qed.

Lemma quiet_modify (f : world -> world) :
  (forall w, ui (f w) = ui w /\ stop_after (f w) = stop_after w) -> quiet (modify f).
Proof. intros Hf w. destruct (Hf w). repeat split; assumption. Qed.

Lemma quiet_bind {A B} (c : M A) (k : A -> M B) :
  quiet c -> (forall a, quiet (k a)) -> quiet (bind c k).
Proof.
  intros Hc Hk w. unfold bind. destruct (Hc w) as (H1 & H2 & H3).
  destruct (c w) as [[a|e] w']; simpl in *; [|repeat split; assumption].
  destruct (Hk a w') as (K1 & K2 & K3). destruct (k a w') as [r w'']. simpl in *.
  split; [congruence|]. split; [congruence | exact K3].
Qed.

#[export] Hint Resolve quiet_ret quiet_get quiet_gets quiet_bind : quiet.
#[export] Hint Extern 1 (quiet (raise _)) => apply quiet_raise; reflexivity : quiet.
#[export] Hint Extern 1 (quiet (modify _)) => apply quiet_modify; intros; split; reflexivity : quiet.

Ltac quiet_step :=
  match goal with
  | |- quiet (bind _ _) => apply quiet_bind; [|intros ?]
  | |- quiet (if ?b then _ else _) => destruct b
  | |- quiet (match ?x with _ => _ end) => destruct x
  end.

Ltac solve_quiet := repeat first [ solve [eauto with quiet] | quiet_step ].

Lemma write_file_quiet p d : quiet (Os.write_file p d).
Proof. unfold Os.write_file. solve_quiet. Qed.

Lemma named_temporary_file_quiet suf : quiet (Tempfile.named_temporary_file suf).
Proof. unfold Tempfile.named_temporary_file. solve_quiet. Qed.

Lemma path_exists_quiet p : quiet (Os.path_exists p).
Proof. unfold Os.path_exists. solve_quiet. Qed.

Lemma getsize_quiet p : quiet (Os.getsize p).
Proof. unfold Os.getsize. solve_quiet. Qed.

Lemma read_file_quiet p : quiet (Os.read_file p).
Proof. unfold Os.read_file. solve_quiet. Qed.

Section QuietFfmpeg.
Context `{Scaler}.

Lemma subprocess_run_quiet cmd : quiet (subprocess_run cmd).
Proof.
  unfold subprocess_run, exec_program, ffmpeg_exec, Os.write_file. solve_quiet.
Qed.
End QuietFfmpeg.

(** ** Stages of the body *)

Lemma at_phase_frame u0 ph w w' :
  at_phase u0 ph w -> ui w' = ui w -> stop_after w' = stop_after w -> at_phase u0 ph w'.
Proof. intros [Hs (o & Hu & Hx)] Hu' Hs'. split; [congruence|]. exists o. split; [congruence | exact Hx]. Qed.

Lemma at_phase_step u0 ph o' ph' w :
  at_phase u0 ph w -> sstep ph o' ph' -> at_phase u0 ph' (map_ui (fun u => (u ++ o')%list) w).
Proof.
  intros [Hs (o & Hu & Hx)] Hst. split; [exact Hs|]. exists (o ++ o')%list.
  split; [simpl; rewrite Hu, app_assoc; reflexivity | econstructor; eassumption].
Qed.

Lemma at_phase_silent u0 ph ph' w : at_phase u0 ph w -> sstep ph [] ph' -> at_phase u0 ph' w.
Proof.
  intros Hp Hst. apply (at_phase_step _ _ _ _ w Hp) in Hst.
  destruct w; unfold map_ui in Hst; simpl in Hst. rewrite app_nil_r in Hst. exact Hst.
Qed.

Lemma lift_quiet {A} (c : M A) u0 ph :
  quiet c -> terminal ph = false ->
  hoare (fun s => at_phase u0 ph (fst s)) (lift c) (fun _ s => at_phase u0 ph (fst s)) (body_exc u0).
Proof.
  intros Hq Ht [w l] Hp. rewrite lift_run. destruct (Hq w) as (H1 & H2 & H3).
  destruct (c w) as [[a|e] w']; simpl in *; [eapply at_phase_frame; eauto|].
  split; [exact H3|]. exists ph. split; [exact Ht | eapply at_phase_frame; eauto].
Qed.

Lemma lift_emit u0 ph el ph' :
  sstep ph [el] ph' ->
  hoare (fun s => at_phase u0 ph (fst s)) (lift (St.emit el))
        (fun _ s => at_phase u0 ph' (fst s)) (body_exc u0).
Proof.
  intros Hst [w l] Hp. rewrite lift_run, emit_run by apply Hp. simpl.
  exact (at_phase_step _ _ _ _ _ Hp Hst).
Qed.

(** Assignments to the block's locals leave the page alone. *)
Lemma locals_phase u0 ph ph' (f : locals -> locals) :
  (ph' = ph \/ sstep ph [] ph') ->
  hoare (fun s => at_phase u0 ph (fst s)) (modify (fun s => (fst s, f (snd s))))
        (fun _ s => at_phase u0 ph' (fst s)) (body_exc u0).
Proof.
  intros Hph [w l] Hp. simpl. destruct Hph as [->|Hst]; [exact Hp | exact (at_phase_silent _ _ _ _ Hp Hst)].
Qed.

Lemma fold_writer_push_fields gs o :
  wr_opened (fold_left writer_push gs o) = wr_opened o /\
  wr_path (fold_left writer_push gs o) = wr_path o.
Proof.
  revert o. induction gs as [|g gs IH]; intros o; [split; reflexivity|].
  simpl. rewrite (proj1 (IH _)), (proj2 (IH _)).
  unfold writer_push. destruct (frame_fits o g); split; reflexivity.
Qed.

Section Detecting.
Context `{Yolo}.
(** Ultralytics signals a failed inference with an [Exception]. *)
Hypothesis infer_exceptions :
  forall wt sz f e, yolo_infer wt sz f = Exc e -> is_exception e = true.

Lemma render_frames_exc m frames gs e :
  render_frames m frames = (gs, Some e) -> is_exception e = true.
Proof.
  revert gs. induction frames as [|f rest IH]; intros gs; simpl; [discriminate|].
  unfold detect_frame. destruct (yolo_infer _ _ _) as [bs|e'] eqn:Hi.
  - destruct (render_frames m rest) as [gs' err] eqn:Hr. intros [= _ ->]. eapply IH; eauto.
  - intros [= _ <-]. eapply infer_exceptions; eauto.
Qed.

(** [process_video] at the [Detecting] stage, on every branch. *)
Lemma process_video_phases inp outp m u0 :
  hoare (fun w => at_phase u0 Detecting w /\ fs w !! outp = Some (RawFile []))
        (process_video inp outp m) (fun _ => detect_done u0 outp)
        (fun e w => is_exception e = true /\ at_phase u0 Detecting w).
Proof.
  intros w [Hp Hf].
  assert (Herr : forall msg, match St.error msg w with
                             | (Ok _, w') => detect_done u0 outp w'
                             | (Exc e, w') => is_exception e = true /\ at_phase u0 Detecting w'
                             end).
  { intros msg. unfold St.error. rewrite emit_run by apply Hp. right.
    destruct Hp as [Hs (o & Hu & Hx)]. split; [exact Hs|]. split; [exact Hf|].
    exists msg, o. split; [simpl; rewrite Hu, app_assoc; reflexivity | exact Hx]. }
  unfold process_video, Cv2.VideoCapture, bind at 1, gets.
  destruct (fs w !! inp) as [[d|v|v|wt]|] eqn:Hin; cbn [cap_opened negb]; try apply Herr.
  unfold bind at 1. rewrite cv2_videowriter_run.
  destruct (writer_available w && _ && _); cbn [negb wr_opened]; [|apply Herr].
  unfold bind at 1. rewrite detect_loop_run by (simpl; [lia || apply lookup_insert_eq]).
  cbn [cap_pending]. destruct (render_frames m (v_frames v)) as [gs [e|]] eqn:Hr; simpl.
  - split; [eapply render_frames_exc; eauto | eapply at_phase_frame; eauto].
  - destruct (fold_writer_push_fields gs (mkWriter true outp fourcc_mp4v (v_fps v)
                                           (v_width v) (v_height v) [])) as [Ho Hpath].
    cbv [Cv2.release when]. rewrite Ho. simpl. left.
    split; [eapply at_phase_frame; eauto|].
    eexists. simpl in Hpath. rewrite Hpath. apply lookup_insert_eq.
Qed.
End Detecting.

Section Presenting.
Context `{Scaler} `{Yolo}.

Lemma failed_two_errors u0 o msg msg' w :
  stop_after w = None -> sexec Idle o Detecting ->
  ui w = (u0 ++ o ++ [ErrorBox msg; ErrorBox msg'])%list ->
  at_phase u0 Failed w.
Proof.
  intros Hs Hx Hu. split; [exact Hs|]. exists (o ++ [ErrorBox msg; ErrorBox msg'])%list.
  split; [exact Hu|]. econstructor; [exact Hx|].
  apply S_fail; [reflexivity | discriminate | repeat constructor].
Qed.

(** Lines 98-109 after [process_video]: a video leads to [Ready], an
    error already shown leads to [Failed]. *)
Lemma present_phases p u0 :
  hoare (fun s => detect_done u0 p (fst s)) (lift (present p))
        (fun _ s => exists ph, terminal ph = true /\ at_phase u0 ph (fst s)) (body_exc u0).
Proof.
  intros [w l] [[Hp [v Hv]] | (Hs & Hf & msg & o & Hu & Hx)]; cbn [fst] in *; rewrite lift_run; simpl.
  - rewrite (present_ok_run p v w Hv) by apply Hp. simpl. exists Ready.
    split; [reflexivity|]. apply (at_phase_step _ _ _ _ _ Hp (S_ready _)).
  - cbv [present Os.path_exists Os.getsize Os.file_exists bind gets get ret].
    rewrite Hf. simpl. rewrite Hf. simpl. unfold St.error. rewrite emit_run by exact Hs. simpl.
    exists Failed. split; [reflexivity|].
    apply (failed_two_errors u0 o msg "Processing failed to produce a video file.");
      [exact Hs | exact Hx | simpl; rewrite Hu, <- !app_assoc; reflexivity].
Qed.
End Presenting.

Lemma lift_hoare {A} P (c : M A) Q X :
  hoare P c Q X ->
  hoare (fun s => P (fst s)) (lift c) (fun a s => Q a (fst s)) (fun e s => X e (fst s)).
Proof. intros Hc [w l] Hp. rewrite lift_run. specialize (Hc w Hp). destruct (c w) as [[a|e] w']; exact Hc. Qed.

Lemma assign_keeps (P : world -> Prop) (f : locals -> locals) (X : exn -> world * locals -> Prop) :
  hoare (fun s => P (fst s)) (modify (fun s => (fst s, f (snd s)))) (fun _ s => P (fst s)) X.
Proof. intros [w l] Hp. exact Hp. Qed.

(** [NamedTemporaryFile] at a stage: the new path holds the empty file. *)
Lemma named_temporary_file_phase u0 ph suf :
  terminal ph = false ->
  hoare (fun s => at_phase u0 ph (fst s)) (lift (Tempfile.named_temporary_file suf))
        (fun p s => at_phase u0 ph (fst s) /\ fs (fst s) !! p = Some (RawFile [])) (body_exc u0).
Proof.
  intros Ht [w l] Hp. rewrite lift_run.
  destruct (Tempfile.pick (fs w) (tempdir w) Tempfile.template suf (rng w)) as [[p rest]|] eqn:Hpk.
  - rewrite (named_temporary_file_run _ _ _ _ Hpk). simpl.
    split; [eapply at_phase_frame; eauto | apply lookup_insert_eq].
  - cbv [Tempfile.named_temporary_file bind get modify raise]. rewrite Hpk. simpl.
    split; [reflexivity|]. exists ph. split; [exact Ht | eapply at_phase_frame; eauto].
Qed.

Section Body.
Context `{Scaler} `{Yolo}.
Hypothesis infer_exceptions :
  forall wt sz f e, yolo_infer wt sz f = Exc e -> is_exception e = true.

(** The [try] body (lines 69-109) follows the machine from [Idle]: it
    returns at [Ready] or [Failed], or raises an [Exception] at a stage
    that is not terminal. *)
Lemma upload_body_phases model up u0 :
  hoare (fun s => at_phase u0 Idle (fst s)) (upload_body model up)
        (fun _ s => exists ph, terminal ph = true /\ at_phase u0 ph (fst s)) (body_exc u0).
Proof.
  unfold upload_body, assign_input, assign_downscaled, assign_output, St.info.
  eapply hoare_bind; [apply lift_quiet; [apply named_temporary_file_quiet | reflexivity] | intros p1].
  eapply hoare_bind; [apply (locals_phase _ _ Uploaded (fun l => mkLocals (Some p1)
    (downscaled_video_path l) (output_video_path l))); right; constructor | intros []].
  eapply hoare_bind; [apply lift_quiet; [apply write_file_quiet | reflexivity] | intros []].
  eapply hoare_bind; [apply lift_emit; constructor | intros []].
  eapply hoare_bind; [apply lift_quiet; [apply named_temporary_file_quiet | reflexivity] | intros p2].
  eapply hoare_bind; [apply (locals_phase _ _ Transcoding (fun l => mkLocals
    (input_video_path l) (Some p2) (output_video_path l))); left; reflexivity | intros []].
  eapply hoare_bind; [apply lift_quiet; [apply subprocess_run_quiet | reflexivity] | intros r].
  eapply hoare_bind; [apply lift_emit; constructor | intros []].
  eapply hoare_bind; [apply named_temporary_file_phase; reflexivity | intros p3].
  eapply hoare_bind; [apply (assign_keeps (fun w => at_phase u0 Detecting w /\
    fs w !! p3 = Some (RawFile [])) (fun l => mkLocals (input_video_path l)
    (downscaled_video_path l) (Some p3))) | intros []].
  apply hoare_bind with (Q := fun _ s => detect_done u0 p3 (fst s)); [|intros []; apply present_phases].
  eapply hoare_consequence;
    [apply (lift_hoare (fun w => at_phase u0 Detecting w /\ fs w !! p3 = Some (RawFile []))),
           (process_video_phases infer_exceptions) | ..];
    [trivial | trivial | intros e s [He Hp]; split; [exact He | exists Detecting; split; [reflexivity | exact Hp]]].
Qed.
End Body.

Section Handler.
Context `{Scaler} `{Yolo}.

(** The handlers of lines 111-116 enter [Failed] from the stage the body
    raised at. *)
Lemma handler_phases u0 e (X : exn -> world * locals -> Prop) :
  hoare (body_exc u0 e) (upload_handler e)
        (fun _ s => exists ph, terminal ph = true /\ at_phase u0 ph (fst s)) X.
Proof.
  intros [w l] [He (ph & Ht & Hp)]. cbn [fst] in *. unfold upload_handler. rewrite lift_run.
  destruct e as [rc cmd err| | | | |]; try discriminate He.
  1: rewrite (report_error_cpe_run rc cmd err w) by apply Hp; simpl.
  2-5: unfold report_error; simpl; unfold St.error; rewrite emit_run by apply Hp; simpl.
  all: exists Failed; split; [reflexivity|]; apply (at_phase_step _ _ _ _ _ Hp); apply S_fail; [exact Ht | discriminate | repeat constructor].
Qed.
End Handler.

(** The [finally] clause only deletes files: what holds of the page
    still holds after it, and it never raises. *)
Lemma remove_if_exists_shape o w l :
  exists f, remove_if_exists o (w, l) = (Ok tt, (map_fs f w, l)).
Proof.
  destruct o as [p|]; simpl; [|exists id; destruct w; reflexivity].
  destruct (bool_decide _); [exists id; destruct w; reflexivity|].
  unfold bind. rewrite lift_run. simpl. unfold Os.file_exists.
  destruct (fs w !! p) as [f|] eqn:E; simpl; [|exists id; destruct w; reflexivity].
  rewrite lift_run. unfold Os.remove, bind, get. simpl. rewrite E. exists (delete p). reflexivity.
Qed.

Lemma cleanup_keeps (P : world -> Prop) (X : exn -> world * locals -> Prop) :
  (forall f w, P w -> P (map_fs f w)) ->
  hoare (fun s => P (fst s)) cleanup (fun _ s => P (fst s)) X.
Proof.
  intros HP [w l] Hp. cbv [cleanup bind gets]. cbn [fst snd].
  destruct (remove_if_exists_shape (input_video_path l) w l) as [f1 ->].
  cbn [fst snd].
  destruct (remove_if_exists_shape (downscaled_video_path l) (map_fs f1 w) l) as [f2 ->].
  cbn [fst snd].
  destruct (remove_if_exists_shape (output_video_path l) (map_fs f2 (map_fs f1 w)) l) as [f3 ->].
  simpl. apply HP, HP, HP, Hp.
Qed.

Section Refinement.
Context `{Scaler} `{Yolo}.
Hypothesis infer_exceptions :
  forall wt sz f e, yolo_infer wt sz f = Exc e -> is_exception e = true.

Lemma at_phase_map_fs u0 ph f w : at_phase u0 ph w -> at_phase u0 ph (map_fs f w).
Proof. intros Hp. eapply at_phase_frame; [exact Hp | reflexivity | reflexivity]. Qed.

Lemma handle_upload_phases model up w :
  stop_after w = None ->
  match handle_upload model up w with
  | (Ok _, w') => exists ph, terminal ph = true /\ at_phase (ui w) ph w'
  | (Exc _, _) => False
  end.
Proof.
  intros Hs. unfold handle_upload.
  set (T := fun w' => exists ph, terminal ph = true /\ at_phase (ui w) ph w').
  assert (Hh : hoare (fun s => at_phase (ui w) Idle (fst s))
                 (try_finally (try_except (upload_body model up) upload_handler) cleanup)
                 (fun _ s => T (fst s)) (fun _ _ => False)).
  { apply hoare_try_finally with (I := fun r s => match r with Ok _ => T (fst s) | Exc _ => False end).
    - eapply hoare_try_except; [apply (upload_body_phases infer_exceptions) | intros e; apply handler_phases].
    - intros [a|e]; [|intros s []].
      apply cleanup_keeps. intros f w' (ph & Ht & Hp). exists ph. split; [exact Ht | apply at_phase_map_fs, Hp]. }
  assert (Hpre : at_phase (ui w) Idle w)
    by (split; [exact Hs | exists []; split; [rewrite app_nil_r; reflexivity | constructor]]).
  specialize (Hh (w, mkLocals None None None) Hpre).
  destruct (try_finally _ _ _) as [[a|e] [w' l']]; exact Hh.
Qed.
End Refinement.

(** ** What the page shows at the end of a session *)

Lemma failed_shape_verdict o :
  trace_shape Failed o ->
  (exists msg, last o = Some (ErrorBox msg)) /\ forall f, VideoPlayer f ∉ o.
Proof.
  intros (pre & errs & -> & Hpre & Hne & Hall). rewrite Forall_forall in Hall. split.
  - destruct (proj2 (last_is_Some errs) Hne) as [x Hx].
    pose proof (Hall x (last_Some_elem_of _ _ Hx)) as Hb. destruct x as [| |msg| | | | |]; try discriminate Hb.
    exists msg. rewrite last_app, Hx. reflexivity.
  - intros f Hin. apply elem_of_app in Hin as [Hin|Hin].
    + rewrite list_elem_of_In in Hin. destruct Hpre as [->|[->| ->]]; simpl in Hin; intuition discriminate.
    + specialize (Hall _ Hin). discriminate Hall.
Qed.

Lemma ready_player f f' : VideoPlayer f ∈ ready_elements f' -> f = f'.
Proof. rewrite list_elem_of_In. simpl. intuition congruence. Qed.

Section Trace.
Context `{Scaler} `{Yolo}.
Hypothesis infer_exceptions :
  forall wt sz f e, yolo_infer wt sz f = Exc e -> is_exception e = true.

Lemma handle_upload_trace model up w :
  stop_after w = None ->
  (handle_upload model up w).1 = Ok tt /\
  exists o ph, ui (handle_upload model up w).2 = (ui w ++ o)%list /\
               sexec Idle o ph /\ terminal ph = true.
Proof.
  intros Hs. pose proof (handle_upload_phases infer_exceptions model up w Hs) as Hh.
  destruct (handle_upload model up w) as [[[]|e] w']; [|contradiction].
  destruct Hh as (ph & Ht & _ & o & Hu & Hx). split; [reflexivity|]. exists o, ph. auto.
Qed.

Lemma handle_upload_shape model up w :
  stop_after w = None ->
  exists o, ui (handle_upload model up w).2 = (ui w ++ o)%list /\
            ((exists f, o = ready_elements f) \/ trace_shape Failed o).
Proof.
  intros Hs. destruct (handle_upload_trace model up w Hs) as [_ (o & ph & Hu & Hx & Ht)].
  exists o. split; [exact Hu|]. apply sexec_shape in Hx.
  destruct ph; try discriminate Ht; [left | right]; exact Hx.
Qed.
End Trace.

Section Claims.
Context `{Scaler} `{Yolo}.
Hypothesis infer_exceptions :
  forall wt sz f e, yolo_infer wt sz f = Exc e -> is_exception e = true.

(** C7: refinement of the specification's session machine (section 4.4):
    with no rerun or stop request pending, the upload block returns
    normally, and the page elements it adds are a trace of the machine
    from [Idle] to [Ready] or [Failed]. *)
Theorem handle_upload_refines_session model up w :
  stop_after w = None ->
  (handle_upload model up w).1 = Ok tt /\
  exists o ph, ui (handle_upload model up w).2 = (ui w ++ o)%list /\
               sexec Idle o ph /\ terminal ph = true.
Proof. exact (handle_upload_trace infer_exceptions model up w). Qed.

(** C8: every upload reaches a verdict the user sees: the page ends with
    the two progress notes, the player and the download button of one
    video, or it ends with an error box. *)
Theorem handle_upload_reaches_verdict model up w :
  stop_after w = None ->
  exists o, ui (handle_upload model up w).2 = (ui w ++ o)%list /\
            ((exists f, o = ready_elements f) \/ exists msg, last o = Some (ErrorBox msg)).
Proof.
  intros Hs. destruct (handle_upload_shape infer_exceptions model up w Hs) as (o & Hu & [Hr|Hf]).
  - exists o. split; [exact Hu | left; exact Hr].
  - exists o. split; [exact Hu | right; exact (proj1 (failed_shape_verdict o Hf))].
Qed.

(** C18: the stages are ordered and the verdicts exclusive: when an
    upload shows a video player, what it added to the page is exactly
    the two progress notes, that player and the download button of the
    same bytes (no error box, nothing repeated). *)
Theorem handle_upload_video_only_when_ready model up w o f :
  stop_after w = None ->
  ui (handle_upload model up w).2 = (ui w ++ o)%list ->
  VideoPlayer f ∈ o -> o = ready_elements f.
Proof.
  intros Hs Hu Hin. destruct (handle_upload_shape infer_exceptions model up w Hs) as (o' & Hu' & Hsh).
  rewrite Hu in Hu'. apply app_inv_head in Hu'. subst o'.
  destruct Hsh as [[f' ->]|Hf]; [rewrite (ready_player _ _ Hin); reflexivity|].
  exfalso. exact (proj2 (failed_shape_verdict o Hf) f Hin).
Qed.
End Claims.

(** ** Witnesses: a landscape video, and an upload that is not a video *)

Lemma handle_upload_refines_session_witness :
  let up := UploadedFile "street.mov" (VideoFile (sample_video 1920 1080 2)) in
  stop_after sample_world = None /\
  (@handle_upload scaler_relabel yolo_two_boxes (YOLO_ "best.pt" 7) up sample_world).1 = Ok tt /\
  exists o ph, ui (@handle_upload scaler_relabel yolo_two_boxes (YOLO_ "best.pt" 7) up sample_world).2
               = (ui sample_world ++ o)%list /\ sexec Idle o ph /\ terminal ph = true.
Proof.
  intros up. split; [reflexivity|].
  exact (@handle_upload_refines_session scaler_relabel yolo_two_boxes
           (fun wt sz f e Hi => ltac:(discriminate Hi)) (YOLO_ "best.pt" 7) up sample_world eq_refl).
Defined.

Lemma handle_upload_reaches_verdict_witness :
  let up := UploadedFile "notes.avi" (RawFile [Byte.x00]) in
  stop_after sample_world = None /\
  exists o, ui (@handle_upload scaler_relabel yolo_two_boxes (YOLO_ "best.pt" 7) up sample_world).2
            = (ui sample_world ++ o)%list /\
            ((exists f, o = ready_elements f) \/ exists msg, last o = Some (ErrorBox msg)).
Proof.
  intros up. split; [reflexivity|].
  exact (@handle_upload_reaches_verdict scaler_relabel yolo_two_boxes
           (fun wt sz f e Hi => ltac:(discriminate Hi)) (YOLO_ "best.pt" 7) up sample_world eq_refl).
Defined.

Lemma handle_upload_video_only_when_ready_witness :
  let up := UploadedFile "street.mov" (VideoFile (sample_video 1920 1080 2)) in
  let out := VideoFile (mkVideo 1280 720 30 fourcc_mp4v
               [mkFrame 1280 720 [0; 1]; mkFrame 1280 720 [1; 1]]) in
  ui (@handle_upload scaler_relabel yolo_two_boxes (YOLO_ "best.pt" 7) up sample_world).2
    = (ui sample_world ++ ready_elements out)%list /\
  VideoPlayer out ∈ ready_elements out /\
  ready_elements out = ready_elements out.
Proof.
  intros up out.
  assert (Hu : ui (@handle_upload scaler_relabel yolo_two_boxes (YOLO_ "best.pt" 7) up sample_world).2
               = (ui sample_world ++ ready_elements out)%list) by (vm_compute; reflexivity).
  assert (Hin : VideoPlayer out ∈ ready_elements out)
    by (rewrite list_elem_of_In; simpl; tauto).
  split; [exact Hu|]. split; [exact Hin|].
  exact (@handle_upload_video_only_when_ready scaler_relabel yolo_two_boxes
           (fun wt sz f e Hi => ltac:(discriminate Hi)) (YOLO_ "best.pt" 7) up sample_world
           _ out eq_refl Hu Hin).
Defined.
