(* ===== verification/Output.v ===== *)
(** * Output: what a session that reaches [Ready] shows

    The page of a session that reaches [Ready] holds a video player
    (lines 100-101 of src/deploy.py).  This file follows the data through
    the upload block (the upload at the first temporary path, FFmpeg's
    output at the second, [process_video]'s output at the third) and
    proves that the player always shows the upload normalised by FFmpeg
    and annotated frame by frame, in every world: whatever the temporary
    names, the tools, the model and the rerun or stop request pending (a
    request may end the block before or after the player, never change
    what the player shows).  The specification's first and third
    testable properties (frame count preserved; idempotence) follow. *)

From S2P Require Import Prelude World Transcoder Detection ModelLoader Orchestrator Session.

(** ** The reference output *)

Section Reference.
Context `{Scaler} `{Yolo}.

(** The upload normalised to [scale_dims] of its size, each frame
    annotated by the model, in an mp4v container at the upload's rate. *)
Definition expected_output (model : yolo_handle) (v : video) : video :=
  let '(ow, oh) := scale_dims (v_width v) (v_height v) in
  mkVideo ow oh (v_fps v) fourcc_mp4v (render_frames model (v_frames (transcode ow oh v))).1.

(** Every inference on the normalised upload succeeds. *)
Definition renders_fully (model : yolo_handle) (v : video) : Prop :=
  (render_frames model (v_frames (transcode (scale_dims (v_width v) (v_height v)).1
                                            (scale_dims (v_width v) (v_height v)).2 v))).2 = None.
End Reference.

(** ** Invariants of the block *)

(** No player was added to the page since [u0]. *)
Definition no_player (u0 : list element) (w : world) : Prop :=
  exists o, ui w = (u0 ++ o)%list /\ forall f, VideoPlayer f ∉ o.

(** Every player added since [u0] shows the reference output of the upload. *)
Definition player_ok `{Scaler} `{Yolo} (u0 : list element) (up : uploaded_file)
    (model : yolo_handle) (w : world) : Prop :=
  exists o, ui w = (u0 ++ o)%list /\
    forall f, VideoPlayer f ∈ o ->
      exists v, up_data up = VideoFile v /\ f = VideoFile (expected_output model v) /\
                renders_fully model v.

(** After FFmpeg: the upload is a video and its normalised copy is at [p2]. *)
Definition normalised_at `{Scaler} (up : uploaded_file) (p2 : string) (w : world) : Prop :=
  exists v ow oh, up_data up = VideoFile v /\ scale_dims (v_width v) (v_height v) = (ow, oh) /\
                  0 < ow /\ 0 < oh /\ fs w !! p2 = Some (VideoFile (transcode ow oh v)).

(** After [process_video]: the reference output at [p3], or the empty file. *)
Definition detected_at `{Scaler} `{Yolo} (up : uploaded_file) (model : yolo_handle) (p3 : string)
    (w : world) : Prop :=
  (exists v, up_data up = VideoFile v /\ renders_fully model v /\
             fs w !! p3 = Some (VideoFile (expected_output model v))) \/
  fs w !! p3 = Some (RawFile []).

(** ** Lemmas on the invariants *)

Lemma no_player_frame u0 w w' : no_player u0 w -> ui w' = ui w -> no_player u0 w'.
Proof. intros (o & Hu & Hn) Hu'. exists o. split; [congruence | exact Hn]. Qed.

Lemma no_player_emit u0 els w :
  no_player u0 w -> (forall f, VideoPlayer f ∉ els) ->
  no_player u0 (map_ui (fun u => (u ++ els)%list) w).
Proof.
  intros (o & Hu & Hn) Hels. exists (o ++ els)%list.
  split; [simpl; rewrite Hu, app_assoc; reflexivity|].
  intros f Hf. apply elem_of_app in Hf as [Hf|Hf]; [exact (Hn f Hf) | exact (Hels f Hf)].
Qed.

Lemma not_player_single el : (forall f, el <> VideoPlayer f) -> forall f, VideoPlayer f ∉ [el].
Proof. intros Hel f Hf. apply list_elem_of_singleton in Hf. exact (Hel f (eq_sym Hf)). Qed.

Lemma no_player_emit1 u0 el : (forall f, el <> VideoPlayer f) -> preserves (no_player u0) (St.emit el).
Proof. intros Hel. apply emit_page. intros w Hw. exact (no_player_emit u0 [el] w Hw (not_player_single el Hel)). Qed.

Section Steps.
Context `{Scaler} `{Yolo}.

Lemma no_player_ok u0 up model w : no_player u0 w -> player_ok u0 up model w.
Proof. intros (o & Hu & Hn). exists o. split; [exact Hu|]. intros f Hf. exfalso. exact (Hn f Hf). Qed.

Lemma player_ok_app u0 up model els w :
  player_ok u0 up model w ->
  (forall f, VideoPlayer f ∈ els ->
     exists v, up_data up = VideoFile v /\ f = VideoFile (expected_output model v) /\ renders_fully model v) ->
  player_ok u0 up model (map_ui (fun u => (u ++ els)%list) w).
Proof.
  intros (o & Hu & Ho) Hels. exists (o ++ els)%list.
  split; [simpl; rewrite Hu, app_assoc; reflexivity|].
  intros f Hf. apply elem_of_app in Hf as [Hf|Hf]; [exact (Ho f Hf) | exact (Hels f Hf)].
Qed.

Lemma player_ok_emit u0 up model el :
  (forall f, el <> VideoPlayer f) -> preserves (player_ok u0 up model) (St.emit el).
Proof.
  intros Hel. apply emit_page. intros w Hw. apply player_ok_app; [exact Hw|].
  intros f Hf. exfalso. exact (not_player_single el Hel f Hf).
Qed.

(** [NamedTemporaryFile] on every branch. *)
Lemma named_temporary_file_cases suf w :
  match Tempfile.named_temporary_file suf w with
  | (Ok p, w') => fs w !! p = None /\ fs w' = <[p := RawFile []]> (fs w) /\
                  ui w' = ui w /\ stop_after w' = stop_after w
  | (Exc _, w') => ui w' = ui w /\ stop_after w' = stop_after w
  end.
Proof.
  destruct (Tempfile.pick (fs w) (tempdir w) Tempfile.template suf (rng w)) as [[p rest]|] eqn:Hp.
  - rewrite (named_temporary_file_run _ _ _ _ Hp). split; [exact (proj1 (pick_spec _ _ _ _ _ _ _ Hp))|].
    repeat split.
  - cbv [Tempfile.named_temporary_file bind get modify raise]. rewrite Hp. split; reflexivity.
Qed.

(** The temporary file of a stage, with what the stage must keep. *)
Lemma named_temporary_file_step u0 suf (P : world -> Prop) (Q : string -> world -> Prop) :
  (forall w p w', no_player u0 w -> P w -> fs w !! p = None -> fs w' = <[p := RawFile []]> (fs w) ->
     ui w' = ui w -> stop_after w' = stop_after w -> Q p w') ->
  hoare (fun s => no_player u0 (fst s) /\ P (fst s)) (lift (Tempfile.named_temporary_file suf))
        (fun p s => no_player u0 (fst s) /\ Q p (fst s)) (fun _ s => no_player u0 (fst s)).
Proof.
  intros HQ [w l] [Hn Hp]. rewrite lift_run. pose proof (named_temporary_file_cases suf w) as Hc.
  destruct (Tempfile.named_temporary_file suf w) as [[p|e] w']; simpl in *.
  - destruct Hc as (Hfree & Hfs & Hu & Hs). split; [eapply no_player_frame; eauto | eapply HQ; eauto].
  - destruct Hc as [Hu Hs]. eapply no_player_frame; eauto.
Qed.

(** A progress note keeps every fact about the files. *)
Lemma info_step u0 msg (P : world -> Prop) :
  (forall w w', P w -> fs w' = fs w -> P w') ->
  hoare (fun s => no_player u0 (fst s) /\ P (fst s)) (lift (St.info msg))
        (fun _ s => no_player u0 (fst s) /\ P (fst s)) (fun _ s => no_player u0 (fst s)).
Proof.
  intros HP [w l] [Hn Hp]. rewrite lift_run. unfold St.info, St.emit, bind, get, modify, raise.
  destruct (bool_decide _); simpl; [exact Hn|].
  split; [apply no_player_emit; [exact Hn | apply not_player_single; discriminate] | eapply HP; eauto].
Qed.

(** FFmpeg at the [Transcoding] stage: on success the normalised upload is
    at the output path. *)
Lemma ffmpeg_step u0 up p1 p2 :
  hoare (fun s => no_player u0 (fst s) /\ fs (fst s) !! p1 = Some (up_data up) /\ p2 <> p1)
        (lift (subprocess_run (ffmpeg_command p1 p2)))
        (fun _ s => no_player u0 (fst s) /\ normalised_at up p2 (fst s))
        (fun _ s => no_player u0 (fst s)).
Proof.
  intros [w l] (Hn & Hp1 & Hne). cbn [fst] in *. rewrite lift_run, subprocess_ffmpeg_run, Hp1.
  destruct (ffmpeg_installed w); [|exact Hn].
  destruct (up_data up) as [d|v|v|wt] eqn:Hd; try exact Hn.
  destruct (scale_dims (v_width v) (v_height v)) as [ow oh] eqn:Hsd.
  destruct ((0 <? ow) && (0 <? oh)) eqn:Hpos; [|exact Hn].
  apply andb_true_iff in Hpos as [Hw Hh]. apply Z.ltb_lt in Hw, Hh. simpl.
  split; [eapply no_player_frame; eauto|].
  exists v, ow, oh. repeat split; auto. apply lookup_insert_eq.
Qed.
End Steps.

Section DetectStep.
Context `{Scaler} `{Yolo}.

(** [process_video] on the normalised upload: the reference output at the
    output path, or an error box and the output still empty. *)
Lemma process_video_output u0 up model p2 p3 :
  hoare (fun w => no_player u0 w /\ normalised_at up p2 w /\ fs w !! p3 = Some (RawFile []) /\ p3 <> p2)
        (process_video p2 p3 model)
        (fun _ w => no_player u0 w /\ detected_at up model p3 w) (fun _ w => no_player u0 w).
Proof.
  intros w (Hn & (v & ow & oh & Hd & Hsd & Hw & Hh & Hp2) & Hp3 & Hne).
  assert (Herr : forall msg, match St.error msg w with
                             | (Ok _, w') => no_player u0 w' /\ detected_at up model p3 w'
                             | (Exc _, w') => no_player u0 w'
                             end).
  { intros msg. unfold St.error, St.emit, bind, get, modify, raise.
    destruct (bool_decide _); simpl; [exact Hn|].
    split; [apply no_player_emit; [exact Hn | apply not_player_single; discriminate] | right; exact Hp3]. }
  unfold process_video, Cv2.VideoCapture, bind at 1, gets. rewrite Hp2.
  cbn [cap_opened negb cap_width cap_height cap_fps cap_pending].
  unfold bind at 1. rewrite cv2_videowriter_run.
  change (v_width (transcode ow oh v)) with ow. change (v_height (transcode ow oh v)) with oh.
  change (v_fps (transcode ow oh v)) with (v_fps v).
  pose proof Hw as Hw'. pose proof Hh as Hh'. apply Z.ltb_lt in Hw', Hh'. rewrite Hw', Hh'.
  destruct (writer_available w); cbn [andb negb wr_opened]; [|apply Herr].
  unfold bind at 1. rewrite detect_loop_run by (simpl; [lia || apply lookup_insert_eq]).
  cbn [cap_pending wr_path].
  destruct (render_frames model (v_frames (transcode ow oh v))) as [gs [e|]] eqn:Hr; cbn [fst snd].
  - eapply no_player_frame; [exact Hn | reflexivity].
  - rewrite fold_writer_push_fit by (eapply (rendered_frames_fit model (transcode ow oh v)); eauto using transcode_wf).
    cbv [Cv2.release when Os.write_file modify]. cbn [wr_opened]. simpl.
    split; [eapply no_player_frame; [exact Hn | reflexivity]|].
    left. exists v. split; [exact Hd|].
    unfold renders_fully, expected_output. rewrite Hsd. cbn [fst snd]. rewrite Hr.
    split; [reflexivity | apply lookup_insert_eq].
Qed.
End DetectStep.

Section Body.
Context `{Scaler} `{Yolo}.

(** Lines 98-109: the player shows the file at the output path.  A stop
    request may end the statement before the player or between the player
    and the download button; every player on the page is still right. *)
Lemma present_output u0 up model p3 :
  hoare (fun s => no_player u0 (fst s) /\ detected_at up model p3 (fst s)) (lift (present p3))
        (fun _ s => player_ok u0 up model (fst s)) (fun _ s => player_ok u0 up model (fst s)).
Proof.
  intros [w l] [Hn [(v & Hd & Hren & Hp) | Hp]]; cbn [fst] in *; rewrite lift_run.
  - assert (Hv : player_ok u0 up model
                   (map_ui (fun u => (u ++ [VideoPlayer (VideoFile (expected_output model v))])%list) w)).
    { apply player_ok_app; [apply no_player_ok, Hn|]. intros f Hf.
      apply list_elem_of_singleton in Hf. injection Hf as ->. eauto. }
    cbv [present Os.path_exists Os.getsize Os.read_file Os.file_exists bind gets get ret].
    rewrite Hp. simpl. rewrite Hp. unfold St.video, St.download_button. simpl. rewrite Hp.
    unfold St.emit, bind, get, modify, raise.
    destruct (bool_decide _); simpl; [apply no_player_ok, Hn|].
    destruct (bool_decide _); simpl; [exact Hv|].
    apply player_ok_app; [exact Hv|]. intros f Hf. apply list_elem_of_singleton in Hf. discriminate.
  - cbv [present Os.path_exists Os.getsize Os.file_exists bind gets get ret].
    rewrite Hp. simpl. rewrite Hp. simpl. unfold St.error.
    pose proof (no_player_emit1 u0 (ErrorBox "Processing failed to produce a video file.")
                  ltac:(intros ? [=]) w Hn) as Hn'.
    destruct (St.emit _ w) as [[[]|e] w']; simpl in *; apply no_player_ok, Hn'.
Qed.

(** An exception raised before the player keeps the page without one. *)
Lemma hoare_exc_ok {A} u0 up model P (c : MS A) Q :
  hoare P c Q (fun _ s => no_player u0 (fst s)) ->
  hoare P c Q (fun _ s => player_ok u0 up model (fst s)).
Proof.
  intros Hc s Hs. specialize (Hc s Hs). destruct (c s) as [[a|e] s']; [exact Hc | apply no_player_ok, Hc].
Qed.

(** The [try] body: every player it shows shows the reference output. *)
Lemma upload_body_output model up u0 :
  hoare (fun s => no_player u0 (fst s)) (upload_body model up)
        (fun _ s => player_ok u0 up model (fst s)) (fun _ s => player_ok u0 up model (fst s)).
Proof.
  unfold upload_body, assign_input, assign_downscaled, assign_output.
  eapply hoare_pre with (P := fun s => no_player u0 (fst s) /\ True); [|intros s Hs; split; [exact Hs | exact I]].
  eapply hoare_bind; [apply hoare_exc_ok, (named_temporary_file_step u0 _ (fun _ => True) (fun _ _ => True)); auto | intros p1].
  eapply hoare_bind; [apply (assign_keeps (fun w => no_player u0 w /\ True) (fun l => mkLocals (Some p1)
    (downscaled_video_path l) (output_video_path l))) | intros []].
  apply hoare_bind with (Q := fun _ s => no_player u0 (fst s) /\ fs (fst s) !! p1 = Some (up_data up)).
  { intros [w l] [Hn _]. rewrite lift_run. simpl. split; [eapply no_player_frame; eauto | apply lookup_insert_eq]. }
  intros []. eapply hoare_bind; [apply hoare_exc_ok, (info_step u0 _ (fun w => fs w !! p1 = Some (up_data up)));
    intros w w' Hp E; rewrite E; exact Hp | intros []].
  eapply hoare_bind;
    [apply hoare_exc_ok, (named_temporary_file_step u0 _ (fun w => fs w !! p1 = Some (up_data up))
              (fun p2 w => fs w !! p1 = Some (up_data up) /\ p2 <> p1))
    | intros p2].
  { intros w p w' _ Hp Hfree Hfs _ _. assert (Hne : p <> p1) by (intros ->; congruence).
    split; [rewrite Hfs, lookup_insert_ne by congruence; exact Hp | exact Hne]. }
  eapply hoare_bind; [apply (assign_keeps (fun w => no_player u0 w /\ fs w !! p1 = Some (up_data up) /\ p2 <> p1)
    (fun l => mkLocals (input_video_path l) (Some p2) (output_video_path l))) | intros []].
  eapply hoare_bind; [apply hoare_exc_ok, ffmpeg_step | intros r].
  eapply hoare_bind; [apply hoare_exc_ok, (info_step u0 _ (normalised_at up p2));
    intros w w' Hp E; unfold normalised_at in *; rewrite E; exact Hp | intros []].
  eapply hoare_bind;
    [apply hoare_exc_ok, (named_temporary_file_step u0 _ (normalised_at up p2)
              (fun p3 w => normalised_at up p2 w /\ fs w !! p3 = Some (RawFile []) /\ p3 <> p2))
    | intros p3].
  { intros w p w' _ (v & ow & oh & Hd & Hsd & Hw & Hh & Hp2) Hfree Hfs _ _.
    assert (Hne : p <> p2) by (intros ->; congruence).
    split; [exists v, ow, oh; rewrite Hfs, lookup_insert_ne by congruence; auto|].
    split; [rewrite Hfs; apply lookup_insert_eq | exact Hne]. }
  eapply hoare_bind; [apply (assign_keeps (fun w => no_player u0 w /\ (normalised_at up p2 w /\
    fs w !! p3 = Some (RawFile []) /\ p3 <> p2)) (fun l => mkLocals (input_video_path l)
    (downscaled_video_path l) (Some p3))) | intros []].
  apply hoare_bind with (Q := fun _ s => no_player u0 (fst s) /\ detected_at up model p3 (fst s));
    [|intros []; apply present_output].
  eapply hoare_pre; [apply hoare_exc_ok, (lift_hoare (fun w => no_player u0 w /\ normalised_at up p2 w /\
                                 fs w !! p3 = Some (RawFile []) /\ p3 <> p2) _
                              (fun _ w => no_player u0 w /\ detected_at up model p3 w)
                              (fun _ w => no_player u0 w)), process_video_output|].
  intros s (Hn & Hna & Hp3 & Hne). auto.
Qed.
End Body.

Section Top.
Context `{Scaler} `{Yolo}.

(** The handlers show error boxes only. *)
Lemma report_error_player_ok u0 up model e : preserves (player_ok u0 up model) (report_error e).
Proof.
  unfold report_error, St.error.
  repeat first [ solve [eauto with pym] | preserves_step | apply player_ok_emit; intros ? [=] ].
Qed.

Lemma handler_output u0 up model e :
  hoare (fun s => player_ok u0 up model (fst s)) (upload_handler e)
        (fun _ s => player_ok u0 up model (fst s)) (fun _ s => player_ok u0 up model (fst s)).
Proof.
  intros [w l] Hp. cbn [fst] in *. unfold upload_handler. rewrite lift_run.
  pose proof (report_error_player_ok u0 up model e w Hp) as Hr.
  destruct (report_error e w) as [[[]|e'] w']; exact Hr.
Qed.

Lemma handle_upload_output model up w :
  player_ok (ui w) up model (handle_upload model up w).2.
Proof.
  unfold handle_upload.
  assert (Hh : hoare (fun s => no_player (ui w) (fst s))
                 (try_finally (try_except (upload_body model up) upload_handler) cleanup)
                 (fun _ s => player_ok (ui w) up model (fst s))
                 (fun _ s => player_ok (ui w) up model (fst s))).
  { apply hoare_try_finally with (I := fun _ s => player_ok (ui w) up model (fst s)).
    - eapply hoare_try_except; [apply upload_body_output | intros e]. apply handler_output.
    - intros r. eapply hoare_consequence;
        [apply (cleanup_keeps (player_ok (ui w) up model)); intros f w' (o & Hu & Ho);
         exists o; split; [exact Hu | exact Ho] | trivial | ..].
      + intros a s Hp. destruct r; exact Hp.
      + intros e s Hx. exact Hx.
  }
  assert (Hpre : no_player (ui w) w)
    by (exists []; split; [rewrite app_nil_r; reflexivity | intros f Hf; inversion Hf]).
  specialize (Hh (w, mkLocals None None None) Hpre).
  destruct (try_finally _ _ _) as [[a|e] [w' l']]; exact Hh.
Qed.

Lemma expected_output_length model v :
  renders_fully model v -> length (v_frames (expected_output model v)) = length (v_frames v).
Proof.
  unfold renders_fully, expected_output. destruct (scale_dims _ _) as [ow oh]. cbn [fst snd].
  destruct (render_frames model (v_frames (transcode ow oh v))) as [gs err] eqn:Hr.
  simpl. intros ->. rewrite (render_frames_ok_length _ _ _ Hr). unfold transcode. simpl. apply length_map.
Qed.

Lemma handle_upload_player model up w o f :
  ui (handle_upload model up w).2 = (ui w ++ o)%list -> VideoPlayer f ∈ o ->
  exists v, up_data up = VideoFile v /\ f = VideoFile (expected_output model v) /\ renders_fully model v.
Proof.
  intros Hu Hf. destruct (handle_upload_output model up w) as (o' & Hu' & Ho).
  rewrite Hu in Hu'. apply app_inv_head in Hu'. subst o'. exact (Ho f Hf).
Qed.
End Top.

Section Claims.
Context `{Scaler} `{Yolo}.

(** C5: functional correctness of the [Ready] path, in every world and
    whatever rerun or stop request is pending: a
    video player shown by an upload shows the uploaded video normalised
    to [scale_dims] of its size, each frame annotated by the model, at
    the upload's frame rate, in an mp4v container, with exactly as many
    frames as the upload (no frame dropped or duplicated). *)
Theorem handle_upload_ready_output model up w o f :
  ui (handle_upload model up w).2 = (ui w ++ o)%list -> VideoPlayer f ∈ o ->
  exists v, up_data up = VideoFile v /\ f = VideoFile (expected_output model v) /\
            length (v_frames (expected_output model v)) = length (v_frames v).
Proof.
  intros Hu Hf. destruct (handle_upload_player model up w o f Hu Hf) as (v & Hd & -> & Hr).
  exists v. split; [exact Hd|]. split; [reflexivity | exact (expected_output_length model v Hr)].
Qed.

(** C10: idempotence (specification, section 8): two uploads of the same
    bytes with the same model, in any two worlds (other temporary names,
    other files on disk, other pending requests), that both show a video
    show the same video: the
    reference output of the upload. *)
Theorem handle_upload_idempotent model up w1 w2 o1 o2 f1 f2 :
  ui (handle_upload model up w1).2 = (ui w1 ++ o1)%list -> VideoPlayer f1 ∈ o1 ->
  ui (handle_upload model up w2).2 = (ui w2 ++ o2)%list -> VideoPlayer f2 ∈ o2 ->
  f1 = f2 /\ exists v, up_data up = VideoFile v /\ f1 = VideoFile (expected_output model v).
Proof.
  intros Hu1 Hf1 Hu2 Hf2.
  destruct (handle_upload_player model up w1 o1 f1 Hu1 Hf1) as (v1 & Hd1 & -> & _).
  destruct (handle_upload_player model up w2 o2 f2 Hu2 Hf2) as (v2 & Hd2 & -> & _).
  rewrite Hd1 in Hd2. injection Hd2 as ->. split; [reflexivity | eauto].
Qed.
End Claims.

(** ** Witnesses: a 1920x1080 upload, in two worlds with other temporary names *)

Definition street_upload : uploaded_file :=
  UploadedFile "street.mov" (VideoFile (sample_video 1920 1080 2)).

Definition street_output : file :=
  VideoFile (mkVideo 1280 720 30 fourcc_mp4v [mkFrame 1280 720 [0; 1]; mkFrame 1280 720 [1; 1]]).

Lemma handle_upload_ready_output_witness :
  ui (@handle_upload scaler_relabel yolo_two_boxes (YOLO_ "best.pt" 7) street_upload sample_world).2
    = (ui sample_world ++ ready_elements street_output)%list /\
  VideoPlayer street_output ∈ ready_elements street_output /\
  exists v, up_data street_upload = VideoFile v /\
            street_output = VideoFile (@expected_output scaler_relabel yolo_two_boxes (YOLO_ "best.pt" 7) v) /\
            length (v_frames (@expected_output scaler_relabel yolo_two_boxes (YOLO_ "best.pt" 7) v))
              = length (v_frames v).
Proof.
  assert (Hu : ui (@handle_upload scaler_relabel yolo_two_boxes (YOLO_ "best.pt" 7) street_upload sample_world).2
               = (ui sample_world ++ ready_elements street_output)%list) by (vm_compute; reflexivity).
  assert (Hin : VideoPlayer street_output ∈ ready_elements street_output)
    by (rewrite list_elem_of_In; simpl; tauto).
  split; [exact Hu|]. split; [exact Hin|].
  exact (@handle_upload_ready_output scaler_relabel yolo_two_boxes (YOLO_ "best.pt" 7) street_upload
           sample_world _ _ Hu Hin).
Defined.

Lemma handle_upload_idempotent_witness :
  let w2 := set_rng ["q1"; "q2"; "q3"] (map_fs (<["/tmp/notes.txt" := RawFile []]>) sample_world) in
  ui (@handle_upload scaler_relabel yolo_two_boxes (YOLO_ "best.pt" 7) street_upload sample_world).2
    = (ui sample_world ++ ready_elements street_output)%list /\
  ui (@handle_upload scaler_relabel yolo_two_boxes (YOLO_ "best.pt" 7) street_upload w2).2
    = (ui w2 ++ ready_elements street_output)%list /\
  street_output = street_output /\
  exists v, up_data street_upload = VideoFile v /\
            street_output = VideoFile (@expected_output scaler_relabel yolo_two_boxes (YOLO_ "best.pt" 7) v).
Proof.
  intros w2.
  assert (Hu1 : ui (@handle_upload scaler_relabel yolo_two_boxes (YOLO_ "best.pt" 7) street_upload sample_world).2
                = (ui sample_world ++ ready_elements street_output)%list) by (vm_compute; reflexivity).
  assert (Hu2 : ui (@handle_upload scaler_relabel yolo_two_boxes (YOLO_ "best.pt" 7) street_upload w2).2
                = (ui w2 ++ ready_elements street_output)%list) by (vm_compute; reflexivity).
  assert (Hin : VideoPlayer street_output ∈ ready_elements street_output)
    by (rewrite list_elem_of_In; simpl; tauto).
  split; [exact Hu1|]. split; [exact Hu2|].
  exact (@handle_upload_idempotent scaler_relabel yolo_two_boxes (YOLO_ "best.pt" 7) street_upload
           sample_world w2 _ _ _ _ Hu1 Hin Hu2 Hin).
Defined.
