(* ===== verification/Server.v ===== *)
(** * Server: the script as Streamlit runs it, session after session

    Lines 127-128 of src/deploy.py run [main] when the file is executed as
    [__main__], which is how Streamlit runs it on every interaction of
    every browser session.  A script run starts on a fresh page with the
    session's widget value; the process state (files on disk, the
    [st.cache_resource] store) is shared by all runs.  Streamlit's script
    runner catches whatever a run raises and goes on serving.  Script runs
    are taken whole: the interleaving of two runs inside the same process
    (Streamlit runs sessions on threads) is not modelled. *)

From S2P Require Import Prelude World Transcoder Detection ModelLoader Orchestrator.

Section Server.
Context `{Scaler} `{Yolo}.

(** Lines 127-128. *)
Definition script : M unit := main.

(** The state a script run starts in: an empty page, the session's
    uploader value, no pending stop request. *)
Definition new_page (up : option uploaded_file) (w : world) : world :=
  {| fs := fs w; ui := []; tempdir := tempdir w; rng := rng w; cache := cache w;
     ffmpeg_installed := ffmpeg_installed w; writer_available := writer_available w;
     widget_upload := up; stop_after := None |}.

Definition session_run (up : option uploaded_file) : M unit :=
  modify (new_page up) ;; script.

(** Script runs one after the other, each with its session's upload. *)
Fixpoint serve (runs : list (option uploaded_file)) : M unit :=
  match runs with
  | [] => ret tt
  | up :: rest => try_except (session_run up) (fun _ => ret tt) ;; serve rest
  end.
End Server.

(** At most one model, the one of [best.pt], is kept, under its path. *)
Definition cache_keys_ok (c : gmap string yolo_handle) : Prop :=
  forall p, is_Some (c !! p) -> p = model_path.

(** ** Facts the upload block cannot change *)

(** A fact about the world that the files and [tempfile]'s name generator
    do not affect, and that every [st.*] call keeps, is kept by every
    library call of the block: the cache, the tools, the stop request, or
    the whole page once a stop request is due. *)
Section Frame.
Context `{Scaler} `{Yolo}.
Variable P : world -> Prop.
Hypothesis P_emit : forall el, preserves P (St.emit el).
Hypothesis P_fs : forall f w, P w -> P (map_fs f w).
Hypothesis P_rng : forall r w, P w -> P (set_rng r w).

#[local] Hint Extern 1 (preserves _ (modify _)) =>
  apply preserves_modify; intros ? ?; cbv beta;
  repeat first [apply P_fs | apply P_rng]; assumption : pym.
#[local] Hint Resolve P_emit : pym.

Lemma lift_preserves {A} (Q : world -> Prop) (c : M A) :
  preserves Q c -> preserves (fun s => Q (fst s)) (lift c).
Proof. intros Hc [w l] Hw. rewrite lift_run. exact (Hc w Hw). Qed.

Lemma named_temporary_file_frame suf : preserves P (Tempfile.named_temporary_file suf).
Proof. unfold Tempfile.named_temporary_file. solve_preserves. Qed.

Lemma subprocess_run_frame cmd : preserves P (subprocess_run cmd).
Proof. unfold subprocess_run, exec_program, ffmpeg_exec, Os.write_file. solve_preserves. Qed.

Lemma detect_loop_frame fuel m cap out : preserves P (detect_loop fuel m cap out).
Proof.
  revert cap out. induction fuel as [|fuel IH]; intros cap out; simpl; [solve_preserves|].
  destruct (cap_read cap) as [[frm|] cap']; [|solve_preserves].
  unfold predict, py_index, Cv2.write, Os.write_file. solve_preserves.
Qed.

#[local] Hint Resolve named_temporary_file_frame subprocess_run_frame detect_loop_frame : pym.

Lemma process_video_frame inp outp m : preserves P (process_video inp outp m).
Proof.
  unfold process_video, Cv2.VideoCapture, Cv2.VideoWriter, Cv2.release, Os.write_file, St.error.
  solve_preserves.
Qed.

Lemma present_frame p : preserves P (present p).
Proof.
  unfold present, Os.path_exists, Os.getsize, Os.read_file, St.video, St.download_button, St.error.
  solve_preserves.
Qed.

Lemma report_error_frame e : preserves P (report_error e).
Proof. unfold report_error, St.error. solve_preserves. Qed.

Lemma remove_if_exists_frame o : preserves (fun s => P (fst s)) (remove_if_exists o).
Proof.
  unfold remove_if_exists, Os.path_exists, Os.remove.
  repeat first [ solve [eauto with pym] | preserves_step | apply lift_preserves ].
Qed.

#[local] Hint Resolve process_video_frame present_frame report_error_frame : pym.

Lemma handle_upload_frame model up : preserves P (handle_upload model up).
Proof.
  intros w Hw. unfold handle_upload.
  assert (Hc : preserves (fun s => P (fst s))
                 (try_finally (try_except (upload_body model up) upload_handler) cleanup)).
  { unfold upload_body, upload_handler, cleanup, assign_input, assign_downscaled, assign_output,
      Os.write_file, St.info.
    repeat first [ solve [eauto with pym] | preserves_step | apply remove_if_exists_frame
                 | apply lift_preserves ]. }
  specialize (Hc (w, mkLocals None None None) Hw).
  destruct (try_finally _ _ _) as [r [w' l']]. exact Hc.
Qed.
End Frame.

(** The cache is such a fact. *)
Ltac cache_frame := first [intros ? ? Hw; exact Hw | intros el; apply emit_page; intros w Hw; exact Hw].

Section CacheFrame.
Context `{Scaler} `{Yolo}.
Variable C : gmap string yolo_handle -> Prop.

Lemma emit_cache el : preserves (fun w => C (cache w)) (St.emit el).
Proof. apply emit_page. intros w Hw. exact Hw. Qed.

Lemma handle_upload_cache model up : preserves (fun w => C (cache w)) (handle_upload model up).
Proof. apply handle_upload_frame; cache_frame. Qed.
End CacheFrame.

(** ** Lemmas across script runs *)

Section Runs.
Context `{Scaler} `{Yolo}.

Lemma load_model_keeps_entry p hd q :
  preserves (fun w => cache w !! p = Some hd) (load_model q).
Proof.
  intros w Hw. destruct (cache w !! q) as [h0|] eqn:Hc.
  - rewrite (cache_hit_run q h0 w Hc). exact Hw.
  - rewrite (cache_miss_run q w Hc). destruct (fs w !! q) as [[]|]; simpl; try exact Hw.
    rewrite lookup_insert_ne; [exact Hw | intros ->; congruence].
Qed.

Lemma load_model_keys : preserves (fun w => cache_keys_ok (cache w)) (load_model model_path).
Proof.
  intros w Hw. destruct (cache w !! model_path) as [h0|] eqn:Hc.
  - rewrite (cache_hit_run _ h0 w Hc). exact Hw.
  - rewrite (cache_miss_run _ w Hc). destruct (fs w !! model_path) as [[]|]; simpl; try exact Hw.
    intros p Hp. rewrite lookup_insert in Hp. case_decide as E; [congruence | exact (Hw p Hp)].
Qed.

(** A run of the script changes the cache only through [load_model]. *)
Lemma main_cache (Q : gmap string yolo_handle -> Prop) :
  preserves (fun w => Q (cache w)) (load_model model_path) ->
  preserves (fun w => Q (cache w)) main.
Proof.
  intros Hl. unfold main, St.title, St.write, St.error, St.info, St.success, St.file_uploader,
    Os.path_exists.
  repeat first [ solve [eauto with pym] | preserves_step | apply (emit_cache Q)
               | apply (handle_upload_cache Q) | exact Hl ].
Qed.

Lemma session_run_cache (Q : gmap string yolo_handle -> Prop) up :
  preserves (fun w => Q (cache w)) (load_model model_path) ->
  preserves (fun w => Q (cache w)) (session_run up).
Proof.
  intros Hl. unfold session_run, script. apply preserves_bind; [|intros []; apply main_cache, Hl].
  intros w Hw. exact Hw.
Qed.

Lemma serve_preserves (P : world -> Prop) runs :
  (forall up, preserves P (session_run up)) -> preserves P (serve runs).
Proof. intros Hs. induction runs as [|up rest IH]; simpl; solve_preserves. Qed.

Lemma session_run_fs up w : fs (session_run up w).2 = fs w.
Proof.
  unfold session_run, script, bind, modify. simpl.
  rewrite main_fs_unchanged. reflexivity.
Qed.
End Runs.

Section FirstRun.
Context `{Scaler} `{Yolo}.

(** The first script run that finds [best.pt] loads it and keeps the
    handle; the rest of the run leaves the cache alone. *)
Lemma session_run_first_load up w wt :
  fs w !! model_path = Some (WeightsFile wt) -> cache w !! model_path = None ->
  cache (session_run up w).2 = <[model_path := YOLO_ model_path wt]> (cache w).
Proof.
  intros Hf Hc. unfold session_run, script.
  step_ok ltac:(reflexivity).
  unfold main, St.title, St.write, St.success, St.file_uploader.
  step_ok ltac:(apply emit_run; reflexivity).
  step_ok ltac:(apply emit_run; reflexivity).
  step_ok ltac:(reflexivity).
  cbn [negb fs map_ui new_page]. unfold Os.file_exists. rewrite Hf. cbn [negb].
  step_ok ltac:(apply run_try_except_ok;
    step_ok ltac:(rewrite cache_miss_run by exact Hc; simpl; rewrite Hf; reflexivity);
    step_ok ltac:(apply emit_run; reflexivity); reflexivity).
  cbv iota. step_ok ltac:(step_ok ltac:(apply emit_run; reflexivity); reflexivity).
  destruct up as [up|]; [|reflexivity].
  apply (handle_upload_cache (fun c => c = <[model_path := YOLO_ model_path wt]> (cache w))).
  reflexivity.
Qed.
End FirstRun.

Lemma try_except_ignore_state {A} (c : M A) (d : A) w :
  (try_except c (fun _ => ret d) w).2 = (c w).2.
Proof. unfold try_except. destruct (c w) as [[a|e] w']; reflexivity. Qed.

Lemma load_model_hit_keeps c hd :
  c !! model_path = Some hd -> preserves (fun w => cache w = c) (load_model model_path).
Proof. intros Hc w Hw. rewrite (cache_hit_run model_path hd w) by (rewrite Hw; exact Hc). exact Hw. Qed.

Section ServerClaims.
Context `{Scaler} `{Yolo}.

(** C22: the model cache shared by all sessions (specification, section 3:
    one model handle per path, held for the life of the process): over
    any sequence of script runs, the cache keeps at most the entry of
    [best.pt], and once that entry exists it is never replaced. *)
Theorem serve_cache_singleton runs w :
  cache_keys_ok (cache w) ->
  cache_keys_ok (cache (serve runs w).2) /\
  (forall hd, cache w !! model_path = Some hd -> cache (serve runs w).2 !! model_path = Some hd).
Proof.
  intros Hk. split.
  - apply (serve_preserves (fun w => cache_keys_ok (cache w))); [|exact Hk].
    intros up. apply (session_run_cache cache_keys_ok), load_model_keys.
  - intros hd Hd. apply (serve_preserves (fun w => cache w !! model_path = Some hd)); [|exact Hd].
    intros up. apply (session_run_cache (fun c => c !! model_path = Some hd)), load_model_keeps_entry.
Qed.

(** C28: the model is loaded by the first script run that finds
    [best.pt], and every later run, in any session, uses that handle: the
    cache ends holding exactly it. *)
Theorem serve_loads_model_once up rest w wt :
  fs w !! model_path = Some (WeightsFile wt) -> cache w = ∅ ->
  cache (serve (up :: rest) w).2 = {[model_path := YOLO_ model_path wt]}.
Proof.
  intros Hf Hc. simpl. unfold bind at 1.
  pose proof (try_except_ignore_state (session_run up) tt w) as E.
  destruct (try_except (session_run up) (fun _ => ret tt) w) as [r w1] eqn:Hr. simpl in E.
  assert (H1 : cache w1 = {[model_path := YOLO_ model_path wt]}).
  { rewrite E, (session_run_first_load up w wt Hf) by (rewrite Hc; apply lookup_empty).
    rewrite Hc. reflexivity. }
  assert (Hs : preserves (fun w => cache w = {[model_path := YOLO_ model_path wt]}) (serve rest)).
  { apply serve_preserves. intros up'.
    apply (session_run_cache (fun c => c = {[model_path := YOLO_ model_path wt]})).
    apply (load_model_hit_keeps _ (YOLO_ model_path wt)), lookup_singleton_eq. }
  destruct r as [[]|e]; [exact (Hs w1 H1) | exact H1].
Qed.

End ServerClaims.

(** ** Witnesses: three sessions on a fresh process *)

Definition sample_runs : list (option uploaded_file) :=
  [Some (UploadedFile "street.mov" (VideoFile (sample_video 1920 1080 2))); None;
   Some (UploadedFile "notes.avi" (RawFile [Byte.x00]))].

Lemma serve_cache_singleton_witness :
  let w := map_fs (<[model_path := WeightsFile 7]>) sample_world in
  cache_keys_ok (cache w) /\
  cache_keys_ok (cache (@serve scaler_relabel yolo_two_boxes sample_runs w).2) /\
  (forall hd, cache w !! model_path = Some hd ->
              cache (@serve scaler_relabel yolo_two_boxes sample_runs w).2 !! model_path = Some hd).
Proof.
  intros w. assert (Hk : cache_keys_ok (cache w)) by (intros p [x Hx]; discriminate Hx).
  split; [exact Hk|]. exact (@serve_cache_singleton scaler_relabel yolo_two_boxes sample_runs w Hk).
Defined.

Lemma serve_loads_model_once_witness :
  let w := map_fs (<[model_path := WeightsFile 7]>) sample_world in
  fs w !! model_path = Some (WeightsFile 7) /\ cache w = ∅ /\
  cache (@serve scaler_relabel yolo_two_boxes sample_runs w).2 = {[model_path := YOLO_ model_path 7]}.
Proof.
  intros w. split; [reflexivity|]. split; [reflexivity|].
  exact (@serve_loads_model_once scaler_relabel yolo_two_boxes _ _ w 7 eq_refl eq_refl).
Defined.

Section FailedLoad.
Context `{Scaler} `{Yolo}.

Lemma session_run_load_error up w f :
  fs w !! model_path = Some f -> (forall wt, f <> WeightsFile wt) -> cache w !! model_path = None ->
  fs (session_run up w).2 = fs w /\ cache (session_run up w).2 = cache w.
Proof.
  intros Hf Hnw Hc. cbv [session_run script bind modify].
  rewrite (main_load_error_run (new_page up w) f Hf Hnw Hc eq_refl). split; reflexivity.
Qed.

(** C29: a model file that does not load is never cached: every script
    run of every session tries to load it again and shows the error
    again, while the specification says a model load error is shown once,
    with no retry. *)
Theorem serve_retries_failed_load runs w f :
  fs w !! model_path = Some f -> (forall wt, f <> WeightsFile wt) -> cache w = ∅ ->
  cache (serve runs w).2 = ∅.
Proof.
  intros Hf Hnw Hc.
  assert (Hp : preserves (fun w' => fs w' !! model_path = Some f /\ cache w' = ∅) (serve runs)).
  { apply serve_preserves. intros up w' [Hf' Hc'].
    destruct (session_run_load_error up w' f Hf' Hnw) as [E1 E2]; [rewrite Hc'; apply lookup_empty|].
    rewrite E1, E2. split; assumption. }
  exact (proj2 (Hp w (conj Hf Hc))).
Qed.
End FailedLoad.

Lemma serve_retries_failed_load_witness :
  let w := map_fs (<[model_path := RawFile [Byte.x00]]>) sample_world in
  fs w !! model_path = Some (RawFile [Byte.x00]) /\ cache w = ∅ /\
  cache (@serve scaler_relabel yolo_two_boxes sample_runs w).2 = ∅.
Proof.
  intros w. split; [reflexivity|]. split; [reflexivity|].
  apply (@serve_retries_failed_load scaler_relabel yolo_two_boxes sample_runs w (RawFile [Byte.x00]));
    [reflexivity | intros wt Hwt; discriminate Hwt | reflexivity].
Defined.
