(* ===== verification/Pool.v ===== *)
(** * Pool: threads of the Streamlit process and the files they own

    Streamlit runs every script run of every browser session on a thread
    of its own, in one process.  The threads share the process state of
    the [world] (files, temporary directory, [tempfile]'s name generator,
    the [st.cache_resource] store); each session has its own page, widget
    values and stop request ([sess]).

    The class [ThreadPool] is what a kind of thread promises to the
    interleaving: a step function (one statement on the shared world), a
    request step (a rerun or stop request of its session reaches it, to
    take effect after a given number of the thread's actions), the
    temporary paths it owns, its own invariant, a measure, and the laws
    that each step acts on the files only through the paths it owns,
    never changes an entry of the cache, decreases the measure, that a
    request changes neither the paths nor the invariant and also decreases
    the measure, and that a thread not done can step.  From the laws alone this file proves, for
    every interleaving of steps and requests ([cstep]): the ownership invariant [cinv], that the
    file system comes back to where it started once every thread is done,
    that every interleaving is finite and never stuck, and that a
    thread's own invariant which other threads' steps cannot break holds
    in every reachable configuration.  Runs.v gives the instance for the
    script runs of src/deploy.py. *)

From S2P Require Import Prelude World.

(** ** Sessions *)

(** The part of the world that belongs to one session. *)
Record sess := mkSess {
  s_ui : list element;
  s_upload : option uploaded_file;
  s_stop : option nat }.

(** The world a session's statement sees: the shared part of [w] and the
    session's own part [s]. *)
Definition enter (w : world) (s : sess) : world :=
  {| fs := fs w; ui := s_ui s; tempdir := tempdir w; rng := rng w; cache := cache w;
     ffmpeg_installed := ffmpeg_installed w; writer_available := writer_available w;
     widget_upload := s_upload s; stop_after := s_stop s |}.

Definition leave (w : world) : sess := mkSess (ui w) (widget_upload w) (stop_after w).

(** ** Owned files *)

(** What one statement may do to the files, going from owning [O] in [W] to
    owning [O'] in [W']: the paths owned after are distinct, not empty and
    exist; other paths keep their file; a newly owned path was free; a
    path given up has been removed. *)
Definition owned_step (O O' : list string) (W W' : world) : Prop :=
  NoDup O' /\ Forall (fun q => q <> "" /\ is_Some (fs W' !! q)) O' /\
  (forall q, q ∉ O -> q ∉ O' -> fs W' !! q = fs W !! q) /\
  (forall q, q ∈ O' -> q ∉ O -> fs W !! q = None) /\
  (forall q, q ∈ O -> q ∉ O' -> fs W' !! q = None).

(** The cache only gains entries. *)
Definition cache_grows (W W' : world) : Prop :=
  forall p m, cache W !! p = Some m -> cache W' !! p = Some m.

(** What the steps of the other threads leave of a thread that owns [O]. *)
Definition others_frame (O : list string) (W W' : world) : Prop :=
  (forall q, q ∈ O -> fs W' !! q = fs W !! q) /\ cache_grows W W'.

(** ** The interface of a kind of thread *)

Class ThreadPool (T : Type) := {
  th_step : T -> world -> option (T * world);
  th_owned : T -> list string;
  th_inv : world -> T -> Prop;
  th_rank : T -> nat;
  th_done : T -> bool;
  (** A rerun or stop request of the thread's session reaches it; it
      takes effect after [n] more of the thread's actions (what counts
      as an action is the kind of thread's own). *)
  th_interrupt : nat -> T -> option T;
  th_step_owned t w t' w' :
    th_inv w t -> th_step t w = Some (t', w') ->
    th_inv w' t' /\ owned_step (th_owned t) (th_owned t') w w';
  th_step_cache t w t' w' : th_step t w = Some (t', w') -> cache_grows w w';
  th_inv_frame t w w' : th_inv w t -> others_frame (th_owned t) w w' -> th_inv w' t;
  th_inv_owned t w :
    th_inv w t -> NoDup (th_owned t) /\ Forall (fun q => q <> "" /\ is_Some (fs w !! q)) (th_owned t);
  th_step_rank t w t' w' : th_step t w = Some (t', w') -> (th_rank t' < th_rank t)%nat;
  th_progress t w : th_done t = false -> exists t' w', th_step t w = Some (t', w');
  th_done_owned t : th_done t = true -> th_owned t = [];
  th_interrupt_owned n t t' : th_interrupt n t = Some t' -> th_owned t' = th_owned t;
  th_interrupt_inv n t t' w : th_interrupt n t = Some t' -> th_inv w t -> th_inv w t';
  th_interrupt_rank n t t' : th_interrupt n t = Some t' -> (th_rank t' < th_rank t)%nat
}.

(** ** Configurations and their steps *)

Record config (T : Type) := mkConfig { c_world : world; c_threads : list T }.
Arguments mkConfig {T}.
Arguments c_world {T}.
Arguments c_threads {T}.

Section Pool.
Context {T : Type} `{ThreadPool T}.

(** Any thread that has a statement left may run it next, and a session's
    request may reach its thread at any point. *)
Inductive cstep : config T -> config T -> Prop :=
| CStep w ts i t t' w' :
    ts !! i = Some t -> th_step t w = Some (t', w') ->
    cstep (mkConfig w ts) (mkConfig w' (<[i := t']> ts))
| CInterrupt w ts i n t t' :
    ts !! i = Some t -> th_interrupt n t = Some t' ->
    cstep (mkConfig w ts) (mkConfig w (<[i := t']> ts)).

(** The configuration after running the threads in the order of [sched]
    (an index with nothing left to run is skipped). *)
Fixpoint run_sched (sched : list nat) (c : config T) : config T :=
  match sched with
  | [] => c
  | i :: rest =>
      match c_threads c !! i with
      | Some t =>
          match th_step t (c_world c) with
          | Some (t', w') => run_sched rest (mkConfig w' (<[i := t']> (c_threads c)))
          | None => run_sched rest c
          end
      | None => run_sched rest c
      end
  end.

(** The configuration after a request reaches thread [i], delayed by [n]
    (if it can). *)
Definition interrupt_at (i n : nat) (c : config T) : config T :=
  match c_threads c !! i with
  | Some t =>
      match th_interrupt n t with
      | Some t' => mkConfig (c_world c) (<[i := t']> (c_threads c))
      | None => c
      end
  | None => c
  end.

Definition all_done (c : config T) : Prop := Forall (fun t => th_done t = true) (c_threads c).

Definition total_rank (c : config T) : nat := sum_list_with th_rank (c_threads c).

(** The invariant of a configuration, relative to the file system [m0]
    before the threads started: each thread's invariant; an owned path was
    free in [m0]; no path is owned by two threads; a path no thread owns
    holds what it held in [m0]. *)
Definition cinv (m0 : gmap string file) (c : config T) : Prop :=
  (forall i t, c_threads c !! i = Some t -> th_inv (c_world c) t) /\
  (forall i t q, c_threads c !! i = Some t -> q ∈ th_owned t -> m0 !! q = None) /\
  (forall i j ti tj q, i <> j -> c_threads c !! i = Some ti -> c_threads c !! j = Some tj ->
                       q ∈ th_owned ti -> q ∈ th_owned tj -> False) /\
  (forall q, (forall i t, c_threads c !! i = Some t -> q ∉ th_owned t) ->
             fs (c_world c) !! q = m0 !! q).

(** A property [S] of every thread of a configuration. *)
Definition all_S (S : world -> T -> Prop) (c : config T) : Prop :=
  forall i t, c_threads c !! i = Some t -> S (c_world c) t.
End Pool.

(** ** Lemmas *)

Lemma enter_leave w : enter w (leave w) = w.
Proof. destruct w; reflexivity. Qed.

Lemma leave_enter w s : leave (enter w s) = s.
Proof. destruct s; reflexivity. Qed.

Lemma enter_enter w s s' : enter (enter w s) s' = enter w s'.
Proof. reflexivity. Qed.

Abbreviation owned_ok W O := (Forall (fun q => q <> "" /\ is_Some (fs W !! q)) O).

(** A statement that writes only owned paths and owns the same paths after. *)
Lemma owned_step_effect O W W' :
  fs_effect (fun q => q ∈ O) W W' -> NoDup O -> owned_ok W O -> owned_step O O W W'.
Proof.
  intros He Hnd Hok. split; [exact Hnd|]. split.
  - eapply Forall_impl; [exact Hok|]. intros q [Hne Hs]. split; [exact Hne|].
    exact (proj2 (He q) Hs).
  - split; [intros q Hq _; exact (proj1 (He q) Hq)|]. split; intros q H1 H2; contradiction.
Qed.

(** A statement that creates the free path [p] and owns it from then on. *)
Lemma owned_step_new O p W rest :
  NoDup O -> owned_ok W O -> fs W !! p = None -> p <> "" ->
  owned_step O ((O ++ [p])%list) W (set_rng rest (map_fs (<[p := RawFile []]>) W)).
Proof.
  intros Hnd Hok Hp Hne.
  assert (Hout : p ∉ O).
  { intros Hin. rewrite Forall_forall in Hok. destruct (Hok p Hin) as [_ Hs].
    rewrite Hp in Hs. exact (is_Some_None Hs). }
  split; [apply NoDup_app; split; [exact Hnd|]; split; [|apply NoDup_singleton];
          intros q Hq Hq'; apply list_elem_of_singleton in Hq'; subst; contradiction|].
  split; [|split; [|split]].
  - apply Forall_app. split; [|apply Forall_singleton; split; [exact Hne|];
                               simpl; rewrite lookup_insert_eq; eauto].
    eapply Forall_impl; [exact Hok|]. intros q [Hq Hs]. split; [exact Hq|]. simpl.
    destruct (decide (p = q)) as [->|Hpq];
      [rewrite lookup_insert_eq; eauto | rewrite lookup_insert_ne by exact Hpq; exact Hs].
  - intros q _ Hq. simpl. rewrite lookup_insert_ne; [reflexivity|].
    intros ->. apply Hq. apply elem_of_app. right. apply list_elem_of_singleton. reflexivity.
  - intros q Hq Hq'. apply elem_of_app in Hq as [Hq|Hq]; [contradiction|].
    apply list_elem_of_singleton in Hq. subst. exact Hp.
  - intros q Hq Hq'. exfalso. apply Hq'. apply elem_of_app. left. exact Hq.
Qed.

Lemma cache_grows_refl w : cache_grows w w.
Proof. intros p m H. exact H. Qed.

Lemma sum_list_with_insert {A} (g : A -> nat) (l : list A) i x y :
  l !! i = Some x -> (sum_list_with g (<[i := y]> l) + g x = sum_list_with g l + g y)%nat.
Proof.
  revert i. induction l as [|a l IH]; intros [|i]; simpl; try discriminate.
  - intros [= ->]. lia.
  - intros Hi. specialize (IH i Hi). lia.
Qed.

Section PoolLemmas.
Context {T : Type} `{ThreadPool T}.

Lemma cstep_rank c c' : cstep c c' -> (total_rank c' < total_rank c)%nat.
Proof.
  intros [w ts i t t' w' Hi Hs|w ts i n t t' Hi Hs]; unfold total_rank; simpl;
    pose proof (sum_list_with_insert th_rank ts i t t' Hi);
    [pose proof (th_step_rank _ _ _ _ Hs) | pose proof (th_interrupt_rank _ _ _ Hs)]; lia.
Qed.

Lemma all_done_dec c : ~ all_done c -> exists i t, c_threads c !! i = Some t /\ th_done t = false.
Proof.
  unfold all_done. intros Hn. apply not_Forall_Exists in Hn; [|intros t; apply _].
  apply Exists_exists in Hn as (t & Hin & Ht).
  apply list_elem_of_lookup_1 in Hin as [i Hi]. exists i, t. split; [exact Hi|].
  apply not_true_is_false. exact Ht.
Qed.

Lemma cstep_run_sched c i t :
  c_threads c !! i = Some t -> th_done t = false -> cstep c (run_sched [i] c).
Proof.
  intros Hi Hd. destruct (th_progress t (c_world c) Hd) as (t' & w' & Hs).
  destruct c as [w ts]. simpl in *. rewrite Hi, Hs. econstructor; eauto.
Qed.

Lemma interrupt_at_rtc i n c : rtc cstep c (interrupt_at i n c).
Proof.
  destruct c as [w ts]. unfold interrupt_at. simpl.
  destruct (ts !! i) as [t|] eqn:Hi; [|reflexivity].
  destruct (th_interrupt n t) as [t'|] eqn:Ht; [|reflexivity].
  apply rtc_once. econstructor; eassumption.
Qed.

Lemma run_sched_app s1 s2 c : run_sched (s1 ++ s2) c = run_sched s2 (run_sched s1 c).
Proof.
  revert c. induction s1 as [|i s1 IH]; intros c; simpl; [reflexivity|].
  destruct (c_threads c !! i) as [t|]; [destruct (th_step t (c_world c)) as [[t' w']|]|]; apply IH.
Qed.

Lemma run_sched_rtc sched c : rtc cstep c (run_sched sched c).
Proof.
  revert c. induction sched as [|i rest IH]; intros [w ts]; simpl; [reflexivity|].
  destruct (ts !! i) as [t|] eqn:Hi; [|apply IH].
  destruct (th_step t w) as [[t' w']|] eqn:Hs; [|apply IH].
  eapply rtc_l; [econstructor; eassumption|apply IH].
Qed.

(** Another thread's paths are not touched by the step of thread [i]. *)
Lemma owned_other m0 w ts i t t' w' j tj q :
  cinv m0 (mkConfig w ts) -> ts !! i = Some t -> owned_step (th_owned t) (th_owned t') w w' ->
  i <> j -> ts !! j = Some tj -> q ∈ th_owned tj ->
  (q ∉ th_owned t) /\ (q ∉ th_owned t') /\ fs w' !! q = fs w !! q.
Proof.
  intros (Ht & _ & Hd & _) Hi (_ & _ & Hframe & Hnew & _) Hij Hj Hq.
  assert (H1 : q ∉ th_owned t) by (intros Hq'; exact (Hd i j t tj q Hij Hi Hj Hq' Hq)).
  assert (H2 : q ∉ th_owned t').
  { intros Hq'. pose proof (Hnew q Hq' H1) as Hw.
    destruct (th_inv_owned tj w (Ht j tj Hj)) as [_ Hok]. rewrite Forall_forall in Hok.
    destruct (Hok q Hq) as [_ Hs]. simpl in Hs. rewrite Hw in Hs. exact (is_Some_None Hs). }
  split; [exact H1|]. split; [exact H2|]. exact (Hframe q H1 H2).
Qed.

Lemma other_frame m0 w ts i t t' w' j tj :
  cinv m0 (mkConfig w ts) -> ts !! i = Some t -> th_step t w = Some (t', w') ->
  owned_step (th_owned t) (th_owned t') w w' -> i <> j -> ts !! j = Some tj ->
  others_frame (th_owned tj) w w'.
Proof.
  intros Hc Hi Hs Hstep Hij Hj. split; [|exact (th_step_cache _ _ _ _ Hs)].
  intros q Hq. exact (proj2 (proj2 (owned_other m0 w ts i t t' w' j tj q Hc Hi Hstep Hij Hj Hq))).
Qed.
(** A request changes neither the files a thread owns nor its invariant. *)
Lemma cinv_interrupt m0 w ts i n t t' :
  cinv m0 (mkConfig w ts) -> ts !! i = Some t -> th_interrupt n t = Some t' ->
  cinv m0 (mkConfig w (<[i := t']> ts)).
Proof.
  intros (Ht & Hm & Hd & Hf) Hi Hint. pose proof (th_interrupt_owned _ _ _ Hint) as Ho.
  assert (Hl : forall j tj, <[i := t']> ts !! j = Some tj ->
                 th_inv w tj /\ exists tj0, ts !! j = Some tj0 /\ th_owned tj = th_owned tj0).
  { intros j tj Hj. apply list_lookup_insert_Some in Hj as [(<- & <- & _)|[Hij Hj]].
    - split; [exact (th_interrupt_inv _ _ _ w Hint (Ht i t Hi)) | eauto].
    - split; [exact (Ht j tj Hj) | eauto]. }
  split; [|split; [|split]]; simpl.
  - intros j tj Hj. exact (proj1 (Hl j tj Hj)).
  - intros j tj q Hj Hq. destruct (Hl j tj Hj) as [_ (tj0 & Hj0 & E)]. rewrite E in Hq.
    exact (Hm j tj0 q Hj0 Hq).
  - intros j k tj tk q Hjk Hj Hk Hqj Hqk.
    destruct (Hl j tj Hj) as [_ (tj0 & Hj0 & Ej)]. destruct (Hl k tk Hk) as [_ (tk0 & Hk0 & Ek)].
    rewrite Ej in Hqj. rewrite Ek in Hqk. exact (Hd j k tj0 tk0 q Hjk Hj0 Hk0 Hqj Hqk).
  - intros q Hq. apply Hf. intros j tj Hj. simpl in Hj. destruct (decide (i = j)) as [<-|Hij].
    + rewrite Hi in Hj. injection Hj as <-. rewrite <- Ho. apply (Hq i).
      apply list_lookup_insert_eq. exact (lookup_lt_Some _ _ _ Hi).
    + apply (Hq j). rewrite list_lookup_insert_ne by exact Hij. exact Hj.
Qed.

(** Every step of every thread keeps the invariant of the configuration. *)
Lemma cstep_cinv m0 c c' : cinv m0 c -> cstep c c' -> cinv m0 c'.
Proof.
  intros Hc Hs. destruct Hs as [w ts i t t' w' Hi Hs | w ts i n t t' Hi Hs];
    [| exact (cinv_interrupt m0 w ts i n t t' Hc Hi Hs)].
  pose proof Hc as (Ht & Hm & Hd & Hf). simpl in *.
  destruct (th_step_owned t w t' w' (Ht i t Hi) Hs) as [Ht' Hstep].
  pose proof Hstep as (_ & _ & Hframe & Hnew & Hrel).
  assert (Hfree : forall q, q ∈ th_owned t' -> q ∉ th_owned t ->
                  forall j tj, ts !! j = Some tj -> q ∉ th_owned tj).
  { intros q Hq' Hq j tj Hj Hqj. destruct (decide (i = j)) as [<-|Hij].
    - rewrite Hi in Hj. injection Hj as <-. contradiction.
    - exact (proj1 (proj2 (owned_other m0 w ts i t t' w' j tj q Hc Hi Hstep Hij Hj Hqj)) Hq'). }
  split; [|split; [|split]]; simpl.
  - intros j tj Hj. apply list_lookup_insert_Some in Hj as [(<- & <- & _)|[Hij Hj]]; [exact Ht'|].
    exact (th_inv_frame tj w w' (Ht j tj Hj) (other_frame m0 w ts i t t' w' j tj Hc Hi Hs Hstep Hij Hj)).
  - intros j tj q Hj Hq. apply list_lookup_insert_Some in Hj as [(<- & <- & _)|[Hij Hj]];
      [|exact (Hm j tj q Hj Hq)].
    destruct (decide (q ∈ th_owned t)) as [Hin|Hout]; [exact (Hm i t q Hi Hin)|].
    rewrite <- (Hf q (Hfree q Hq Hout)). exact (Hnew q Hq Hout).
  - intros j k tj tk q Hjk Hj Hk Hqj Hqk.
    apply list_lookup_insert_Some in Hj as [(<- & <- & _)|[Hij Hj]];
    apply list_lookup_insert_Some in Hk as [(<- & <- & _)|[Hik Hk]].
    + contradiction.
    + exact (proj1 (proj2 (owned_other m0 w ts i t t' w' k tk q Hc Hi Hstep Hik Hk Hqk)) Hqj).
    + exact (proj1 (proj2 (owned_other m0 w ts i t t' w' j tj q Hc Hi Hstep Hij Hj Hqj)) Hqk).
    + exact (Hd j k tj tk q Hjk Hj Hk Hqj Hqk).
  - intros q Hq. assert (Hq' : q ∉ th_owned t').
    { apply (Hq i). apply list_lookup_insert_eq. exact (lookup_lt_Some _ _ _ Hi). }
    destruct (decide (q ∈ th_owned t)) as [Hin|Hout].
    + rewrite (Hrel q Hin Hq'). symmetry. exact (Hm i t q Hi Hin).
    + rewrite (Hframe q Hout Hq'). apply Hf. intros j tj Hj.
      destruct (decide (i = j)) as [<-|Hij].
      * rewrite Hi in Hj. injection Hj as <-. exact Hout.
      * apply (Hq j). rewrite list_lookup_insert_ne by exact Hij. exact Hj.
Qed.

(** Threads that own nothing yet start a configuration with the invariant. *)
Lemma cinv_start w ts :
  Forall (fun t => th_inv w t /\ th_owned t = []) ts -> cinv (fs w) (mkConfig w ts).
Proof.
  intros Hts. rewrite Forall_lookup in Hts.
  split; [|split; [|split]]; simpl.
  - intros i t Hi. exact (proj1 (Hts i t Hi)).
  - intros i t q Hi Hq. rewrite (proj2 (Hts i t Hi)) in Hq. apply elem_of_nil in Hq. contradiction.
  - intros i j ti tj q _ Hi _ Hq. rewrite (proj2 (Hts i ti Hi)) in Hq.
    apply elem_of_nil in Hq. contradiction.
  - reflexivity.
Qed.

Lemma rtc_cinv m0 c c' : cinv m0 c -> rtc cstep c c' -> cinv m0 c'.
Proof. intros Hc Hr. induction Hr as [|x y z Hs _ IH]; eauto using cstep_cinv. Qed.

(** Once every thread is done, the file system is the one of the start. *)
Lemma cinv_all_done m0 c : cinv m0 c -> all_done c -> fs (c_world c) = m0.
Proof.
  intros (_ & _ & _ & Hf) Hd. apply map_eq. intros q. apply Hf. intros i t Hi Hq.
  unfold all_done in Hd. rewrite Forall_lookup in Hd.
  rewrite (th_done_owned t (Hd i t Hi)) in Hq. apply elem_of_nil in Hq. exact Hq.
Qed.

(** A thread's own invariant [S] that its steps keep, and that the steps of
    the other threads keep because they leave its files and the cache
    entries alone, holds in every reachable configuration. *)
Section Local.
Variable S : world -> T -> Prop.
Hypothesis S_step :
  forall t w t' w', th_inv w t -> S w t -> th_step t w = Some (t', w') -> S w' t'.
Hypothesis S_frame :
  forall t w w', th_inv w t -> S w t -> others_frame (th_owned t) w w' -> S w' t.
Hypothesis S_interrupt :
  forall n t t' w, th_interrupt n t = Some t' -> th_inv w t -> S w t -> S w t'.

Lemma cstep_local m0 c c' : cinv m0 c -> all_S S c -> cstep c c' -> all_S S c'.
Proof.
  intros Hc Hs Hst. destruct Hst as [w ts i t t' w' Hi Hts | w ts i n t t' Hi Hts];
    unfold all_S in *; simpl in *; pose proof Hc as (Ht & _);
    [| intros j tj Hj; apply list_lookup_insert_Some in Hj as [(<- & <- & _)|[Hij Hj]];
       [exact (S_interrupt n t t' w Hts (Ht i t Hi) (Hs i t Hi)) | exact (Hs j tj Hj)]]. destruct (th_step_owned t w t' w' (Ht i t Hi) Hts) as [_ Hstep].
  intros j tj Hj. apply list_lookup_insert_Some in Hj as [(<- & <- & _)|[Hij Hj]].
  - exact (S_step t w t' w' (Ht i t Hi) (Hs i t Hi) Hts).
  - exact (S_frame tj w w' (Ht j tj Hj) (Hs j tj Hj)
             (other_frame m0 w ts i t t' w' j tj Hc Hi Hts Hstep Hij Hj)).
Qed.

Lemma rtc_local m0 c c' : cinv m0 c -> all_S S c -> rtc cstep c c' -> cinv m0 c' /\ all_S S c'.
Proof.
  intros Hc Hs Hr. induction Hr as [|x y z Hxy _ IH]; [auto|].
  apply IH; [exact (cstep_cinv _ _ _ Hc Hxy) | exact (cstep_local _ _ _ Hc Hs Hxy)].
Qed.
End Local.

(** A property of the shared world that every step keeps. *)
Lemma rtc_world (G : world -> Prop) m0 c c' :
  (forall t w t' w', th_inv w t -> G w -> th_step t w = Some (t', w') -> G w') ->
  cinv m0 c -> G (c_world c) -> rtc cstep c c' -> G (c_world c').
Proof.
  intros HG Hc Hg Hr. induction Hr as [|x y z Hxy _ IH]; [exact Hg|].
  apply IH; [exact (cstep_cinv _ _ _ Hc Hxy)|].
  destruct Hxy as [w ts i t t' w' Hi Hs | w ts i t t' Hi Hs]; [|exact Hg].
  exact (HG t w t' w' (proj1 Hc i t Hi) Hg Hs).
Qed.

Lemma rtc_length c c' : rtc cstep c c' -> length (c_threads c') = length (c_threads c).
Proof.
  induction 1 as [|x y z Hxy _ IH]; [reflexivity|]. rewrite IH.
  destruct Hxy; simpl; apply length_insert.
Qed.

(** A property of one thread that its own steps keep holds of the thread at
    the same index in every reachable configuration. *)
Lemma rtc_thread (P : T -> Prop) c c' i t :
  (forall t w t' w', P t -> th_step t w = Some (t', w') -> P t') ->
  (forall n t t', P t -> th_interrupt n t = Some t' -> P t') ->
  rtc cstep c c' -> c_threads c !! i = Some t -> P t ->
  exists t', c_threads c' !! i = Some t' /\ P t'.
Proof.
  intros HP HI Hr. revert t. induction Hr as [c|x y z Hxy _ IH]; intros t Hi Ht; [eauto|].
  assert (Hy : exists t', c_threads y !! i = Some t' /\ P t').
  { destruct Hxy as [w ts j tj tj' w' Hj Hs | w ts j n tj tj' Hj Hs]; simpl in *;
      (destruct (decide (i = j)) as [->|Hij];
       [ rewrite Hi in Hj; injection Hj as <-; exists tj';
         split; [apply list_lookup_insert_eq; exact (lookup_lt_Some _ _ _ Hi) | eauto]
       | exists t; split; [rewrite list_lookup_insert_ne by congruence; exact Hi | exact Ht]]). }
  destruct Hy as (t' & Hy & Ht'). exact (IH t' Hy Ht').
Qed.

Lemma nsteps_rank n c c' : nsteps cstep n c c' -> (n <= total_rank c)%nat.
Proof.
  induction 1 as [|n c1 c2 c3 Hs _ IH]; [lia|].
  pose proof (cstep_rank _ _ Hs). lia.
Qed.

Lemma cstep_progress c : ~ all_done c -> exists c', cstep c c'.
Proof.
  intros Hn. destruct (all_done_dec c Hn) as (i & t & Hi & Hd).
  exists (run_sched [i] c). exact (cstep_run_sched c i t Hi Hd).
Qed.
End PoolLemmas.
