(* ===== verification/Concurrency.v ===== *)
(** * Concurrency: the upload block, one statement at a time

    The block of src/deploy.py lines 64-125 as a sequence of statements,
    for the interleaving of Runs.v: a program counter [pc] at one statement
    of the block, and [stmt], each statement as an action on the world and
    the block's locals together with the [pc] it continues at.  A statement
    of the [try] body that raises continues at the [except] clauses; the
    three [if] statements of the [finally] clause run one at a time.

    Proved here, statement by statement: run from start to end, the
    statements are [handle_upload] ([run_alone_block]); each statement
    acts on the files only through the temporary paths the session owns
    ([stmt_owned]), never touches the model cache ([stmt_cache]), and
    decreases [rank]. *)

From S2P Require Import Prelude World Transcoder Detection ModelLoader Orchestrator Session Server Pool.


(** The statements of lines 69-125.  A [pc] carries the values of the
    [tfile_*] locals the following statements use. *)
Inductive pc :=
| P_start                                        (* line 69 *)
| P_assign_in (tfile_in : string)                (* line 70 *)
| P_write_in (tfile_in : string)                 (* lines 71-72 *)
| P_info1 (tfile_in : string)                    (* line 74 *)
| P_tmp_down (tfile_in : string)                 (* line 75 *)
| P_assign_down (tfile_in tfile_downscaled : string)   (* lines 76-77 *)
| P_ffmpeg (tfile_in tfile_downscaled : string)  (* lines 81-89 *)
| P_info2 (tfile_downscaled : string)            (* line 91 *)
| P_tmp_out (tfile_downscaled : string)          (* line 92 *)
| P_assign_out (tfile_downscaled tfile_out : string)   (* lines 93-94 *)
| P_process (tfile_downscaled tfile_out : string)      (* line 96 *)
| P_present (tfile_out : string)                 (* lines 98-109 *)
| P_except (e : exn)                             (* lines 111-116 *)
| P_rm_in (r : result exn unit)                  (* lines 120-121 *)
| P_rm_down (r : result exn unit)                (* lines 122-123 *)
| P_rm_out (r : result exn unit)                 (* lines 124-125 *)
| P_done (r : result exn unit).


(** Run a statement and choose the next [pc] from its outcome. *)
Definition catch {A} (c : MS A) (k : A -> pc) (h : exn -> pc) (s : world * locals)
    : pc * (world * locals) :=
  let '(r, s') := c s in
  (match r with Ok a => k a | Exc e => h e end, s').

(** After the [finally] clause's statement: an exception it raises replaces
    the block's outcome. *)
Definition fin_stmt (c : MS unit) (next : pc) : world * locals -> pc * (world * locals) :=
  catch c (fun _ => next) (fun e => P_done (Exc e)).

Section Threads.
Context `{Scaler} `{Yolo}.

Definition stmt (model : yolo_handle) (up : uploaded_file) (p : pc)
    : option (world * locals -> pc * (world * locals)) :=
  match p with
  | P_start =>
      Some (catch (lift (Tempfile.named_temporary_file (Os.splitext (up_name up)).2))
                  P_assign_in P_except)
  | P_assign_in p1 => Some (catch (assign_input p1) (fun _ => P_write_in p1) P_except)
  | P_write_in p1 =>
      Some (catch (lift (Os.write_file p1 (up_data up))) (fun _ => P_info1 p1) P_except)
  | P_info1 p1 =>
      Some (catch (lift (St.info "Standardizing video with FFmpeg..."))
                  (fun _ => P_tmp_down p1) P_except)
  | P_tmp_down p1 =>
      Some (catch (lift (Tempfile.named_temporary_file ".mp4")) (P_assign_down p1) P_except)
  | P_assign_down p1 p2 =>
      Some (catch (assign_downscaled p2) (fun _ => P_ffmpeg p1 p2) P_except)
  | P_ffmpeg p1 p2 =>
      Some (catch (lift (subprocess_run (ffmpeg_command p1 p2))) (fun _ => P_info2 p2) P_except)
  | P_info2 p2 =>
      Some (catch (lift (St.info "Processing the standardized video for object detection..."))
                  (fun _ => P_tmp_out p2) P_except)
  | P_tmp_out p2 =>
      Some (catch (lift (Tempfile.named_temporary_file ".mp4")) (P_assign_out p2) P_except)
  | P_assign_out p2 p3 =>
      Some (catch (assign_output p3) (fun _ => P_process p2 p3) P_except)
  | P_process p2 p3 =>
      Some (catch (lift (process_video p2 p3 model)) (fun _ => P_present p3) P_except)
  | P_present p3 =>
      Some (catch (lift (present p3)) (fun _ => P_rm_in (Ok tt)) P_except)
  | P_except e =>
      Some (catch (upload_handler e) (fun _ => P_rm_in (Ok tt)) (fun e' => P_rm_in (Exc e')))
  | P_rm_in r =>
      Some (fin_stmt (l <- gets snd ;; remove_if_exists (input_video_path l)) (P_rm_down r))
  | P_rm_down r =>
      Some (fin_stmt (l <- gets snd ;; remove_if_exists (downscaled_video_path l)) (P_rm_out r))
  | P_rm_out r =>
      Some (fin_stmt (l <- gets snd ;; remove_if_exists (output_video_path l)) (P_done r))
  | P_done _ => None
  end.

(** The block run by one thread from [p], for [fuel] statements at most. *)
Fixpoint run_alone (model : yolo_handle) (up : uploaded_file) (fuel : nat) (p : pc)
    (s : world * locals) : pc * (world * locals) :=
  match fuel with
  | O => (p, s)
  | S n =>
      match stmt model up p with
      | None => (p, s)
      | Some f => let '(p', s') := f s in run_alone model up n p' s'
      end
  end.
End Threads.

(** Statements left before a session is done, at most: a measure that
    every statement decreases. *)
Definition rank (p : pc) : nat :=
  match p with
  | P_start => 16 | P_assign_in _ => 15 | P_write_in _ => 14 | P_info1 _ => 13
  | P_tmp_down _ => 12 | P_assign_down _ _ => 11 | P_ffmpeg _ _ => 10 | P_info2 _ => 9
  | P_tmp_out _ => 8 | P_assign_out _ _ => 7 | P_process _ _ => 6 | P_present _ => 5
  | P_except _ => 4 | P_rm_in _ => 3 | P_rm_down _ => 2 | P_rm_out _ => 1 | P_done _ => 0
  end.

Definition pc_done (p : pc) : bool := match p with P_done _ => true | _ => false end.

(** ** Which temporary files a session owns *)

Definition opt_list (o : option string) : list string :=
  match o with Some p => [p] | None => [] end.

Definition recorded_list (l : locals) : list string :=
  opt_list (input_video_path l) ++ opt_list (downscaled_video_path l) ++
  opt_list (output_video_path l).

(** The paths a session at [p] with locals [l] is responsible for: those
    its locals hold, the [tfile_*] it created and has not yet assigned, less
    those its [finally] clause has already handled. *)
Definition owned_at (p : pc) (l : locals) : list string :=
  match p with
  | P_assign_in q | P_assign_down _ q | P_assign_out _ q => recorded_list l ++ [q]
  | P_rm_down _ => opt_list (downscaled_video_path l) ++ opt_list (output_video_path l)
  | P_rm_out _ => opt_list (output_video_path l)
  | P_done _ => []
  | _ => recorded_list l
  end.

(** The locals that are set at each statement of the [try] body. *)
Definition shape_at (p : pc) (l : locals) : Prop :=
  match p with
  | P_start | P_assign_in _ => l = mkLocals None None None
  | P_write_in a | P_info1 a | P_tmp_down a | P_assign_down a _ => l = mkLocals (Some a) None None
  | P_ffmpeg a b => l = mkLocals (Some a) (Some b) None
  | P_info2 b | P_tmp_out b | P_assign_out b _ => exists a, l = mkLocals (Some a) (Some b) None
  | P_process b o => exists a, l = mkLocals (Some a) (Some b) (Some o)
  | P_present o => exists a b, l = mkLocals (Some a) (Some b) (Some o)
  | _ => True
  end.

(** ** A session alone runs the block of [handle_upload] *)

Section Alone.
Context `{Scaler} `{Yolo}.
Variables (model : yolo_handle) (up : uploaded_file).

(** How the [finally] clause ends the block: the block's outcome [r], or
    the exception the clause raised. *)
Definition fin_outcome (r : result exn unit) (o : result exn unit * (world * locals))
    : pc * (world * locals) :=
  match o with
  | (Ok _, s') => (P_done r, s')
  | (Exc e, s') => (P_done (Exc e), s')
  end.

Lemma run_alone_done n r s : run_alone model up n (P_done r) s = (P_done r, s).
Proof. destruct n; reflexivity. Qed.

Lemma run_alone_S n p s f :
  stmt model up p = Some f ->
  run_alone model up (S n) p s = let '(p', s') := f s in run_alone model up n p' s'.
Proof. intros Hp. simpl. rewrite Hp. reflexivity. Qed.

Ltac step_alone :=
  erewrite run_alone_S by reflexivity; unfold fin_stmt, catch; cbn [bind gets fst snd].

Lemma run_alone_finally n r s :
  (3 <= n)%nat -> run_alone model up n (P_rm_in r) s = fin_outcome r (cleanup s).
Proof.
  intros Hn. do 3 (destruct n as [|n]; [lia|]). destruct s as [w l].
  unfold cleanup, bind, gets. cbn [fst snd]. step_alone.
  destruct (remove_if_exists (input_video_path l) (w, l)) as [[[]|e] [w1 l1]];
    [|apply run_alone_done].
  step_alone.
  destruct (remove_if_exists (downscaled_video_path l1) (w1, l1)) as [[[]|e] [w2 l2]];
    [|apply run_alone_done].
  step_alone.
  destruct (remove_if_exists (output_video_path l2) (w2, l2)) as [[[]|e] [w3 l3]];
    apply run_alone_done.
Qed.

Lemma run_alone_except n e s :
  (4 <= n)%nat ->
  run_alone model up n (P_except e) s =
  let '(r, s') := upload_handler e s in fin_outcome r (cleanup s').
Proof.
  intros Hn. destruct n as [|n]; [lia|]. step_alone.
  destruct (upload_handler e s) as [[[]|e'] s1]; apply run_alone_finally; lia.
Qed.

Ltac alone_destruct :=
  match goal with
  | |- match match ?X with _ => _ end with _ => _ end = _ => destruct X as [[?|?] [??]]
  end.

(** Enough fuel: 12 statements of the [try] body, or fewer and the
    [except] clause, then the 3 statements of the [finally] clause. *)
Lemma run_alone_block n s :
  (16 <= n)%nat ->
  run_alone model up n P_start s =
  let '(r, s') := try_except (upload_body model up) upload_handler s in
  fin_outcome r (cleanup s').
Proof.
  intros Hn. do 12 (destruct n as [|n]; [lia|]). destruct s as [w l].
  unfold try_except, upload_body, bind.
  do 12 (step_alone; alone_destruct; [|apply run_alone_except; lia]).
  repeat match goal with u : unit |- _ => destruct u end.
  apply run_alone_finally. lia.
Qed.
End Alone.

(** ** Every statement decreases the rank *)

Section Measure.
Context `{Scaler} `{Yolo}.

Lemma stmt_rank model up p f s :
  stmt model up p = Some f -> (rank (f s).1 < rank p)%nat.
Proof.
  destruct p; simpl; intros [= <-]; unfold fin_stmt, catch;
    match goal with |- context [let '(_, _) := ?X in _] => destruct X as [[?|?] ?] end;
    simpl; lia.
Qed.

Lemma stmt_some model up p :
  pc_done p = false -> exists f, stmt model up p = Some f.
Proof. destruct p; simpl; try discriminate; eauto. Qed.

End Measure.

(** ** What one statement does to the owned files *)

Lemma owned_step_remove o rest W :
  NoDup (opt_list o ++ rest) -> owned_ok W (opt_list o ++ rest) ->
  owned_step (opt_list o ++ rest) rest W (map_fs (del_opt o) W).
Proof.
  intros Hnd Hok. apply NoDup_app in Hnd as (_ & Hdis & Hnd). apply Forall_app in Hok as [_ Hok].
  split; [exact Hnd|]. split; [|split; [|split]].
  - rewrite Forall_forall in *. intros q Hin. destruct (Hok q Hin) as [Hne Hs].
    split; [exact Hne|]. simpl.
    rewrite lookup_del_opt. case_decide as Ho; [|exact Hs]. subst o.
    exfalso. apply (Hdis q); [apply list_elem_of_singleton; reflexivity|exact Hin].
  - intros q Hq _. simpl. rewrite lookup_del_opt. case_decide as Ho; [|reflexivity].
    subst o. exfalso. apply Hq. apply elem_of_app. left. apply list_elem_of_singleton. reflexivity.
  - intros q Hq Hq'. exfalso. apply Hq'. apply elem_of_app. right. exact Hq.
  - intros q Hq Hq'. simpl. rewrite lookup_del_opt.
    apply elem_of_app in Hq as [Hq|Hq]; [|contradiction].
    destruct o as [p|]; simpl in Hq; [|apply elem_of_nil in Hq; contradiction].
    apply list_elem_of_singleton in Hq. subst. rewrite decide_True by reflexivity. reflexivity.
Qed.

Section StmtOwned.
Context `{Scaler} `{Yolo}.

(** A library call that writes only owned paths, continuing at statements
    that own the same paths. *)
Lemma catch_lift_owned {A} (c : M A) k h l W O :
  writes_within (fun q => q ∈ O) c -> NoDup O -> owned_ok W O ->
  (forall a, owned_at (k a) l = O /\ shape_at (k a) l) ->
  (forall e, owned_at (h e) l = O /\ shape_at (h e) l) ->
  let '(p', (W', l')) := catch (lift c) k h (W, l) in
  shape_at p' l' /\ owned_step O (owned_at p' l') W W'.
Proof.
  intros Hc Hnd Hok Hk Hh. unfold catch. rewrite lift_run.
  pose proof (Hc W W (fs_effect_refl _ W)) as He.
  destruct (c W) as [[a|e] W']; simpl in *;
    [destruct (Hk a) as [-> Hs] | destruct (Hh e) as [-> Hs]];
    (split; [exact Hs | apply owned_step_effect; assumption]).
Qed.

(** [tempfile.NamedTemporaryFile]: the new file joins the owned paths. *)
Lemma catch_tempfile_owned suf k l W O :
  NoDup O -> owned_ok W O ->
  (forall p, owned_at (k p) l = (O ++ [p])%list /\ shape_at (k p) l) ->
  (forall e, owned_at (P_except e) l = O) ->
  let '(p', (W', l')) := catch (lift (Tempfile.named_temporary_file suf)) k P_except (W, l) in
  shape_at p' l' /\ owned_step O (owned_at p' l') W W'.
Proof.
  intros Hnd Hok Hk Hh. unfold catch. rewrite lift_run.
  pose proof (named_temporary_file_hoare suf W W eq_refl) as Hs.
  destruct (Tempfile.named_temporary_file suf W) as [[p|e] W']; simpl in *.
  - destruct Hs as (Hfree & Hne & rest & ->). destruct (Hk p) as [-> Hsh].
    split; [exact Hsh|]. apply owned_step_new; assumption.
  - subst W'. rewrite (Hh e). split; [exact I|].
    apply owned_step_effect; [intros q; split; auto|assumption..].
Qed.

(** An assignment to a local. *)
Lemma catch_assign_owned (f : locals -> locals) k h l W O :
  NoDup O -> owned_ok W O -> owned_at (k tt) (f l) = O -> shape_at (k tt) (f l) ->
  let '(p', (W', l')) := catch (modify (fun s => (fst s, f (snd s)))) k h (W, l) in
  shape_at p' l' /\ owned_step O (owned_at p' l') W W'.
Proof.
  intros Hnd Hok Ho Hs. unfold catch, modify. simpl. rewrite Ho.
  split; [exact Hs|]. apply owned_step_effect; [apply fs_effect_refl|assumption..].
Qed.

(** One [if path and os.path.exists(path): os.remove(path)] of the
    [finally] clause. *)
Lemma fin_rm_owned (get : locals -> option string) next l W rest :
  NoDup (opt_list (get l) ++ rest) -> owned_ok W (opt_list (get l) ++ rest) ->
  owned_at next l = rest -> shape_at next l ->
  let '(p', (W', l')) := fin_stmt (l0 <- gets snd ;; remove_if_exists (get l0)) next (W, l) in
  shape_at p' l' /\ owned_step (opt_list (get l) ++ rest) (owned_at p' l') W W'.
Proof.
  intros Hnd Hok Ho Hs. unfold fin_stmt, catch, bind, gets. simpl.
  rewrite remove_if_exists_run.
  - simpl. rewrite Ho. split; [exact Hs|]. apply owned_step_remove; assumption.
  - intros p Hp. rewrite Forall_forall in Hok. apply (Hok p). rewrite Hp.
    apply elem_of_app. left. apply list_elem_of_singleton. reflexivity.
Qed.

Lemma writes_none_owned {A} (c : M A) (O : list string) :
  writes_within (fun _ => False) c -> writes_within (fun q => q ∈ O) c.
Proof. intros Hc. exact (writes_within_mono _ _ c (fun q (F : False) => False_ind _ F) Hc). Qed.

Lemma writes_eq_owned {A} (c : M A) p (O : list string) :
  p ∈ O -> writes_within (eq p) c -> writes_within (fun q => q ∈ O) c.
Proof. intros Hp Hc. exact (writes_within_mono _ _ c (fun q (E : p = q) => eq_ind p _ Hp q E) Hc). Qed.

Ltac owned_side :=
  intros; simpl; repeat split; eauto; try set_solver.

(** Every statement keeps a session's invariant and acts only on the paths
    the session owns before or after it. *)
Lemma stmt_owned model up p l W f :
  stmt model up p = Some f -> shape_at p l -> NoDup (owned_at p l) -> owned_ok W (owned_at p l) ->
  let '(p', (W', l')) := f (W, l) in
  shape_at p' l' /\ owned_step (owned_at p l) (owned_at p' l') W W'.
Proof.
  destruct p; simpl; intros [= <-] Hsh Hnd Hok;
    repeat match goal with
           | H : exists _, _ |- _ => destruct H as [? H]
           | H : l = _ |- _ => subst l
           end.
  - apply catch_tempfile_owned; owned_side.
  - unfold assign_input.
    apply (catch_assign_owned (fun l => mkLocals (Some tfile_in) (downscaled_video_path l)
                                                 (output_video_path l))); owned_side.
  - apply catch_lift_owned; [intros w0; apply write_file_fs_effect|..]; owned_side.
  - apply catch_lift_owned; [apply writes_none_owned, st_writes_none|..]; owned_side.
  - apply catch_tempfile_owned; owned_side.
  - unfold assign_downscaled.
    apply (catch_assign_owned (fun l => mkLocals (input_video_path l) (Some tfile_downscaled)
                                                 (output_video_path l))); owned_side.
  - apply catch_lift_owned;
      [apply (writes_eq_owned _ tfile_downscaled); [|apply subprocess_ffmpeg_writes]|..];
      owned_side.
  - apply catch_lift_owned; [apply writes_none_owned, st_writes_none|..]; owned_side.
  - apply catch_tempfile_owned; owned_side.
  - unfold assign_output.
    apply (catch_assign_owned (fun l => mkLocals (input_video_path l) (downscaled_video_path l)
                                                 (Some tfile_out))); owned_side.
  - apply catch_lift_owned;
      [apply (writes_eq_owned _ tfile_out); [|apply process_video_writes]|..]; owned_side.
  - apply catch_lift_owned; [apply writes_none_owned, present_writes|..]; owned_side.
  - apply catch_lift_owned; [apply writes_none_owned, report_error_writes|..]; owned_side.
  - apply (fin_rm_owned input_video_path); owned_side.
  - apply (fin_rm_owned downscaled_video_path); owned_side.
  - rewrite <- (app_nil_r (opt_list (output_video_path l))) in Hnd, Hok |- *.
    apply (fin_rm_owned output_video_path); owned_side.
Qed.
End StmtOwned.

(** ** No statement of the block touches the model cache *)

Section StmtFrame.
Context `{Scaler} `{Yolo}.
(** A fact the files and the name generator do not affect and [st.*] keeps. *)
Variable P : world -> Prop.
Hypothesis P_emit : forall el, preserves P (St.emit el).
Hypothesis P_fs : forall f w, P w -> P (map_fs f w).
Hypothesis P_rng : forall r w, P w -> P (set_rng r w).

#[local] Hint Extern 1 (preserves _ (modify _)) =>
  apply preserves_modify; intros ? ?; cbv beta; apply P_fs; assumption : pym.

Lemma catch_lift_frame {A} (c : M A) k h W l :
  preserves P c -> P W -> P (fst (snd (catch (lift c) k h (W, l)))).
Proof.
  intros Hc HW. unfold catch. rewrite lift_run. specialize (Hc W HW).
  destruct (c W) as [[a|e] W']; exact Hc.
Qed.

Lemma fin_rm_frame (get : locals -> option string) next W l :
  P W -> P (fst (snd (fin_stmt (l0 <- gets snd ;; remove_if_exists (get l0)) next (W, l)))).
Proof.
  intros HW. unfold fin_stmt, catch, bind, gets. simpl.
  destruct (remove_if_exists_shape (get l) W l) as [g ->]. exact (P_fs g W HW).
Qed.

Lemma stmt_frame model up p f W l :
  stmt model up p = Some f -> P W -> P (fst (snd (f (W, l)))).
Proof.
  destruct p; simpl; intros [= <-] HW;
    first [ apply fin_rm_frame; exact HW
          | exact HW
          | apply catch_lift_frame; [|exact HW]; unfold Os.write_file, St.info;
            first [ solve [apply (named_temporary_file_frame P); assumption]
                  | apply P_emit
                  | solve [apply (subprocess_run_frame P); assumption]
                  | solve [apply (process_video_frame P); assumption]
                  | solve [apply (present_frame P); assumption]
                  | solve [apply (report_error_frame P); assumption]
                  | solve_preserves ] ].
Qed.
End StmtFrame.

Section StmtCache.
Context `{Scaler} `{Yolo}.

Lemma stmt_cache model up p f W l :
  stmt model up p = Some f -> cache (fst (snd (f (W, l)))) = cache W.
Proof.
  intros Hf. apply (stmt_frame (fun w => cache w = cache W)) with model up p; auto.
  intros el. apply emit_page. auto.
Qed.

Lemma stmt_stop model up p f W l :
  stmt model up p = Some f -> stop_after (fst (snd (f (W, l)))) = stop_after W.
Proof.
  intros Hf. apply (stmt_frame (fun w => stop_after w = stop_after W)) with model up p; auto.
  intros el. apply emit_page. auto.
Qed.
End StmtCache.
