(* ===== verification/Runs.v ===== *)
(** * Runs: script runs of several sessions, interleaved statement by statement

    Every interaction of every browser session makes Streamlit run the
    script (lines 127-128) on a thread of its own: a [run] starts on a
    fresh page with its session's uploader value ([Server.new_page]) and
    executes [main] (lines 45-125) one statement at a time: the statements
    of lines 46-62 ([mpc]), then, when a video was uploaded, the upload
    block ([Concurrency.stmt]).  A statement that raises outside a [try]
    ends the run with that exception, which Streamlit's runner catches.

    The script runs are an instance of the class [ThreadPool] (Pool.v):
    a run owns the temporary files of its upload block, its statements act
    on the files only through them, and [load_model] only adds the model
    of [best.pt] to the cache ([st.cache_resource] holds a lock while it
    computes a value, so the call is one step).  The theorems of Pool.v
    then hold for every interleaving of script runs.  A user's rerun or
    stop request may reach a run at any time: Streamlit records it, and
    the run's first [st.*] call after it raises ([rinterrupt] records it
    between two statements with the number of [st.*] calls the run makes
    before the request arrives).  This file proves that a run scheduled alone is
    [Server.session_run], that runs scheduled one after the other are
    [Server.serve], and that interleaved runs, with any requests,
    restore the file system and keep the cache consistent, on a concrete
    pair of sessions as witness. *)

From S2P Require Import Prelude World Transcoder Detection ModelLoader Orchestrator Session Output Server Pool Concurrency.

(** The statements of [main] before the upload block. *)
Inductive mpc :=
| M_title                          (* line 46 *)
| M_write                          (* line 47 *)
| M_check                          (* lines 49-51 *)
| M_missing_error                  (* line 52 *)
| M_missing_info                   (* lines 53-54 *)
| M_load                           (* lines 55-56 *)
| M_success (model : yolo_handle)  (* line 57 *)
| M_load_error (e : exn)           (* lines 58-60 *)
| M_uploader (model : yolo_handle) (* lines 62, 64 *)
| M_end (r : result exn unit).     (* [main] returned or raised *)

(** Where a run is: in [main] before the block, or in the block (lines
    64-125) with the model and the upload it works on. *)
Inductive rpc :=
| R_main (p : mpc)
| R_block (model : yolo_handle) (up : uploaded_file) (p : pc).

Record run := mkRun { r_pc : rpc; r_loc : locals; r_sess : sess }.

(** Run a statement of [main] on the world and choose where to continue. *)
Definition mcatch {A} (c : M A) (k : A -> rpc) (h : exn -> rpc) (s : world * locals)
    : rpc * (world * locals) :=
  let '(r, w') := c (fst s) in
  (match r with Ok a => k a | Exc e => h e end, (w', snd s)).

(** An exception outside the [try] statements ends [main]. *)
Definition raised (e : exn) : rpc := R_main (M_end (Exc e)).

Section Runs.
Context `{Scaler} `{Yolo}.

Definition mstmt (p : mpc) : option (world * locals -> rpc * (world * locals)) :=
  match p with
  | M_title =>
      Some (mcatch (St.title "YOLOv11 Object Detection") (fun _ => R_main M_write) raised)
  | M_write =>
      Some (mcatch (St.write "This app uses a pre-configured model to detect objects in an uploaded video.")
                   (fun _ => R_main M_check) raised)
  | M_check =>
      Some (mcatch (Os.path_exists model_path)
                   (fun ex => if negb ex then R_main M_missing_error else R_main M_load) raised)
  | M_missing_error =>
      Some (mcatch (St.error ("Error: The model file was not found at the path: " ++ model_path))
                   (fun _ => R_main M_missing_info) raised)
  | M_missing_info =>
      Some (mcatch (St.info "Please make sure the 'best.pt' file is located in the correct directory.")
                   (fun _ => R_main (M_end (Ok tt))) raised)
  | M_load =>
      Some (mcatch (load_model model_path) (fun m => R_main (M_success m))
                   (fun e => R_main (M_load_error e)))
  | M_success m =>
      Some (mcatch (St.success "Model loaded successfully!") (fun _ => R_main (M_uploader m))
                   (fun e => R_main (M_load_error e)))
  | M_load_error e =>
      Some (if is_exception e
            then mcatch (St.error ("An error occurred while loading the model: " ++ exn_str e))
                        (fun _ => R_main (M_end (Ok tt))) raised
            else fun s => (raised e, s))
  | M_uploader m =>
      Some (mcatch (St.file_uploader "Upload a video to begin detection (MP4, MOV, AVI)"
                                     ["mp4"; "mov"; "avi"])
                   (fun o => match o with
                             | None => R_main (M_end (Ok tt))
                             | Some up => R_block m up P_start
                             end) raised)
  | M_end _ => None
  end.

Definition rstmt (p : rpc) : option (world * locals -> rpc * (world * locals)) :=
  match p with
  | R_main mp => mstmt mp
  | R_block m up bp =>
      match stmt m up bp with
      | Some f => Some (fun s => let '(bp', s') := f s in (R_block m up bp', s'))
      | None => None
      end
  end.

(** One statement of a run on the shared world [w]. *)
Definition rstep (r : run) (w : world) : option (run * world) :=
  match rstmt (r_pc r) with
  | None => None
  | Some f =>
      let '(p', (w', l')) := f (enter w (r_sess r), r_loc r) in
      Some (mkRun p' l' (leave w'), enter w' (leave w))
  end.

(** A run alone, with the shared and its own world merged. *)
Fixpoint run_run (fuel : nat) (p : rpc) (s : world * locals) : rpc * (world * locals) :=
  match fuel with
  | O => (p, s)
  | S n =>
      match rstmt p with
      | None => (p, s)
      | Some f => let '(p', s') := f s in run_run n p' s'
      end
  end.
End Runs.

(** A script run of a session whose uploader holds [up], before line 46:
    a fresh page, no stop request, the block's locals not set yet. *)
Definition init_run (up : option uploaded_file) : run :=
  mkRun (R_main M_title) (mkLocals None None None) (mkSess [] up None).

(** How a run ended, once it has. *)
Definition run_result (p : rpc) : option (result exn unit) :=
  match p with
  | R_main (M_end r) | R_block _ _ (P_done r) => Some r
  | _ => None
  end.

Definition rdone (r : run) : bool :=
  match run_result (r_pc r) with Some _ => true | None => false end.

(** A rerun or stop request of the session reaches its run: Streamlit
    records it, and the first [st.*] call after it raises.  [rinterrupt n]
    records it between two statements, with the [n] [st.*] calls the run
    still makes before the request arrives: the call made when the page
    has [length + n] elements raises.  With [n = 0] the
    request arrived before the next statement; with [n > 0] inside a later
    statement, e.g. between the player of line 101 and the download
    button of lines 102-107. *)
Definition rinterrupt (n : nat) (r : run) : option run :=
  if rdone r then None else
  match s_stop (r_sess r) with
  | None => Some (mkRun (r_pc r) (r_loc r)
                        (mkSess (s_ui (r_sess r)) (s_upload (r_sess r))
                                (Some (length (s_ui (r_sess r)) + n)%nat)))
  | Some _ => None
  end.

(** The serial schedule: the runs [j], [j+1], ..., [j+n-1], each alone for
    the 22 statements a run takes at most. *)
Definition serial (j n : nat) : list nat := concat (map (fun i => repeat i 22%nat) (seq j n)).

(** Statements left, at most: 16 for the block, and those of [main]. *)
Definition mrank (p : mpc) : nat :=
  match p with
  | M_title => 7 | M_write => 6 | M_check => 5 | M_load => 4 | M_success _ => 3
  | M_uploader _ => 2 | M_missing_error => 2 | M_load_error _ => 1 | M_missing_info => 1
  | M_end _ => 0
  end.

Definition rrank (p : rpc) : nat :=
  match p with
  | R_main (M_end _) => 0
  | R_main mp => 16 + mrank mp
  | R_block _ _ p => rank p
  end.

(** The statements left, and one more while a request can still reach the run. *)
Definition rweight (r : run) : nat :=
  rrank (r_pc r) + match rinterrupt 0 r with Some _ => 1 | None => 0 end.

(** The temporary files a run owns: those of its upload block. *)
Definition rowned (r : run) : list string :=
  match r_pc r with
  | R_block _ _ p => owned_at p (r_loc r)
  | R_main _ => []
  end.

(** A run's own invariant: before the block its locals are not set; in the
    block they fit the statement, and its files are distinct, not empty and
    exist. *)
Definition rinv (w : world) (r : run) : Prop :=
  match r_pc r with
  | R_main _ => r_loc r = mkLocals None None None
  | R_block _ _ p => shape_at p (r_loc r) /\ NoDup (rowned r) /\ owned_ok w (rowned r)
  end.

(** The model a run holds, once [load_model] returned it. *)
Definition held_model (p : rpc) : option yolo_handle :=
  match p with
  | R_main (M_success m) | R_main (M_uploader m) | R_block m _ _ => Some m
  | _ => None
  end.

(** A call that writes no file and only adds entries to the cache. *)
Definition quietly {A} (c : M A) : Prop := forall W, fs (c W).2 = fs W /\ cache_grows W (c W).2.

(** Every run that holds a model holds the one the cache keeps for
    [best.pt]. *)
Definition model_cached (w : world) (r : run) : Prop :=
  forall m, held_model (r_pc r) = Some m -> cache w !! model_path = Some m.

(** ** The statements of [main] before the block *)

Lemma cache_grows_trans w1 w2 w3 : cache_grows w1 w2 -> cache_grows w2 w3 -> cache_grows w1 w3.
Proof. intros H12 H23 p m Hp. exact (H23 p m (H12 p m Hp)). Qed.

Lemma quietly_bind {A B} (c : M A) (k : A -> M B) :
  quietly c -> (forall a, quietly (k a)) -> quietly (bind c k).
Proof.
  intros Hc Hk W. unfold bind. specialize (Hc W).
  destruct (c W) as [[a|e] W1]; simpl in *; [|exact Hc].
  destruct (Hk a W1) as [Hf Hg]. destruct Hc as [Hf1 Hg1].
  split; [congruence | exact (cache_grows_trans _ _ _ Hg1 Hg)].
Qed.

Lemma quietly_emit el : quietly (St.emit el).
Proof.
  intros W. unfold St.emit, bind, get, modify, raise.
  destruct (bool_decide _); (split; [reflexivity | intros ? ? Hp; exact Hp]).
Qed.

Lemma quietly_gets {A} (g : world -> A) : quietly (gets g).
Proof. intros W. split; [reflexivity | apply cache_grows_refl]. Qed.

Lemma quietly_load_model : quietly (load_model model_path).
Proof.
  intros W. split.
  - apply fs_effect_none. apply (load_model_writes (fun _ => False) model_path W W). apply fs_effect_refl.
  - intros p m Hp. exact (load_model_keeps_entry p m model_path W Hp).
Qed.

Lemma quietly_file_uploader label types : quietly (St.file_uploader label types).
Proof. unfold St.file_uploader. apply quietly_bind; [apply quietly_emit | intros; apply quietly_gets]. Qed.

Lemma mcatch_quietly {A} (c : M A) k h W l :
  quietly c ->
  let '(p', (W', l')) := mcatch c k h (W, l) in fs W' = fs W /\ l' = l /\ cache_grows W W'.
Proof.
  intros Hc. unfold mcatch. simpl. destruct (Hc W) as [Hf Hg].
  destruct (c W) as [r W']. simpl in *. auto.
Qed.

Section MainStmts.
Context `{Scaler} `{Yolo}.

(** The statements of lines 46-62 write no file, keep the block's locals
    and only add entries to the cache. *)
Lemma mstmt_quiet p f W l :
  mstmt p = Some f ->
  let '(p', (W', l')) := f (W, l) in fs W' = fs W /\ l' = l /\ cache_grows W W'.
Proof.
  destruct p; simpl; intros [= <-];
    try (apply mcatch_quietly;
         first [ apply quietly_emit | apply quietly_load_model | apply quietly_file_uploader
               | intros W0; split; [reflexivity | apply cache_grows_refl] ]).
  destruct (is_exception e); [|split; [reflexivity | split; [reflexivity | apply cache_grows_refl]]].
  apply mcatch_quietly, quietly_emit.
Qed.

Lemma mcatch_preserves {A} (Q : world -> Prop) (c : M A) k h W l :
  preserves Q c -> Q W -> Q (mcatch c k h (W, l)).2.1.
Proof.
  intros Hc HW. unfold mcatch. simpl. specialize (Hc W HW).
  destruct (c W) as [r W']. exact Hc.
Qed.

Lemma load_model_world (P : world -> Prop) :
  (forall w f, P w -> P (map_cache f w)) -> preserves P (load_model model_path).
Proof.
  intros HP w Hw. destruct (cache w !! model_path) as [h0|] eqn:Hc.
  - rewrite (cache_hit_run _ h0 w Hc). exact Hw.
  - rewrite (cache_miss_run _ w Hc). destruct (fs w !! model_path) as [[]|]; try exact Hw.
    exact (HP w _ Hw).
Qed.

(** A fact about the world that every element but a player keeps, and that
    adding a cache entry keeps, holds after every statement of lines 46-62. *)
Lemma mstmt_world (P : world -> Prop) p f W l :
  (forall el, (forall f, el <> VideoPlayer f) -> preserves P (St.emit el)) ->
  (forall w c, P w -> P (map_cache c w)) ->
  mstmt p = Some f -> P W -> P (f (W, l)).2.1.
Proof.
  intros Hel Hc Hf. destruct p; simpl in Hf; try discriminate; injection Hf as <-;
    try destruct (is_exception e); try (intros Hw; exact Hw);
    apply mcatch_preserves;
    unfold St.title, St.write, St.error, St.info, St.success, St.file_uploader, Os.path_exists;
    repeat first [ solve [eauto with pym] | preserves_step
                 | apply Hel; intros ? [=]
                 | apply load_model_world; exact Hc ].
Qed.

(** Nor does one change the request pending. *)
Lemma mstmt_stop p f W l : mstmt p = Some f -> stop_after (f (W, l)).2.1 = stop_after W.
Proof.
  intros Hf. apply (mstmt_world (fun w => stop_after w = stop_after W) p f W l);
    [intros el _; apply emit_page; auto | intros w c Hw; exact Hw | exact Hf | reflexivity].
Qed.

(** The model a statement of [main] hands on is the one in the cache. *)
Lemma mstmt_model p f W l :
  mstmt p = Some f ->
  (forall m, held_model (R_main p) = Some m -> cache W !! model_path = Some m) ->
  let '(p', (W', l')) := f (W, l) in
  forall m, held_model p' = Some m -> cache W' !! model_path = Some m.
Proof.
  intros Hf Hm. pose proof (mstmt_quiet p f W l Hf) as Hq. unfold raised in *.
  destruct p; simpl in Hf; try discriminate; injection Hf as <-; simpl in Hm.
  1-5: unfold mcatch; simpl;
       first [ destruct (St.title _ W) as [[?|?] ?] | destruct (St.write _ W) as [[?|?] ?]
             | destruct (Os.path_exists _ W) as [[[]|?] ?] | destruct (St.error _ W) as [[?|?] ?]
             | destruct (St.info _ W) as [[?|?] ?] | idtac ];
       unfold raised; simpl; try destruct (negb _); intros ? [=].
  - unfold mcatch. simpl. destruct (load_model model_path W) as [[m|e] W'] eqn:E;
      simpl; intros m0 Hm0; [|discriminate]. injection Hm0 as <-.
    exact (load_model_keeps _ _ _ _ E).
  - revert Hq. unfold mcatch. simpl. destruct (St.success _ W) as [[[]|e] W']; simpl;
      intros (_ & _ & Hg) m0 Hm0; try discriminate. injection Hm0 as <-. apply Hg, Hm. reflexivity.
  - destruct (is_exception e); [|intros ? [=]]. unfold mcatch. simpl.
    destruct (St.error _ W) as [[[]|e'] W']; intros ? [=].
  - revert Hq. unfold mcatch. simpl. destruct (St.file_uploader _ _ W) as [[[up|]|e] W']; simpl;
      intros (_ & _ & Hg) m0 Hm0; try discriminate.
    injection Hm0 as <-. apply Hg, Hm. reflexivity.
Qed.
End MainStmts.

(** ** Every statement of a run *)

Lemma fs_effect_of_eq (O : list string) W W' : fs W' = fs W -> fs_effect (fun q => q ∈ O) W W'.
Proof. intros E q. rewrite E. split; auto. Qed.

Section RunSteps.
Context `{Scaler} `{Yolo}.

(** From [main], a run goes on in [main] or enters the block at its start. *)
Lemma mstmt_next p f s :
  mstmt p = Some f ->
  (exists mp, (f s).1 = R_main mp /\ (rrank (R_main mp) < rrank (R_main p))%nat) \/
  (exists m up, (f s).1 = R_block m up P_start /\ (rrank (R_block m up P_start) < rrank (R_main p))%nat).
Proof.
  destruct p; simpl; intros Hf; try discriminate; injection Hf as <-; unfold mcatch, raised;
    try destruct (is_exception e);
    try match goal with |- context [?c (fst s)] => destruct (c (fst s)) as [[?|?] ?] end;
    repeat match goal with
           | o : option uploaded_file |- _ => destruct o
           | b : bool |- _ => destruct b
           end; simpl;
    first [left; eexists; split; [reflexivity | simpl; lia]
          | right; do 2 eexists; split; [reflexivity | simpl; lia]].
Qed.

Lemma rstmt_owned p l W f :
  rstmt p = Some f -> rinv W (mkRun p l (leave W)) ->
  let '(p', (W', l')) := f (W, l) in
  rinv W' (mkRun p' l' (leave W')) /\
  owned_step (rowned (mkRun p l (leave W))) (rowned (mkRun p' l' (leave W'))) W W'.
Proof.
  destruct p as [mp|m up bp]; simpl; intros Hf Hinv.
  - pose proof (mstmt_quiet mp f W l Hf) as Hq.
    destruct (mstmt_next mp f (W, l) Hf) as [(mp' & Hp & _)|(m & up & Hp & _)];
      destruct (f (W, l)) as [p' [W' l']]; simpl in Hp; subst p'; destruct Hq as (Hfs & -> & _);
      unfold rinv, rowned in *; simpl in *; subst l.
    + split; [reflexivity|]. apply owned_step_effect; [apply fs_effect_of_eq, Hfs | constructor | constructor].
    + split; [split; [reflexivity | split; constructor]|].
      apply owned_step_effect; [apply fs_effect_of_eq, Hfs | constructor | constructor].
  - destruct (stmt m up bp) as [g|] eqn:Hg; [|discriminate]. injection Hf as <-.
    destruct Hinv as (Hsh & Hnd & Hok).
    pose proof (stmt_owned m up bp l W g Hg Hsh Hnd Hok) as Hst.
    destruct (g (W, l)) as [bp' [W' l']]. destruct Hst as [Hsh' Hstep].
    split; [|exact Hstep]. pose proof Hstep as (Hnd' & Hok' & _). split; [exact Hsh'|]. auto.
Qed.

Lemma rstep_owned r w r' w' :
  rinv w r -> rstep r w = Some (r', w') -> rinv w' r' /\ owned_step (rowned r) (rowned r') w w'.
Proof.
  intros Hinv. unfold rstep. destruct (rstmt (r_pc r)) as [f|] eqn:Hf; [|discriminate].
  destruct r as [p l s]. simpl in *.
  pose proof (rstmt_owned p l (enter w s) f Hf) as Hst.
  destruct (f (enter w s, l)) as [p' [W' l']]. intros [= <- <-].
  exact (Hst Hinv).
Qed.

Lemma rstep_cache r w r' w' : rstep r w = Some (r', w') -> cache_grows w w'.
Proof.
  unfold rstep. destruct (rstmt (r_pc r)) as [f|] eqn:Hf; [|discriminate].
  destruct (r_pc r) as [mp|m up bp]; simpl in Hf.
  - pose proof (mstmt_quiet mp f (enter w (r_sess r)) (r_loc r) Hf) as Hq.
    destruct (f _) as [p' [W' l']]. intros [= _ <-]. exact (proj2 (proj2 Hq)).
  - destruct (stmt m up bp) as [g|] eqn:Hg; [|discriminate]. injection Hf as <-.
    pose proof (stmt_cache m up bp g (enter w (r_sess r)) (r_loc r) Hg) as Hc.
    destruct (g _) as [bp' [W' l']]. intros [= _ <-]. simpl in *. intros p0 m0 Hp0.
    simpl. rewrite Hc. exact Hp0.
Qed.

Lemma rinv_frame r w w' : rinv w r -> others_frame (rowned r) w w' -> rinv w' r.
Proof.
  intros Hinv [Hf _]. destruct r as [[mp|m up bp] l s]; [exact Hinv|].
  destruct Hinv as (Hsh & Hnd & Hok). split; [exact Hsh|]. split; [exact Hnd|].
  rewrite Forall_forall in *. intros q Hq. rewrite (Hf q Hq). exact (Hok q Hq).
Qed.

Lemma rinv_owned r w : rinv w r -> NoDup (rowned r) /\ owned_ok w (rowned r).
Proof.
  destruct r as [[mp|m up bp] l s]; simpl; [intros _; split; constructor|].
  intros (_ & Hnd & Hok). split; assumption.
Qed.

Lemma rstep_rrank r w r' w' : rstep r w = Some (r', w') -> (rrank (r_pc r') < rrank (r_pc r))%nat.
Proof.
  unfold rstep. destruct (rstmt (r_pc r)) as [f|] eqn:Hf; [|discriminate].
  destruct (r_pc r) as [mp|m up bp]; simpl in Hf.
  - destruct (mstmt_next mp f (enter w (r_sess r), r_loc r) Hf) as [(mp' & Hp & Hr)|(m & up & Hp & Hr)];
      destruct (f _) as [p' [W' l']]; simpl in Hp; subst p'; intros [= <- _]; exact Hr.
  - destruct (stmt m up bp) as [g|] eqn:Hg; [|discriminate]. injection Hf as <-.
    pose proof (stmt_rank m up bp g (enter w (r_sess r), r_loc r) Hg) as Hr.
    destruct (g _) as [bp' [W' l']]. intros [= <- _]. exact Hr.
Qed.

Lemma rstep_stop r w r' w' : rstep r w = Some (r', w') -> s_stop (r_sess r') = s_stop (r_sess r).
Proof.
  unfold rstep. destruct (rstmt (r_pc r)) as [f|] eqn:Hf; [|discriminate].
  destruct (r_pc r) as [mp|m up bp]; simpl in Hf.
  - pose proof (mstmt_stop mp f (enter w (r_sess r)) (r_loc r) Hf) as Hs.
    destruct (f _) as [p' [W' l']]. intros [= <- _]. exact Hs.
  - destruct (stmt m up bp) as [g|] eqn:Hg; [|discriminate]. injection Hf as <-.
    pose proof (stmt_stop m up bp g (enter w (r_sess r)) (r_loc r) Hg) as Hs.
    destruct (g _) as [bp' [W' l']]. intros [= <- _]. exact Hs.
Qed.

Lemma rstmt_not_done r f : rstmt (r_pc r) = Some f -> rdone r = false.
Proof.
  unfold rdone, run_result. destruct (r_pc r) as [[]|m up []]; simpl; try discriminate; auto.
Qed.

Lemma rstep_rank r w r' w' : rstep r w = Some (r', w') -> (rweight r' < rweight r)%nat.
Proof.
  intros Hs. pose proof (rstep_rrank r w r' w' Hs) as Hr. pose proof (rstep_stop r w r' w' Hs) as Hst.
  assert (Hd : rdone r = false).
  { unfold rstep in Hs. destruct (rstmt (r_pc r)) as [f|] eqn:Hf; [|discriminate].
    exact (rstmt_not_done r f Hf). }
  unfold rweight, rinterrupt. rewrite Hd, Hst.
  destruct (rdone r'), (s_stop (r_sess r)); lia.
Qed.

Lemma rinterrupt_shape n r r' :
  rinterrupt n r = Some r' ->
  r' = mkRun (r_pc r) (r_loc r) (mkSess (s_ui (r_sess r)) (s_upload (r_sess r))
                                        (Some (length (s_ui (r_sess r)) + n)%nat)).
Proof. unfold rinterrupt. destruct (rdone r), (s_stop (r_sess r)); intros [= <-]; reflexivity. Qed.

Lemma rinterrupt_owned n r r' : rinterrupt n r = Some r' -> rowned r' = rowned r.
Proof. unfold rinterrupt. destruct (rdone r), (s_stop (r_sess r)); intros [= <-]; reflexivity. Qed.

Lemma rinterrupt_inv n r r' w : rinterrupt n r = Some r' -> rinv w r -> rinv w r'.
Proof. unfold rinterrupt. destruct (rdone r), (s_stop (r_sess r)); intros [= <-] Hi; exact Hi. Qed.

Lemma rinterrupt_rank n r r' : rinterrupt n r = Some r' -> (rweight r' < rweight r)%nat.
Proof.
  unfold rweight, rinterrupt. destruct (rdone r) eqn:Hd, (s_stop (r_sess r)); intros [= <-].
  simpl. unfold rdone in *. simpl. rewrite Hd. lia.
Qed.

Lemma rstep_progress r w : rdone r = false -> exists r' w', rstep r w = Some (r', w').
Proof.
  intros Hd. unfold rstep.
  assert (Hs : exists f, rstmt (r_pc r) = Some f).
  { unfold rdone, run_result in Hd. destruct (r_pc r) as [[]|m up bp]; simpl; try discriminate; eauto.
    destruct (stmt_some m up bp) as [g Hg]; [destruct bp; try discriminate; reflexivity|].
    rewrite Hg. eauto. }
  destruct Hs as [f Hf]. rewrite Hf. destruct (f _) as [p' [W' l']]. eauto.
Qed.

Lemma rdone_owned r : rdone r = true -> rowned r = [].
Proof.
  unfold rdone, run_result, rowned. destruct (r_pc r) as [[]|m up []]; simpl; congruence.
Qed.

#[export] Instance run_pool : ThreadPool run := {|
  th_step := rstep;
  th_owned := rowned;
  th_inv := rinv;
  th_rank := rweight;
  th_done := rdone;
  th_interrupt := rinterrupt;
  th_step_owned := rstep_owned;
  th_step_cache := rstep_cache;
  th_inv_frame := rinv_frame;
  th_inv_owned := rinv_owned;
  th_step_rank := rstep_rank;
  th_interrupt_owned := rinterrupt_owned;
  th_interrupt_inv := rinterrupt_inv;
  th_interrupt_rank := rinterrupt_rank;
  th_progress := rstep_progress;
  th_done_owned := rdone_owned
|}.
End RunSteps.

(** ** A run alone is the sequential script run *)

Section Alone.
Context `{Scaler} `{Yolo}.

Lemma run_run_S n p s f :
  rstmt p = Some f -> run_run (S n) p s = let '(p', s') := f s in run_run n p' s'.
Proof. intros Hp. simpl. rewrite Hp. reflexivity. Qed.

Lemma run_run_end n r s : run_run n (R_main (M_end r)) s = (R_main (M_end r), s).
Proof. destruct n; reflexivity. Qed.

Lemma run_run_block n m up bp s :
  run_run n (R_block m up bp) s = let '(bp', s') := run_alone m up n bp s in (R_block m up bp', s').
Proof.
  revert bp s. induction n as [|n IH]; intros bp s; simpl; [reflexivity|].
  destruct (stmt m up bp) as [f|]; [|reflexivity]. destruct (f s) as [bp' s']. apply IH.
Qed.

Ltac run_step := try unfold ret; cbv beta iota zeta; erewrite run_run_S by reflexivity; unfold mcatch, raised; cbn [fst snd].
Ltac run_end := cbv beta iota zeta; rewrite run_run_end; reflexivity.

(** Enough fuel: six statements of [main] and sixteen of the block. *)
Lemma run_run_main n W :
  (22 <= n)%nat ->
  let '(p', (W', _)) := run_run n (R_main M_title) (W, mkLocals None None None) in
  (run_result p', W') = (Some (main W).1, (main W).2).
Proof.
  intros Hn. do 6 (destruct n as [|n]; [lia|]).
  unfold main, try_except, bind.
  run_step. destruct (St.title _ W) as [[[]|e] W1]; [|run_end].
  run_step. destruct (St.write _ W1) as [[[]|e] W2]; [|run_end].
  run_step. destruct (Os.path_exists model_path W2) as [[[]|e] W3]; cbn [negb];
    [| | run_end].
  - run_step. destruct (load_model model_path W3) as [[m|e] W4].
    + run_step. destruct (St.success _ W4) as [[[]|e] W5].
      * run_step. destruct (St.file_uploader _ _ W5) as [[[up|]|e] W6];
          [| run_end | run_end].
        rewrite run_run_block, run_alone_block by lia.
        unfold handle_upload, try_finally.
        destruct (try_except (upload_body m up) upload_handler (W6, mkLocals None None None))
          as [r [W7 l7]].
        destruct (cleanup (W7, l7)) as [[[]|e] [W8 l8]]; reflexivity.
      * run_step. destruct (is_exception e); cbv beta iota; cbn [fst snd]; [|run_end].
        destruct (St.error _ W5) as [[[]|e'] W6]; run_end.
    + run_step. destruct (is_exception e); cbv beta iota; cbn [fst snd]; [|run_end].
      destruct (St.error _ W4) as [[[]|e'] W5]; run_end.
  - run_step. destruct (St.error _ W3) as [[[]|e] W4]; [|run_end].
    run_step. destruct (St.info _ W4) as [[[]|e] W5]; run_end.
Qed.
End Alone.

Section Sched.
Context `{Scaler} `{Yolo}.

Lemma run_sched_stuck k w ts i r :
  ts !! i = Some r -> rstmt (r_pc r) = None ->
  run_sched (repeat i k) (mkConfig w ts) = mkConfig w ts.
Proof.
  intros Hi Hr. induction k as [|k IH]; [reflexivity|]. simpl. rewrite Hi.
  unfold rstep. rewrite Hr. exact IH.
Qed.

(** Scheduling one run alone for [k] steps is running its statements with
    fuel [k] on the world it sees; the other runs wait. *)
Lemma run_sched_thread k w ts i r :
  ts !! i = Some r ->
  run_sched (repeat i k) (mkConfig w ts) =
  let '(p', (W', l')) := run_run k (r_pc r) (enter w (r_sess r), r_loc r) in
  mkConfig (enter W' (leave w)) (<[i := mkRun p' l' (leave W')]> ts).
Proof.
  revert w ts r. induction k as [|k IH]; intros w ts [p l s] Hi; simpl.
  - rewrite enter_enter, enter_leave, leave_enter, list_insert_id by exact Hi. reflexivity.
  - rewrite Hi. unfold rstep. simpl. destruct (rstmt p) as [f|] eqn:Hp.
    + destruct (f (enter w s, l)) as [p' [w' l']].
      rewrite (IH _ _ (mkRun p' l' (leave w')))
        by (apply list_lookup_insert_eq; exact (lookup_lt_Some _ _ _ Hi)). simpl.
      rewrite enter_enter, enter_leave. destruct (run_run k p' (w', l')) as [p'' [W'' l'']].
      rewrite leave_enter, list_insert_insert_eq. reflexivity.
    + rewrite (run_sched_stuck k w ts i (mkRun p l s) Hi Hp), enter_enter, enter_leave, leave_enter,
        list_insert_id by exact Hi.
      reflexivity.
Qed.
End Sched.

(** ** Runs one after the other are [Server.serve] *)

Section Serial.
Context `{Scaler} `{Yolo}.

Lemma session_run_main up w : session_run up w = main (new_page up w).
Proof. reflexivity. Qed.

Lemma serial_S j n : serial j (S n) = (repeat j 22%nat ++ serial (S j) n)%list.
Proof. reflexivity. Qed.

Lemma try_except_ignore_ok (c : M unit) w : try_except c (fun _ => ret tt) w = (Ok tt, (c w).2).
Proof. unfold try_except. destruct (c w) as [[[]|e] w']; reflexivity. Qed.

Lemma serve_cons up rest w : (serve (up :: rest) w).2 = (serve rest (session_run up w).2).2.
Proof. cbn [serve]. unfold bind at 1. rewrite try_except_ignore_ok. reflexivity. Qed.

(** A script run starts on a fresh page: the session part of the world it
    starts from does not matter. *)
Lemma serve_enter ups w s s' : enter (serve ups (enter w s)).2 s' = enter (serve ups w).2 s'.
Proof.
  destruct ups as [|up rest]; [apply enter_enter|].
  rewrite !serve_cons. reflexivity.
Qed.

Lemma serial_runs_gen pre ups w :
  Forall (fun r => rdone r = true) pre ->
  c_world (run_sched (serial (length pre) (length ups)) (mkConfig w (pre ++ map init_run ups)%list))
    = enter (serve ups w).2 (leave w) /\
  all_done (run_sched (serial (length pre) (length ups)) (mkConfig w (pre ++ map init_run ups)%list)).
Proof.
  revert pre w. induction ups as [|up rest IH]; intros pre w Hpre.
  - rewrite app_nil_r. split; [symmetry; apply enter_leave | exact Hpre].
  - cbn [length map]. rewrite serial_S, run_sched_app.
    assert (Hj : (pre ++ init_run up :: map init_run rest)%list !! length pre = Some (init_run up))
      by (rewrite lookup_app_r, Nat.sub_diag by lia; reflexivity).
    rewrite (run_sched_thread 22 w _ (length pre) (init_run up) Hj).
    pose proof (run_run_main 22 (new_page up w) (le_n 22)) as E.
    change (enter w (r_sess (init_run up))) with (new_page up w).
    change (r_pc (init_run up)) with (R_main M_title).
    change (r_loc (init_run up)) with (mkLocals None None None).
    destruct (run_run 22 (R_main M_title) _) as [p' [W' l']]. injection E as Er EW.
    assert (Hins : <[length pre := mkRun p' l' (leave W')]> (pre ++ init_run up :: map init_run rest)%list
                   = ((pre ++ [mkRun p' l' (leave W')]) ++ map init_run rest)%list).
    { rewrite insert_app_r_alt, Nat.sub_diag by lia. rewrite <- app_assoc. reflexivity. }
    rewrite Hins.
    assert (Hpre' : Forall (fun r => rdone r = true) (pre ++ [mkRun p' l' (leave W')])%list).
    { apply Forall_app. split; [exact Hpre|]. constructor; [|constructor].
      unfold rdone. simpl. rewrite Er. reflexivity. }
    destruct (IH _ (enter W' (leave w)) Hpre') as [Hw Hd].
    rewrite length_app, Nat.add_1_r in Hw, Hd. split; [|exact Hd].
    rewrite Hw, serve_enter, leave_enter, serve_cons, session_run_main, EW. reflexivity.
Qed.
End Serial.

(** ** The model a run holds, and the cache's keys *)

Section RunCache.
Context `{Scaler} `{Yolo}.


Lemma init_runs_cinv w ups : cinv (fs w) (mkConfig w (map init_run ups)).
Proof. apply cinv_start. induction ups; constructor; [split; reflexivity | exact IHups]. Qed.

(** A property of the cache that [load_model] keeps is kept by every step. *)
Section CachePred.
Variable Q : gmap string yolo_handle -> Prop.
Hypothesis Q_load : preserves (fun w => Q (cache w)) (load_model model_path).

Lemma mstmt_cache_pred p f W l : mstmt p = Some f -> Q (cache W) -> Q (cache (f (W, l)).2.1).
Proof.
  intros Hf. destruct p; simpl in Hf; try discriminate; injection Hf as <-;
    try destruct (is_exception e); try (intros Hk; exact Hk);
    apply (mcatch_preserves (fun w => Q (cache w)));
    unfold St.title, St.write, St.error, St.info, St.success, St.file_uploader, Os.path_exists;
    repeat first [ solve [eauto with pym] | preserves_step | apply (emit_cache Q) | apply Q_load ].
Qed.

Lemma rstep_cache_pred r w r' w' : rstep r w = Some (r', w') -> Q (cache w) -> Q (cache w').
Proof.
  unfold rstep. destruct (rstmt (r_pc r)) as [f|] eqn:Hf; [|discriminate].
  destruct (r_pc r) as [mp|m up bp]; simpl in Hf.
  - pose proof (mstmt_cache_pred mp f (enter w (r_sess r)) (r_loc r) Hf) as Hk.
    destruct (f _) as [p' [W' l']]. intros [= _ <-]. exact Hk.
  - destruct (stmt m up bp) as [g|] eqn:Hg; [|discriminate]. injection Hf as <-.
    pose proof (stmt_cache m up bp g (enter w (r_sess r)) (r_loc r) Hg) as Hc.
    destruct (g _) as [bp' [W' l']]. intros [= _ <-]. simpl in *. rewrite Hc. exact id.
Qed.

Lemma rtc_cache_pred w ups c :
  Q (cache w) -> rtc cstep (mkConfig w (map init_run ups)) c -> Q (cache (c_world c)).
Proof.
  intros Hq Hr.
  apply (rtc_world (fun w0 => Q (cache w0)) (fs w) (mkConfig w (map init_run ups)) c);
    [|exact (init_runs_cinv w ups) | exact Hq | exact Hr].
  intros t w0 t' w0' _ Hk0 Hs. exact (rstep_cache_pred t w0 t' w0' Hs Hk0).
Qed.
End CachePred.

Lemma rstep_model r w r' w' :
  model_cached w r -> rstep r w = Some (r', w') -> model_cached w' r'.
Proof.
  intros Hm. unfold rstep. destruct (rstmt (r_pc r)) as [f|] eqn:Hf; [|discriminate].
  destruct r as [[mp|m up bp] l s]; simpl in Hf.
  - pose proof (mstmt_model mp f (enter w s) l Hf Hm) as Hq.
    destruct (f _) as [p' [W' l']]. intros [= <- <-]. exact Hq.
  - destruct (stmt m up bp) as [g|] eqn:Hg; [|discriminate]. injection Hf as <-.
    pose proof (stmt_cache m up bp g (enter w s) l Hg) as Hc.
    destruct (g _) as [bp' [W' l']]. intros [= <- <-]. intros m0 Hm0. simpl in *.
    rewrite Hc. exact (Hm m0 Hm0).
Qed.

Lemma model_cached_frame r w w' O : model_cached w r -> others_frame O w w' -> model_cached w' r.
Proof. intros Hm [_ Hg] m Hp. exact (Hg _ _ (Hm m Hp)). Qed.


Lemma init_runs_cached w ups : all_S model_cached (mkConfig w (map init_run ups)).
Proof.
  intros i t Ht m Hm. simpl in Ht. rewrite list_lookup_fmap in Ht.
  destruct (ups !! i); simpl in Ht; [|discriminate]. injection Ht as <-. discriminate.
Qed.
End RunCache.

(** ** Claims *)

Section RunClaims.
Context `{Scaler} `{Yolo}.

Lemma rtc_model_cached w ups c :
  rtc cstep (mkConfig w (map init_run ups)) c -> all_S model_cached c.
Proof.
  intros Hr.
  destruct (rtc_local model_cached) with (m0 := fs w) (c := mkConfig w (map init_run ups)) (c' := c)
    as [_ Hm]; [ | | | exact (init_runs_cinv w ups) | exact (init_runs_cached w ups) | exact Hr | exact Hm].
  - intros t w0 t' w0' _ Hm Hs. exact (rstep_model t w0 t' w0' Hm Hs).
  - intros t w0 w0' _ Hm Hf. exact (model_cached_frame t w0 w0' _ Hm Hf).
  - intros n t t' w0 Hi _ Hm. rewrite (rinterrupt_shape n t t' Hi). exact Hm.
Qed.

(** Consistency of the two models of a script run: a run scheduled alone,
    for at least 22 steps, is the sequential script run of [Server.session_run]: the same result, the
    same shared world, and the page it leaves is the page of the run. *)
Lemma run_alone_is_session_run up w n :
  (22 <= n)%nat ->
  exists r, c_threads (run_sched (repeat 0%nat n) (mkConfig w [init_run up])) = [r] /\
            run_result (r_pc r) = Some (session_run up w).1 /\
            c_world (run_sched (repeat 0%nat n) (mkConfig w [init_run up])) =
              enter (session_run up w).2 (leave w) /\
            r_sess r = leave (session_run up w).2.
Proof.
  intros Hn. rewrite (run_sched_thread n w [init_run up] 0 (init_run up) eq_refl), session_run_main. simpl.
  pose proof (run_run_main n (new_page up w) Hn) as E.
  change (enter w (mkSess [] up None)) with (new_page up w).
  destruct (run_run n (R_main M_title) _) as [p' [W' l']]. injection E as E1 E2.
  subst W'. eexists. split; [reflexivity|]. simpl. auto.
Qed.

(** Consistency of the interleaving with Streamlit's sequential serving
    loop of Server.v: scheduling the runs of a list of sessions one after the
    other, each alone for its (at most) 22 statements, finishes every run
    and leaves exactly the files, temporary names and model cache of
    [Server.serve] on the same sessions. *)
Lemma serial_runs_are_serve ups w :
  c_world (run_sched (serial 0 (length ups)) (mkConfig w (map init_run ups)))
    = enter (serve ups w).2 (leave w) /\
  all_done (run_sched (serial 0 (length ups)) (mkConfig w (map init_run ups))).
Proof. exact (serial_runs_gen [] ups w (Forall_nil_2 _)). Qed.

(** C2: however the scheduler interleaves the statements of any number of
    concurrent script runs, once every run has finished the file system is
    the one they started with: no temporary file is left behind and no
    run deleted a file that was not its own. *)
Theorem runs_restore_fs w ups c :
  rtc cstep (mkConfig w (map init_run ups)) c -> all_done c -> fs (c_world c) = fs w.
Proof.
  intros Hr Hd. exact (cinv_all_done _ _ (rtc_cinv _ _ _ (init_runs_cinv w ups) Hr) Hd).
Qed.

(** C13: every configuration reachable from concurrent script runs keeps
    the ownership invariant (each temporary file owned by one run, every
    other path as at the start), each run that holds a model holds the one
    in the cache under [best.pt], the cache has no other key, and every
    handle in it was loaded from the path it is kept under. *)
Theorem reachable_runs_invariant w ups c :
  cache_keys_ok (cache w) -> cache_wf w -> rtc cstep (mkConfig w (map init_run ups)) c ->
  cinv (fs w) c /\ all_S model_cached c /\ cache_keys_ok (cache (c_world c)) /\ cache_wf (c_world c).
Proof.
  intros Hk Hwf Hr.
  split; [exact (rtc_cinv _ _ _ (init_runs_cinv w ups) Hr)|].
  split; [exact (rtc_model_cached w ups c Hr)|].
  split; [exact (rtc_cache_pred _ load_model_keys w ups c Hk Hr)|].
  exact (rtc_cache_pred (fun m => forall p h, m !! p = Some h -> model_file h = p)
           (load_model_cache_wf model_path) w ups c Hwf Hr).
Qed.

End RunClaims.

(** ** Witnesses: two sessions upload videos to a process that has [best.pt] *)

(** A witness names the run at index [i] of a configuration it computes,
    and reads facts of that run off the computed value. *)
Tactic Notation "run_at" constr(c) constr(i) "as" ident(r) ident(H) :=
  destruct (c_threads c !! i) as [r|] eqn:H; [|vm_compute in H; discriminate].

Tactic Notation "computed" hyp(H) tactic3(tac) := vm_compute in H; injection H as <-; tac.

Section Witnesses.
#[local] Existing Instances scaler_relabel yolo_two_boxes.

Definition loaded_world : world :=
  set_rng ["a1b2c3d4"; "e5f6g7h8"; "i9j0k1l2"; "m3n4o5p6"; "q7r8s9t0"; "u1v2w3x4"]
          (map_fs (<[model_path := WeightsFile 7]>) sample_world).

Definition clip_upload : uploaded_file :=
  UploadedFile "clip.mp4" (VideoFile (sample_video 720 1280 1)).

Definition two_uploads : list (option uploaded_file) := [Some street_upload; Some clip_upload].

Definition two_runs : config run := mkConfig loaded_world (map init_run two_uploads).

(** A schedule that alternates between the two runs, statement by statement. *)
Definition alternate : list nat := concat (repeat [0%nat; 1%nat] 23).

(** The two runs alternate for 32 statements; the first run is
    then at [process_video] (line 95) when its session's request arrives. *)
Definition interrupted_runs : config run := interrupt_at 0 0 (run_sched (firstn 32 alternate) two_runs).

Definition interrupted_end : config run := run_sched alternate interrupted_runs.

Lemma interrupted_reachable :
  rtc cstep (mkConfig loaded_world (map init_run two_uploads)) interrupted_runs.
Proof. etransitivity; [apply run_sched_rtc | apply interrupt_at_rtc]. Qed.

Lemma runs_restore_fs_witness :
  rtc cstep (mkConfig loaded_world (map init_run two_uploads)) interrupted_end /\
  all_done interrupted_end /\
  fs (c_world interrupted_end) = fs loaded_world.
Proof.
  assert (Hr : rtc cstep (mkConfig loaded_world (map init_run two_uploads)) interrupted_end).
  { etransitivity; [apply interrupted_reachable | apply run_sched_rtc]. }
  assert (Hd : all_done interrupted_end).
  { unfold all_done. vm_compute. repeat constructor. }
  split; [exact Hr|]. split; [exact Hd|].
  exact (runs_restore_fs loaded_world two_uploads _ Hr Hd).
Defined.
Lemma reachable_runs_invariant_witness :
  cache_keys_ok (cache loaded_world) /\ cache_wf loaded_world /\
  rtc cstep (mkConfig loaded_world (map init_run two_uploads)) (run_sched (firstn 9 alternate) two_runs) /\
  cinv (fs loaded_world) (run_sched (firstn 9 alternate) two_runs) /\
  all_S model_cached (run_sched (firstn 9 alternate) two_runs) /\
  cache_keys_ok (cache (c_world (run_sched (firstn 9 alternate) two_runs))) /\
  cache_wf (c_world (run_sched (firstn 9 alternate) two_runs)).
Proof.
  assert (Hk : cache_keys_ok (cache loaded_world)) by (intros p [x Hx]; discriminate Hx).
  assert (Hwf : cache_wf loaded_world) by (intros p h Hx; discriminate Hx).
  pose proof (run_sched_rtc (firstn 9 alternate) two_runs) as Hr.
  split; [exact Hk|]. split; [exact Hwf|]. split; [exact Hr|].
  exact (reachable_runs_invariant loaded_world two_uploads _ Hk Hwf Hr).
Defined.

End Witnesses.
