(* ===== verification/Isolation.v ===== *)
(** * Isolation: a run's player shows its own upload's result

    In every interleaving of concurrent script runs (Runs.v), a video player
    on a run's page shows the reference output ([expected_output], Output.v)
    of that run's own upload, made by the model that is in the shared cache.
    Each run keeps a fact about its page before each statement: no player
    while it runs [main]'s first statements, and in the block a fact about
    the files it owns ([data_at]) and its page ([page_at]). The statements
    of the other runs keep it because they never touch those files
    (Pool.v, Concurrency.v) and never write to this run's page. The upload a
    run's block works on is the one of the run's session, read by
    [st.file_uploader]. *)

From S2P Require Import Prelude World Transcoder Detection ModelLoader Orchestrator Session Output Server Pool Concurrency Runs.

Section Pages.
Context `{Scaler} `{Yolo}.

(** What holds of the files a session owns, before each statement. *)
Definition data_at (model : yolo_handle) (up : uploaded_file) (p : pc) (w : world) : Prop :=
  match p with
  | P_info1 p1 | P_tmp_down p1 | P_assign_down p1 _ | P_ffmpeg p1 _ => fs w !! p1 = Some (up_data up)
  | P_info2 p2 | P_tmp_out p2 => normalised_at up p2 w
  | P_assign_out p2 p3 | P_process p2 p3 =>
      normalised_at up p2 w /\ fs w !! p3 = Some (RawFile [])
  | P_present p3 => detected_at up model p3 w
  | _ => True
  end.

(** What holds of the session's page: no player until the output is
    presented; afterwards every player shows the reference output. *)
Definition page_at (model : yolo_handle) (up : uploaded_file) (p : pc) (w : world) : Prop :=
  match p with
  | P_except _ | P_rm_in _ | P_rm_down _ | P_rm_out _ | P_done _ => player_ok [] up model w
  | _ => no_player [] w /\ data_at model up p w
  end.

End Pages.

(** ** A session's own statements *)

Lemma catch_hoare {A} P (c : MS A) Q X k h (R : pc -> world * locals -> Prop) s :
  hoare P c Q X -> P s -> (forall a s', Q a s' -> R (k a) s') -> (forall e s', X e s' -> R (h e) s') ->
  let '(p', s') := catch c k h s in R p' s'.
Proof.
  intros Hc Hs Hk Hh. unfold catch. specialize (Hc s Hs).
  destruct (c s) as [[a|e] s']; auto.
Qed.

Lemma nodup_two (a b : string) : NoDup [a; b] -> b <> a.
Proof. intros Hnd ->. apply NoDup_cons in Hnd as [Hn _]. apply Hn. left. Qed.

Lemma nodup_three_23 (a b c : string) : NoDup [a; b; c] -> c <> b.
Proof. intros Hnd. apply NoDup_cons in Hnd as [_ Hnd]. exact (nodup_two _ _ Hnd). Qed.

Section Own.
Context `{Scaler} `{Yolo}.

Lemma fs_only_normalised up p w w' :
  normalised_at up p w -> fs w' !! p = fs w !! p -> normalised_at up p w'.
Proof. intros (v & ow & oh & Hd & Hsd & Hw & Hh & Hp) E. exists v, ow, oh. rewrite E. auto. Qed.

Lemma fs_only_detected up model p w w' :
  detected_at up model p w -> fs w' !! p = fs w !! p -> detected_at up model p w'.
Proof. intros [(v & Hd & Hr & Hp) | Hp] E; rewrite <- E in Hp; [left; eauto | right; exact Hp]. Qed.

Lemma player_ok_map_fs up model f w : player_ok [] up model w -> player_ok [] up model (map_fs f w).
Proof. intros (o & Hu & Ho). exists o. split; [exact Hu | exact Ho]. Qed.

Ltac page_side :=
  repeat match goal with
         | |- forall _, _ => intros
         | H : _ /\ _ |- _ => destruct H
         | |- _ /\ _ => split
         end; simpl in *; eauto using no_player_ok.

(** What the temporary-file and progress-note statements keep of the files. *)
Lemma fs_eq_at q x w w' : fs w !! q = Some x -> fs w' = fs w -> fs w' !! q = Some x.
Proof. intros Hp E. rewrite E. exact Hp. Qed.

Lemma normalised_fs_eq up q w w' : normalised_at up q w -> fs w' = fs w -> normalised_at up q w'.
Proof. intros Hp E. apply (fs_only_normalised _ _ w); [exact Hp | rewrite E; reflexivity]. Qed.

Lemma tempfile_keeps_at q x w p w' :
  no_player [] w -> fs w !! q = Some x -> fs w !! p = None -> fs w' = <[p := RawFile []]> (fs w) ->
  ui w' = ui w -> stop_after w' = stop_after w -> fs w' !! q = Some x.
Proof. intros _ Hp Hfree Hfs _ _. rewrite Hfs, lookup_insert_ne by (intros ->; congruence). exact Hp. Qed.

Lemma tempfile_keeps_normalised up q w p w' :
  no_player [] w -> normalised_at up q w -> fs w !! p = None -> fs w' = <[p := RawFile []]> (fs w) ->
  ui w' = ui w -> stop_after w' = stop_after w ->
  normalised_at up q w' /\ fs w' !! p = Some (RawFile []).
Proof.
  intros _ Hp Hfree Hfs _ _. split; [|rewrite Hfs; apply lookup_insert_eq].
  apply (fs_only_normalised _ _ w); [exact Hp|]. destruct Hp as (v & ow & oh & _ & _ & _ & _ & Hp2).
  rewrite Hfs, lookup_insert_ne by (intros ->; congruence). reflexivity.
Qed.

(** An [if] statement of the [finally] clause only removes files. *)
Lemma fin_rm_page (Q : pc -> world -> Prop) (get : locals -> option string) next W l :
  (forall g, Q next (map_fs g W)) ->
  let '(p', s') := fin_stmt (l0 <- gets snd ;; remove_if_exists (get l0)) next (W, l) in Q p' (fst s').
Proof.
  intros HQ. unfold fin_stmt, catch, bind, gets. simpl.
  destruct (remove_if_exists_shape (get l) W l) as [g ->]. apply HQ.
Qed.

(** A statement of the [try] body or the handler, through its Hoare triple. *)
Tactic Notation "page_catch" constr(m) constr(u) uconstr(lem) :=
  apply (catch_hoare _ _ _ _ _ _ (fun p s => page_at m u p (fst s)) _ lem); page_side.

(** Every statement keeps the page invariant of the session running it. *)
Lemma stmt_page model up p l W f :
  stmt model up p = Some f -> shape_at p l -> NoDup (owned_at p l) -> page_at model up p W ->
  let '(p', s') := f (W, l) in page_at model up p' (fst s').
Proof.
  destruct p; simpl; intros [= <-] Hsh Hnd Hpg;
    repeat match goal with
           | H : exists _, _ |- _ => destruct H as [? H]
           | H : l = _ |- _ => subst l
           end; simpl in Hnd.
  1,4,5,8,9,12,13: first
    [ solve [page_catch model up (named_temporary_file_step [] _ (fun _ => True) (fun _ _ => True) ltac:(auto))]
    | solve [page_catch model up (info_step [] _ (fun w => fs w !! tfile_in = Some (up_data up))
                            (fs_eq_at tfile_in (up_data up)))]
    | solve [page_catch model up (named_temporary_file_step [] _ (fun w => fs w !! tfile_in = Some (up_data up))
                    (fun _ w => fs w !! tfile_in = Some (up_data up)) (tempfile_keeps_at tfile_in (up_data up)))]
    | solve [page_catch model up (info_step [] _ (normalised_at up tfile_downscaled) (normalised_fs_eq up tfile_downscaled))]
    | solve [page_catch model up (named_temporary_file_step [] _ (normalised_at up tfile_downscaled)
                    (fun p3 w => normalised_at up tfile_downscaled w /\ fs w !! p3 = Some (RawFile []))
                    (tempfile_keeps_normalised up tfile_downscaled))]
    | solve [page_catch model up (present_output [] up model tfile_out)]
    | solve [page_catch model up (handler_output [] up model e)] ].
  1,3,5: assumption.
  4-6: apply (fin_rm_page (page_at model up)); intros g; apply player_ok_map_fs; assumption.
  - unfold catch. rewrite lift_run. simpl. destruct Hpg as [Hn _].
    split; [eapply no_player_frame; eauto | apply lookup_insert_eq].
  - destruct Hpg as [Hn Hp1].
    page_catch model up (ffmpeg_step [] up tfile_in tfile_downscaled). exact (nodup_two _ _ Hnd).
  - destruct Hpg as (Hn & Hna & Hp3).
    page_catch model up (lift_hoare _ _ _ _ (process_video_output [] up model tfile_downscaled tfile_out)).
    exact (nodup_three_23 _ _ _ Hnd).
Qed.
End Own.


(** ** The statements of [main] before the block *)

Section MainPage.
Context `{Scaler} `{Yolo}.


Lemma emit_upload u el : preserves (fun w => widget_upload w = u) (St.emit el).
Proof. intros w Hw. unfold St.emit, bind, get, modify, raise. destruct (bool_decide _); exact Hw. Qed.


(** No statement of lines 46-62 shows a player. *)
Lemma mstmt_no_player p f W l :
  mstmt p = Some f -> no_player [] W -> no_player [] (f (W, l)).2.1.
Proof.
  apply (mstmt_world (no_player [])); [exact (no_player_emit1 []) | intros w c Hw; exact Hw].
Qed.

(** Nor does one change the uploader's value. *)
Lemma mstmt_upload p f W l :
  mstmt p = Some f -> widget_upload (f (W, l)).2.1 = widget_upload W.
Proof.
  intros Hf. apply (mstmt_world (fun w => widget_upload w = widget_upload W) p f W l);
    [intros el _; apply emit_upload | intros w c Hw; exact Hw | exact Hf | reflexivity].
Qed.

(** The block a run enters works on the value of its session's uploader. *)
Lemma mstmt_origin p f W l m up bp :
  mstmt p = Some f -> (f (W, l)).1 = R_block m up bp -> widget_upload W = Some up.
Proof.
  intros Hf. destruct p; simpl in Hf; try discriminate; injection Hf as <-; unfold mcatch, raised;
    simpl; try destruct (is_exception e); simpl;
    first [ destruct (St.title _ W) as [[?|?] ?] | destruct (St.write _ W) as [[?|?] ?]
          | destruct (Os.path_exists _ W) as [[[]|?] ?] | destruct (St.error _ W) as [[?|?] ?]
          | destruct (St.info _ W) as [[?|?] ?] | destruct (load_model _ W) as [[?|?] ?]
          | destruct (St.success _ W) as [[?|?] ?] | idtac ]; simpl;
    try (intros [=]; fail); try (destruct (negb _); intros [=]; fail).
  unfold St.file_uploader, bind, gets.
  pose proof (emit_upload (widget_upload W) (FileUploader "Upload a video to begin detection (MP4, MOV, AVI)"
                                                         ["mp4"; "mov"; "avi"]) W eq_refl) as Hu.
  destruct (St.emit _ W) as [[[]|e] W1]; simpl in *; [|intros [=]].
  rewrite Hu. destruct (widget_upload W); [intros [= _ <- _]; reflexivity | discriminate].
Qed.
End MainPage.

(** ** A run's page, and the upload its block works on *)

Section Global.
Context `{Scaler} `{Yolo}.

(** [f] is what the session's upload [u] yields: the upload, normalised by
    FFmpeg and annotated frame by frame by the model [m] (Output.v). *)
Definition own_output (m : yolo_handle) (u : option uploaded_file) (f : file) : Prop :=
  exists up v, u = Some up /\ up_data up = VideoFile v /\
               f = VideoFile (expected_output m v) /\ renders_fully m v.

(** What holds of a run's page before its next statement. *)
Definition rpage (w : world) (r : run) : Prop :=
  match r_pc r with
  | R_main _ => no_player [] (enter w (r_sess r))
  | R_block m up p => page_at m up p (enter w (r_sess r))
  end.

(** The run of a session whose uploader holds [u0]: in [main] the session
    keeps that value; the block works on it. *)
Definition origin_ok (u0 : option uploaded_file) (r : run) : Prop :=
  match r_pc r with
  | R_main _ => s_upload (r_sess r) = u0
  | R_block _ up _ => u0 = Some up
  end.

Lemma rstep_page r w r' w' : rinv w r -> rpage w r -> rstep r w = Some (r', w') -> rpage w' r'.
Proof.
  intros Hinv Hp. unfold rstep. destruct r as [[mp|m up bp] l s]; simpl in *.
  - destruct (mstmt mp) as [f|] eqn:Hf; [|discriminate].
    pose proof (mstmt_no_player mp f (enter w s) l Hf Hp) as Hn.
    destruct (mstmt_next mp f (enter w s, l) Hf) as [(mp' & Hp' & _)|(m & up & Hp' & _)];
      destruct (f _) as [p' [W' l']]; simpl in *; subst p'; intros [= <- <-];
      unfold rpage; simpl; rewrite enter_enter, enter_leave; [exact Hn | split; [exact Hn | exact I]].
  - destruct (stmt m up bp) as [g|] eqn:Hg; [|discriminate]. destruct Hinv as (Hsh & Hnd & _).
    pose proof (stmt_page m up bp l (enter w s) g Hg Hsh Hnd Hp) as Hq.
    destruct (g _) as [bp' [W' l']]. intros [= <- <-]. unfold rpage. simpl.
    rewrite enter_enter, enter_leave. exact Hq.
Qed.

Ltac frame_data Hq :=
  match goal with
  | H : normalised_at ?up ?p ?w |- normalised_at ?up ?p _ =>
      apply (fs_only_normalised _ _ w); [exact H | simpl; apply Hq; simpl; set_solver]
  | H : detected_at ?up ?m ?p ?w |- detected_at ?up ?m ?p _ =>
      apply (fs_only_detected _ _ _ w); [exact H | simpl; apply Hq; simpl; set_solver]
  | H : fs _ !! ?p = ?x |- fs _ !! ?p = ?x =>
      simpl in *; rewrite (Hq p) by (simpl; set_solver); exact H
  end.

(** A step of another run keeps this run's page fact: the fact reads only
    the files this run owns and this run's own page. *)
Lemma rpage_frame r w w' : rinv w r -> rpage w r -> others_frame (rowned r) w w' -> rpage w' r.
Proof.
  intros Hinv Hs [Hq _]. destruct r as [[mp|m up bp] l s]; unfold rpage, rowned in *; simpl in *.
  - exact (no_player_frame _ _ _ Hs eq_refl).
  - destruct Hinv as (Hsh & _ & _).
    destruct bp; simpl in *; try exact Hs;
      repeat match goal with
             | H : exists _, _ |- _ => destruct H as [? H]
             | H : l = _ |- _ => subst l
             end;
      destruct Hs as [Hn Hd]; (split; [eapply no_player_frame; [exact Hn | reflexivity]|]);
      simpl in *; repeat match goal with H : _ /\ _ |- _ => destruct H end;
      repeat split; frame_data Hq.
Qed.

Lemma rstep_origin u0 r w r' w' : origin_ok u0 r -> rstep r w = Some (r', w') -> origin_ok u0 r'.
Proof.
  intros Ho. unfold rstep. destruct r as [[mp|m up bp] l s]; simpl in *.
  - destruct (mstmt mp) as [f|] eqn:Hf; [|discriminate].
    pose proof (mstmt_origin mp f (enter w s) l) as Hb.
    destruct (mstmt_next mp f (enter w s, l) Hf) as [(mp' & Hp' & _)|(m & up & Hp' & _)].
    + pose proof (mstmt_upload mp f (enter w s) l Hf) as Hu.
      destruct (f _) as [p' [W' l']]. simpl in *. subst p'. intros [= <- _].
      unfold origin_ok. simpl. rewrite Hu. exact Ho.
    + specialize (Hb m up P_start Hf). destruct (f _) as [p' [W' l']]. simpl in *. subst p'.
      intros [= <- _]. unfold origin_ok in *. simpl in *. subst u0. exact (Hb eq_refl).
  - destruct (stmt m up bp) as [g|]; [|discriminate]. destruct (g _) as [bp' [W' l']].
    intros [= <- _]. exact Ho.
Qed.
End Global.

Section Reach.
Context `{Scaler} `{Yolo}.

Lemma init_runs_page w ups : all_S rpage (mkConfig w (map init_run ups)).
Proof.
  intros i t Ht. simpl in Ht. rewrite list_lookup_fmap in Ht.
  destruct (ups !! i); simpl in Ht; [|discriminate]. injection Ht as <-.
  exists []. split; [reflexivity|]. intros f Hf. apply elem_of_nil in Hf. exact Hf.
Qed.

Lemma rtc_page w ups c : rtc cstep (mkConfig w (map init_run ups)) c -> all_S rpage c.
Proof.
  intros Hr.
  destruct (rtc_local rpage) with (m0 := fs w) (c := mkConfig w (map init_run ups)) (c' := c)
    as [_ Hp]; [ | | | exact (init_runs_cinv w ups) | exact (init_runs_page w ups) | exact Hr | exact Hp].
  - intros t w0 t' w0' Hi Hp Hs. exact (rstep_page t w0 t' w0' Hi Hp Hs).
  - intros t w0 w0' Hi Hp Hf. exact (rpage_frame t w0 w0' Hi Hp Hf).
  - intros n t t' w0 Hi _ Hp. rewrite (rinterrupt_shape n t t' Hi). exact Hp.
Qed.

(** The run at index [i] works on the upload of the [i]-th session. *)
Lemma rtc_run_origin w ups c i r :
  rtc cstep (mkConfig w (map init_run ups)) c -> c_threads c !! i = Some r ->
  exists u0, ups !! i = Some u0 /\ origin_ok u0 r.
Proof.
  intros Hr Hi.
  assert (Hl : (i < length ups)%nat).
  { pose proof (lookup_lt_Some _ _ _ Hi) as Hlt. rewrite (rtc_length _ _ Hr) in Hlt.
    simpl in Hlt. rewrite length_map in Hlt. exact Hlt. }
  destruct (lookup_lt_is_Some_2 ups i Hl) as [u0 Hu0]. exists u0. split; [exact Hu0|].
  destruct (rtc_thread (origin_ok u0)) with (c := mkConfig w (map init_run ups)) (c' := c) (i := i)
    (t := init_run u0) as (r' & Hr' & Ho);
    [ | | exact Hr | simpl; rewrite list_lookup_fmap, Hu0; reflexivity | reflexivity |].
  { intros t w0 t' w0' Ho Hs. exact (rstep_origin u0 t w0 t' w0' Ho Hs). }
  { intros n t t' Ho Hint. rewrite (rinterrupt_shape n t t' Hint). exact Ho. }
  rewrite Hi in Hr'. injection Hr' as <-. exact Ho.
Qed.

Lemma page_player model up p W f :
  page_at model up p W -> VideoPlayer f ∈ ui W ->
  exists v, up_data up = VideoFile v /\ f = VideoFile (expected_output model v) /\
            renders_fully model v.
Proof.
  intros Hp Hf.
  assert (Hok : player_ok [] up model W)
    by (destruct p; solve [exact Hp | apply no_player_ok, (proj1 Hp)]).
  destruct Hok as (o & Hu & Ho). apply Ho. rewrite Hu in Hf. exact Hf.
Qed.

Lemma no_player_none W f : no_player [] W -> VideoPlayer f ∉ ui W.
Proof. intros (o & Hu & Hn). rewrite Hu. exact (Hn f). Qed.
End Reach.

(** ** Theorem *)

Section Claims.
Context `{Scaler} `{Yolo}.

(** C6: whatever the interleaving of concurrent script runs, every video
    player on a run's page shows the upload of that run's own session,
    normalised by FFmpeg and annotated by the model held in the shared
    cache under [best.pt]: a run never shows another session's video,
    although the temporary files of all runs share one directory. *)
Theorem runs_show_own_output w ups c i r f :
  rtc cstep (mkConfig w (map init_run ups)) c -> c_threads c !! i = Some r ->
  VideoPlayer f ∈ s_ui (r_sess r) ->
  exists u m, ups !! i = Some u /\ cache (c_world c) !! model_path = Some m /\ own_output m u f.
Proof.
  intros Hr Hi Hf.
  pose proof (rtc_page w ups c Hr i r Hi) as Hp.
  pose proof (rtc_model_cached w ups c Hr i r Hi) as Hm.
  destruct (rtc_run_origin w ups c i r Hr Hi) as (u0 & Hu0 & Ho).
  unfold rpage, origin_ok, model_cached in *. destruct r as [[mp|m up p] l s]; simpl in *.
  - exfalso. exact (no_player_none _ f Hp Hf).
  - subst u0. destruct (page_player m up p _ f Hp Hf) as (v & Hv & -> & Hrf).
    exists (Some up), m. split; [exact Hu0|]. split; [auto|]. exists up, v. auto.
Qed.
End Claims.

(** ** Witness: the two runs of Runs.v, alternating statement by statement *)

Section Witness.
#[local] Existing Instances scaler_relabel yolo_two_boxes.

Lemma runs_show_own_output_witness :
  exists r, c_threads (run_sched alternate two_runs) !! 0%nat = Some r /\
    VideoPlayer street_output ∈ s_ui (r_sess r) /\
    exists u m, two_uploads !! 0%nat = Some u /\
                cache (c_world (run_sched alternate two_runs)) !! model_path = Some m /\
                own_output m u street_output.
Proof.
  run_at (run_sched alternate two_runs) 0%nat as r Ht.
  assert (Hp : VideoPlayer street_output ∈ s_ui (r_sess r))
    by (computed Ht (rewrite list_elem_of_In; vm_compute; tauto)).
  exists r. split; [reflexivity|]. split; [exact Hp|].
  exact (runs_show_own_output loaded_world two_uploads _ 0%nat r street_output
           (run_sched_rtc alternate two_runs) Ht Hp).
Defined.
End Witness.
