(* ===== verification/Requests.v ===== *)
(** * Requests: a rerun or stop request reaching a running script

    A user who interacts with the page while the script runs for them makes
    Streamlit request a rerun (or a stop) of the session.  Streamlit does
    not interrupt the thread: the first [st.*] call of the run after the
    request raises [RerunException] or [StopException], both
    [ScriptControlException]s that derive from [BaseException]
    ([ScriptControl]).  In the interleaving of Runs.v the request is the
    step [rinterrupt n]: it records the request with the number [n] of
    [st.*] calls the run still makes before the request arrives, as the
    page length [k] at which the next call raises; once the page has [k]
    elements the request has taken effect ([due], [pending]).

    Proved here, for every interleaving of script runs and requests: a
    run at which the request takes effect before the [finally] clause of
    lines 118-125 (or before the end of [main]) ends with [ScriptControl]
    ([request_aborts_run]), and its temporary files are still removed
    (Runs.v, [runs_restore_fs], which covers requests).  The example
    [late_request_bare_player] computes a run that a request reaches
    between [st.video] and [st.download_button]: it shows the player
    without its download button. *)

From S2P Require Import Prelude World Transcoder Detection ModelLoader Orchestrator Session Output Server Pool Concurrency Runs Isolation.

(** The next [st.*] call raises: a request is pending for the page as it is. *)
Definition due (w : world) : Prop := stop_after w = Some (length (ui w)).

(** The outcome a run has decided, if any, is [ScriptControl]. *)
Definition aborted (p : rpc) : Prop :=
  match p with
  | R_main (M_end r) => r = Exc ScriptControl
  | R_main _ => True
  | R_block _ _ (P_rm_in r) | R_block _ _ (P_rm_down r) | R_block _ _ (P_rm_out r)
  | R_block _ _ (P_done r) => r = Exc ScriptControl
  | R_block _ _ _ => True
  end.

(** The run has reached neither the [finally] clause nor its end. *)
Definition before_end (p : rpc) : bool :=
  match p with
  | R_main (M_end _) => false
  | R_main _ => true
  | R_block _ _ (P_rm_in _) | R_block _ _ (P_rm_down _) | R_block _ _ (P_rm_out _)
  | R_block _ _ (P_done _) => false
  | R_block _ _ _ => true
  end.


(** A request has taken effect at the run: its next [st.*] call raises. *)
Definition pending (r : run) : Prop := s_stop (r_sess r) = Some (length (s_ui (r_sess r))).

(** ** Library calls under a pending request *)

Lemma not_exception e : is_exception e = false -> e = ScriptControl.
Proof. destruct e; simpl; congruence. Qed.

Lemma before_end_aborted p : before_end p = true -> aborted p.
Proof. destruct p as [[]|m up []]; simpl; intros H; try discriminate; exact I. Qed.

Section Due.
Context `{Scaler} `{Yolo}.

(** The page and the request, frozen at [W]. *)
Definition frozen_at (W : world) (w : world) : Prop := ui w = ui W /\ stop_after w = stop_after W.

Lemma emit_frozen W el : due W -> preserves (frozen_at W) (St.emit el).
Proof.
  intros Hd w [Hu Hs]. rewrite emit_stop; [split; assumption|]. unfold due in Hd. congruence.
Qed.


Lemma present_due p W : due W -> present p W = (Exc ScriptControl, W).
Proof.
  intros Hd. cbv [present Os.path_exists Os.getsize Os.read_file Os.file_exists bind gets get ret].
  unfold St.video, St.download_button, St.error.
  destruct (fs W !! p) as [f|] eqn:E; simpl; repeat (rewrite E; simpl);
    [destruct (0 <? file_size f)%nat; simpl; repeat (rewrite E; simpl)|];
    rewrite ?emit_stop by exact Hd; reflexivity.
Qed.

Lemma report_error_due e W : due W -> report_error e W = (Exc ScriptControl, W).
Proof.
  intros Hd. unfold report_error, St.error, bind.
  destruct e; simpl; rewrite ?emit_stop by exact Hd; reflexivity.
Qed.
End Due.

(** ** A run's statements under a pending request *)

Section Steps.
Context `{Scaler} `{Yolo}.

Lemma catch_pc {A} (c : MS A) k h s :
  (exists a, (catch c k h s).1 = k a) \/ (exists e, (catch c k h s).1 = h e).
Proof. unfold catch. destruct (c s) as [[a|e] s']; eauto. Qed.

Ltac emits_raise Hd :=
  unfold St.title, St.write, St.error, St.info, St.success, St.file_uploader, bind;
  rewrite ?emit_stop by exact Hd; simpl.

(** Every statement of [main] ends the run with [ScriptControl] or goes on. *)
Lemma mstmt_aborted p f W l : mstmt p = Some f -> due W -> aborted (f (W, l)).1.
Proof.
  intros Hf Hd. destruct p; simpl in Hf; try discriminate; injection Hf as <-;
    unfold mcatch, raised; simpl.
  1-5,7,9: emits_raise Hd; try reflexivity; destruct (negb _); exact I.
  - destruct (load_model model_path W) as [[m|e] W']; exact I.
  - destruct (is_exception e) eqn:Ee; simpl.
    + emits_raise Hd. reflexivity.
    + rewrite (not_exception e Ee). reflexivity.
Qed.

(** Every statement of the block keeps the decided outcome [ScriptControl]. *)
Lemma stmt_aborted model up bp f W l :
  stmt model up bp = Some f -> due W -> aborted (R_block model up bp) ->
  aborted (R_block model up (f (W, l)).1).
Proof.
  intros Hf Hd Ha. destruct bp; simpl in Hf; try discriminate; injection Hf as <-;
    unfold fin_stmt, upload_handler.
  12: unfold catch; rewrite lift_run, present_due by exact Hd; exact I.
  12: unfold catch; rewrite lift_run, report_error_due by exact Hd; reflexivity.
  1-11: match goal with |- context [catch ?c ?k P_except ?s] =>
          destruct (catch_pc c k P_except s) as [[? E]|[? E]] end; rewrite E; exact I.
  all: unfold catch, bind, gets; simpl;
    match goal with |- context [remove_if_exists ?o (?W0, ?l0)] =>
      destruct (remove_if_exists_shape o W0 l0) as [g ->] end; exact Ha.
Qed.

(** A fact about a run's session that every page call, file operation,
    name draw and cache entry keeps holds after each statement of the run. *)
Lemma rstep_world (P : world -> Prop) r w r' w' :
  (forall el, preserves P (St.emit el)) -> (forall f w, P w -> P (map_fs f w)) ->
  (forall rs w, P w -> P (set_rng rs w)) -> (forall w c, P w -> P (map_cache c w)) ->
  P (enter w (r_sess r)) -> rstep r w = Some (r', w') -> P (enter w' (r_sess r')).
Proof.
  intros Hel Hfs Hrng Hc HP. unfold rstep. destruct (rstmt (r_pc r)) as [f|] eqn:Hf; [|discriminate].
  assert (HQ : P (f (enter w (r_sess r), r_loc r)).2.1).
  { destruct (r_pc r) as [mp|m up bp]; simpl in Hf.
    - exact (mstmt_world P mp f _ _ (fun el _ => Hel el) Hc Hf HP).
    - destruct (stmt m up bp) as [g|] eqn:Hg; [|discriminate]. injection Hf as <-.
      pose proof (stmt_frame P Hel Hfs Hrng m up bp g (enter w (r_sess r)) (r_loc r) Hg HP) as Hz.
      destruct (g _) as [bp' [W' l']]. exact Hz. }
  destruct (f _) as [p' [W' l']]. intros [= <- <-]. simpl. rewrite enter_enter, enter_leave. exact HQ.
Qed.

Lemma rstep_pending r w r' w' :
  pending r -> rstep r w = Some (r', w') -> pending r' /\ s_ui (r_sess r') = s_ui (r_sess r).
Proof.
  intros Hp Hs. pose proof (rstep_world (frozen_at (enter w (r_sess r))) r w r' w'
    (fun el => emit_frozen (enter w (r_sess r)) el Hp) (fun _ _ H => H) (fun _ _ H => H) (fun _ _ H => H)
    (conj eq_refl eq_refl) Hs) as [Hu Hst].
  unfold pending in *. simpl in *. rewrite Hu, Hst. split; [exact Hp | reflexivity].
Qed.

Lemma rstep_aborted r w r' w' :
  pending r -> aborted (r_pc r) -> rstep r w = Some (r', w') -> aborted (r_pc r').
Proof.
  intros Hp Ha. unfold rstep. destruct r as [[mp|m up bp] l s]; simpl in *.
  - destruct (mstmt mp) as [f|] eqn:Hf; [|discriminate].
    pose proof (mstmt_aborted mp f (enter w s) l Hf Hp) as Hb.
    destruct (f _) as [p' [W' l']]. intros [= <- _]. exact Hb.
  - destruct (stmt m up bp) as [g|] eqn:Hg; [|discriminate].
    pose proof (stmt_aborted m up bp g (enter w s) l Hg Hp Ha) as Hb.
    destruct (g _) as [bp' [W' l']]. intros [= <- _]. exact Hb.
Qed.

Lemma aborted_result p x : aborted p -> run_result p = Some x -> x = Exc ScriptControl.
Proof. destruct p as [[]|m up []]; simpl; intros Ha Hr; try discriminate; injection Hr as <-; exact Ha. Qed.
End Steps.

(** ** Every reachable run *)

Section Reach.
Context `{Scaler} `{Yolo}.

Lemma no_interrupt_recorded n t t' k : s_stop (r_sess t) = Some k -> rinterrupt n t = Some t' -> False.
Proof. unfold rinterrupt. intros Hk. destruct (rdone t); [discriminate|]. rewrite Hk. discriminate. Qed.

Lemma rtc_aborted c c' i r :
  pending r -> aborted (r_pc r) -> rtc cstep c c' -> c_threads c !! i = Some r ->
  exists r', c_threads c' !! i = Some r' /\ aborted (r_pc r').
Proof.
  intros Hp Ha Hr Hi.
  destruct (rtc_thread (fun r' => pending r' /\ aborted (r_pc r')))
    with (c := c) (c' := c') (i := i) (t := r) as (r' & Hr' & _ & Ha');
    [ | | exact Hr | exact Hi | auto | eauto].
  - intros t w0 t' w0' [Hpt Hat] Hs.
    split; [exact (proj1 (rstep_pending t w0 t' w0' Hpt Hs)) | exact (rstep_aborted t w0 t' w0' Hpt Hat Hs)].
  - intros n t t' [Hpt _] Hint. exfalso. exact (no_interrupt_recorded n t t' _ Hpt Hint).
Qed.
End Reach.

(** ** Theorems *)

Section Claims.
Context `{Scaler} `{Yolo}.

(** C14: a run at which a request takes effect before the [finally]
    clause of the upload block (or before the end of [main]) ends, under
    every interleaving, with [ScriptControl]: neither [except Exception]
    clause catches it, and the run reports no verdict. *)
Theorem request_aborts_run c c' i r r' :
  c_threads c !! i = Some r -> pending r -> before_end (r_pc r) = true ->
  rtc cstep c c' -> c_threads c' !! i = Some r' -> rdone r' = true ->
  run_result (r_pc r') = Some (Exc ScriptControl).
Proof.
  intros Hi Hp Hb Hr' Hi' Hd.
  destruct (rtc_aborted c c' i r Hp (before_end_aborted _ Hb) Hr' Hi) as (r0 & Hr0 & Ha).
  rewrite Hi' in Hr0. injection Hr0 as <-.
  unfold rdone in Hd. destruct (run_result (r_pc r')) as [x|] eqn:Ex; [|discriminate].
  rewrite (aborted_result _ x Ha Ex). reflexivity.
Qed.
End Claims.

(** ** Witnesses: a request reaches the first run of Runs.v while it detects objects *)

Section Witnesses.
#[local] Existing Instances scaler_relabel yolo_two_boxes.

(** The same two runs, with a request to the first run recorded before it
    presents its output, to take effect at its second page call from
    there: the player is shown, the download button is not. *)
Definition late_request : config run := interrupt_at 0 1 (run_sched (firstn 34 alternate) two_runs).

Definition late_end : config run := run_sched alternate late_request.

(** The scenario of the first finding on requests: the request reaches
    the first run between [st.video] (line 101) and [st.download_button]
    (line 102).  The run's page ends with the player of its output, shows
    no download button, and the run ends with [ScriptControl]. *)
Example late_request_bare_player :
  exists r', c_threads late_end !! 0%nat = Some r' /\
    last (s_ui (r_sess r')) = Some (VideoPlayer street_output) /\
    rdone r' = true /\ run_result (r_pc r') = Some (Exc ScriptControl).
Proof.
  run_at late_end 0%nat as r' Ht'. exists r'. split; [reflexivity|].
  computed Ht' (split; [reflexivity | split; reflexivity]).
Qed.

Lemma request_aborts_run_witness :
  exists r r', c_threads interrupted_runs !! 0%nat = Some r /\ pending r /\
    before_end (r_pc r) = true /\ c_threads interrupted_end !! 0%nat = Some r' /\ rdone r' = true /\
    run_result (r_pc r') = Some (Exc ScriptControl).
Proof.
  run_at interrupted_runs 0%nat as r Ht.
  run_at interrupted_end 0%nat as r' Ht'.
  assert (Hs : pending r) by (computed Ht reflexivity).
  assert (Hb : before_end (r_pc r) = true) by (computed Ht reflexivity).
  assert (Hd : rdone r' = true) by (computed Ht' reflexivity).
  exists r, r'. repeat split; try assumption.
  exact (request_aborts_run interrupted_runs interrupted_end 0%nat r r'
           Ht Hs Hb (run_sched_rtc alternate interrupted_runs) Ht' Hd).
Defined.
End Witnesses.
