(* ===== verification/Verdicts.v ===== *)
(** * Verdicts: interleaved runs refine the session machine

    Session.v proves that the upload block, run whole, shows a trace of
    the specification's per-upload machine ([sstep]) from [Idle] to
    [Ready] or [Failed].  This file proves the same of every run of the
    statement-level interleaving of Runs.v, where the other sessions' runs
    and the users' rerun or stop requests (Requests.v) come between any two
    statements: a run whose block ends normally shows, after the page of
    [main] (title, description, success note, uploader), a trace of the
    machine that ends in a verdict; and a run ends with an exception only
    when it is Streamlit's [ScriptControl], raised because a request
    reached the run.

    Each run keeps a fact before each statement ([main_at] in [main],
    [verdict_at] in the block): the stage of the machine its page has
    reached, and at [P_present] after an error box of [process_video] that
    the output file is still empty.  Other runs never write to the run's
    page and never touch its files (Pool.v); a request only sets the
    session's stop flag. *)

From S2P Require Import Prelude World Transcoder Detection ModelLoader Orchestrator Session Output Server Pool Concurrency Runs Isolation Requests.

(** The page [main] shows before the block: lines 46, 47, 57 and 64. *)
Definition main_page : list element :=
  [Title "YOLOv11 Object Detection";
   Markdown "This app uses a pre-configured model to detect objects in an uploaded video.";
   SuccessBox "Model loaded successfully!";
   FileUploader "Upload a video to begin detection (MP4, MOV, AVI)" ["mp4"; "mov"; "avi"]].

(** The page, from [u0] on, shows a trace of the machine from [Idle] to [ph]. *)
Definition traced (u0 : list element) (ph : phase) (w : world) : Prop :=
  exists o, ui w = (u0 ++ o)%list /\ sexec Idle o ph.

(** How a block or [main] ended: normally, or by [ScriptControl] with a
    request set. *)
Definition aborted_by_request (r : result exn unit) (w : world) : Prop :=
  match r with
  | Ok _ => True
  | Exc e => e = ScriptControl /\ stop_after w <> None
  end.

(** What a run of the block, started on the page [u0], has shown before
    each statement. *)
Definition verdict_at (u0 : list element) (p : pc) (w : world) : Prop :=
  match p with
  | P_start | P_assign_in _ | P_write_in _ | P_info1 _ => traced u0 Uploaded w
  | P_tmp_down _ | P_assign_down _ _ | P_ffmpeg _ _ | P_info2 _ => traced u0 Transcoding w
  | P_tmp_out _ | P_assign_out _ _ | P_process _ _ => traced u0 Detecting w
  | P_present p3 =>
      traced u0 Detecting w \/
      (fs w !! p3 = Some (RawFile []) /\
       exists msg o, ui w = (u0 ++ o ++ [ErrorBox msg])%list /\ sexec Idle o Detecting)
  | P_except e =>
      if is_exception e then exists ph, terminal ph = false /\ traced u0 ph w
      else stop_after w <> None
  | P_rm_in r | P_rm_down r | P_rm_out r | P_done r =>
      aborted_by_request r w /\ (r = Ok tt -> exists ph, terminal ph = true /\ traced u0 ph w)
  end.

(** What [main] has shown before each of its statements. *)
Definition main_at (p : mpc) (w : world) : Prop :=
  match p with
  | M_title => ui w = []
  | M_write => ui w = firstn 1 main_page
  | M_check | M_load | M_success _ => ui w = firstn 2 main_page
  | M_uploader _ => ui w = firstn 3 main_page
  | M_missing_error | M_missing_info => True
  | M_load_error e => is_exception e = false -> stop_after w <> None
  | M_end r => aborted_by_request r w
  end.

Definition rverdict_at (p : rpc) (w : world) : Prop :=
  match p with
  | R_main mp => main_at mp w
  | R_block _ _ bp => verdict_at main_page bp w
  end.

(** A run, before its next statement. *)
Definition rverdict (w : world) (r : run) : Prop := rverdict_at (r_pc r) (enter w (r_sess r)).

(** ** The page seen through the machine *)

Lemma traced_frame u0 ph w w' : traced u0 ph w -> ui w' = ui w -> traced u0 ph w'.
Proof. intros (o & Hu & Hx) E. exists o. rewrite E. auto. Qed.

(** The fact of a statement depends on the page, the stop flag and, at
    [P_present], on the output file. *)
Lemma verdict_frame u0 p w w' :
  verdict_at u0 p w -> ui w' = ui w -> (stop_after w <> None -> stop_after w' <> None) ->
  (forall p3, p = P_present p3 -> fs w' !! p3 = fs w !! p3) -> verdict_at u0 p w'.
Proof.
  intros Hv Hu Hs Hf.
  assert (Hend : forall r, aborted_by_request r w /\ (r = Ok tt -> exists ph, terminal ph = true /\ traced u0 ph w) ->
                 aborted_by_request r w' /\ (r = Ok tt -> exists ph, terminal ph = true /\ traced u0 ph w')).
  { intros r [Ha Ht]. split.
    - destruct r as [a|e]; simpl in *; [exact I | destruct Ha as [-> Hs']; auto].
    - intros Hr. destruct (Ht Hr) as (ph & Hph & Htr). exists ph. split; [exact Hph | eapply traced_frame; eauto]. }
  destruct p; simpl in *; try solve [eapply traced_frame; eauto | apply Hend, Hv].
  - destruct Hv as [Ht | (Hp & msg & o & Hu' & Hx)]; [left; eapply traced_frame; eauto | right].
    rewrite Hf by reflexivity. split; [exact Hp|]. exists msg, o. rewrite Hu. auto.
  - destruct (is_exception e); [|auto].
    destruct Hv as (ph & Ht & Htr). exists ph. split; [exact Ht | eapply traced_frame; eauto].
Qed.

(** ** The statements of the block *)

Section Block.
Context `{Scaler} `{Yolo}.
Hypothesis infer_exceptions :
  forall wt sz f e, yolo_infer wt sz f = Exc e -> is_exception e = true.
Variable u0 : list element.

(** A library call that shows nothing keeps the stage; the [Exception]s
    it raises go to the handlers from a stage that is not terminal. *)
Lemma catch_quiet_verdict {A} (c : M A) k ph W l :
  quiet c -> traced u0 ph W -> terminal ph = false ->
  (forall a W', traced u0 ph W' -> verdict_at u0 (k a) W') ->
  let '(p', s') := catch (lift c) k P_except (W, l) in verdict_at u0 p' (fst s').
Proof.
  intros Hq Htr Ht Hk. unfold catch. rewrite lift_run. destruct (Hq W) as (Hu & _ & He).
  destruct (c W) as [[a|e] W']; simpl in *.
  - apply Hk. eapply traced_frame; eauto.
  - rewrite He. exists ph. split; [exact Ht | eapply traced_frame; eauto].
Qed.

(** How a page call ends: the machine moved on, or a request took effect. *)
Definition emitted (ph' : phase) (o : result exn unit * world) : Prop :=
  match o with
  | (Ok _, W') => traced u0 ph' W'
  | (Exc e, W') => e = ScriptControl /\ stop_after W' <> None
  end.

Lemma traced_pre_nil ph W :
  traced u0 ph W -> exists o, ui W = (u0 ++ o ++ [])%list /\ sexec Idle o ph.
Proof. intros (o & Hu & Hx). exists o. rewrite app_nil_r. auto. Qed.

(** One page call after the elements [pre] of a stage already shown. *)
Lemma emit1_traced pre el ph ph' W :
  (exists o, ui W = (u0 ++ o ++ pre)%list /\ sexec Idle o ph) -> sstep ph (pre ++ [el]) ph' ->
  emitted ph' (St.emit el W).
Proof.
  intros (o & Hu & Hx) Hst. destruct (emit_cases el W) as [E|[E Hs]]; rewrite E; [|split; [reflexivity | exact Hs]].
  exists (o ++ pre ++ [el])%list. split; [simpl; rewrite Hu, <- !app_assoc; reflexivity | econstructor; eassumption].
Qed.

(** Two page calls of one stage: the player and its button, or the two
    error boxes of an FFmpeg failure. *)
Lemma emit2_traced el1 el2 ph ph' W :
  traced u0 ph W -> sstep ph [el1; el2] ph' -> emitted ph' ((St.emit el1 ;; St.emit el2) W).
Proof.
  intros (o & Hu & Hx) Hst. unfold bind at 1.
  destruct (emit_cases el1 W) as [E|[E Hs]]; rewrite E; [|split; [reflexivity | exact Hs]].
  apply (emit1_traced [el1] el2 ph); [|exact Hst]. exists o. split; [simpl; rewrite Hu, <- app_assoc; reflexivity | exact Hx].
Qed.

Lemma emitted_terminal ph' o : terminal ph' = true -> emitted ph' o ->
  match o with
  | (Ok _, W') => exists ph, terminal ph = true /\ traced u0 ph W'
  | (Exc e, W') => e = ScriptControl /\ stop_after W' <> None
  end.
Proof. destruct o as [[]]; simpl; eauto. Qed.

(** A statement of the block that runs a library call, by the call's outcome. *)
Lemma catch_lift_verdict {A} (c : M A) k W l :
  match c W with
  | (Ok a, W') => verdict_at u0 (k a) W'
  | (Exc e, W') => verdict_at u0 (P_except e) W'
  end ->
  let '(p', s') := catch (lift c) k P_except (W, l) in verdict_at u0 p' (fst s').
Proof. unfold catch. rewrite lift_run. destruct (c W) as [[a|e] W']; exact id. Qed.

(** A progress note moves the machine one stage on, or raises
    [ScriptControl] once a request has taken effect. *)
Lemma catch_emit_verdict el ph ph' k W l :
  sstep ph [el] ph' -> traced u0 ph W ->
  (forall W', traced u0 ph' W' -> verdict_at u0 (k tt) W') ->
  let '(p', s') := catch (lift (St.emit el)) k P_except (W, l) in verdict_at u0 p' (fst s').
Proof.
  intros Hst Htr Hk. apply catch_lift_verdict.
  pose proof (emit1_traced [] el ph ph' W (traced_pre_nil ph W Htr) Hst) as He.
  destruct (St.emit el W) as [[[]|e] W']; [exact (Hk _ He) | destruct He as [-> Hs]; exact Hs].
Qed.

(** [process_video] at the [Detecting] stage on the empty output file: it
    returns, after an error box or none, or raises. *)
Lemma process_verdict inp outp m W l :
  traced u0 Detecting W -> fs W !! outp = Some (RawFile []) ->
  let '(p', s') := catch (lift (process_video inp outp m)) (fun _ => P_present outp) P_except (W, l) in
  verdict_at u0 p' (fst s').
Proof.
  intros Htr Hf. apply catch_lift_verdict.
  assert (Herr : forall msg, match St.error msg W with
                             | (Ok _, w') => verdict_at u0 (P_present outp) w'
                             | (Exc e, w') => verdict_at u0 (P_except e) w'
                             end).
  { intros msg. unfold St.error. destruct (emit_cases (ErrorBox msg) W) as [E|[E Hs]]; rewrite E; [right|exact Hs].
    destruct Htr as (o & Hu & Hx). split; [exact Hf|]. exists msg, o.
    split; [simpl; rewrite Hu, <- app_assoc; reflexivity | exact Hx]. }
  unfold process_video, Cv2.VideoCapture, bind at 1, gets.
  destruct (fs W !! inp) as [[d|v|v|wt]|] eqn:Hin; cbn [cap_opened negb]; try apply Herr.
  unfold bind at 1. rewrite cv2_videowriter_run.
  destruct (writer_available W && _ && _); cbn [negb wr_opened]; [|apply Herr].
  unfold bind at 1. rewrite detect_loop_run by (simpl; [lia || apply lookup_insert_eq]).
  cbn [cap_pending]. destruct (render_frames m (v_frames v)) as [gs [e|]] eqn:Hr; simpl.
  - rewrite (render_frames_exc infer_exceptions m _ gs e Hr).
    exists Detecting. split; [reflexivity | eapply traced_frame; eauto].
  - destruct (fold_writer_push_fields gs (mkWriter true outp fourcc_mp4v (v_fps v)
                                           (v_width v) (v_height v) [])) as [Ho _].
    cbv [Cv2.release when]. rewrite Ho. simpl. left. eapply traced_frame; eauto.
Qed.

Ltac fail_side := apply S_fail; [assumption || reflexivity | discriminate | simpl; repeat constructor].

(** Lines 98-109 at the [Detecting] stage: the player and its button lead
    to [Ready], the error box to [Failed]; after an error box of
    [process_video] the output is empty, so a second error box follows. *)
Lemma present_verdict p W l :
  verdict_at u0 (P_present p) W ->
  let '(p', s') := catch (lift (present p)) (fun _ => P_rm_in (Ok tt)) P_except (W, l) in
  verdict_at u0 p' (fst s').
Proof.
  intros Hv. apply catch_lift_verdict.
  assert (Ht : match present p W with
               | (Ok _, W') => exists ph, terminal ph = true /\ traced u0 ph W'
               | (Exc e, W') => e = ScriptControl /\ stop_after W' <> None
               end).
  { cbv [present Os.path_exists Os.getsize Os.read_file Os.file_exists bind gets get ret].
    unfold St.video, St.download_button, St.error.
    destruct Hv as [Htr | (Hf & msg & o & Hu & Hx)].
    - destruct (fs W !! p) as [f|] eqn:E; simpl; repeat (rewrite E; simpl);
        [destruct (0 <? file_size f)%nat; simpl; repeat (rewrite E; simpl)|].
      + apply (emitted_terminal Ready _ eq_refl), (emit2_traced _ _ Detecting); [exact Htr | apply S_ready].
      + apply (emitted_terminal Failed _ eq_refl), (emit1_traced [] _ Detecting);
          [apply traced_pre_nil, Htr | fail_side].
      + apply (emitted_terminal Failed _ eq_refl), (emit1_traced [] _ Detecting);
          [apply traced_pre_nil, Htr | fail_side].
    - rewrite Hf. simpl. rewrite Hf. simpl.
      apply (emitted_terminal Failed _ eq_refl), (emit1_traced [ErrorBox msg] _ Detecting);
        [exists o; auto | fail_side]. }
  destruct (present p W) as [[[]|e] W']; simpl in *;
    [split; [exact I | intros _; exact Ht] | destruct Ht as [-> Hs]; exact Hs].
Qed.

(** The handlers of lines 111-116: from a stage that is not terminal to
    [Failed], or [ScriptControl] once a request has taken effect, which
    goes on to the [finally] clause. *)
Lemma handler_verdict e W l :
  verdict_at u0 (P_except e) W ->
  let '(p', s') := catch (upload_handler e) (fun _ => P_rm_in (Ok tt)) (fun e' => P_rm_in (Exc e')) (W, l) in
  verdict_at u0 p' (fst s').
Proof.
  simpl. intros Hv. unfold catch, upload_handler. rewrite lift_run.
  assert (Ht : match report_error e W with
               | (Ok _, W') => exists ph, terminal ph = true /\ traced u0 ph W'
               | (Exc e', W') => e' = ScriptControl /\ stop_after W' <> None
               end).
  { destruct (is_exception e) eqn:He; [destruct Hv as (ph & Hph & Htr)|].
    - destruct e as [rc cmd err| | | | |]; try discriminate He; unfold report_error, St.error; cbn [is_exception];
        apply (emitted_terminal Failed _ eq_refl);
        [apply (emit2_traced _ _ ph); [exact Htr | fail_side] | ..];
        (apply (emit1_traced [] _ ph); [apply traced_pre_nil, Htr | fail_side]).
    - rewrite (not_exception e He). split; [reflexivity | exact Hv]. }
  destruct (report_error e W) as [[[]|e'] W']; simpl in *;
    [split; [exact I | intros _; exact Ht] | destruct Ht as [-> Hs]; split; [split; [reflexivity | exact Hs] | discriminate]].
Qed.

(** The [finally] clause keeps what the block showed. *)
Lemma verdict_map_fs r g W :
  verdict_at u0 (P_rm_in r) W -> forall p', p' = P_rm_in r \/ p' = P_rm_down r \/ p' = P_rm_out r \/ p' = P_done r ->
  verdict_at u0 p' (map_fs g W).
Proof.
  intros Hv p' Hp'. apply (verdict_frame u0 p' W); [| reflexivity | auto | ];
    destruct Hp' as [->|[->|[->| ->]]]; try exact Hv; intros ? [=].
Qed.

Ltac fin_case Hv :=
  apply (fin_rm_page (verdict_at u0)); intros g; apply (verdict_map_fs _ g _ Hv); auto.

(** Every statement of the block keeps the fact of the run executing it. *)
Lemma stmt_verdict model up p l W f :
  stmt model up p = Some f -> page_at model up p W -> verdict_at u0 p W ->
  let '(p', s') := f (W, l) in verdict_at u0 p' (fst s').
Proof.
  destruct p; simpl; intros [= <-] Hpg Hv.
  1,3,5,7,9: match goal with |- context [catch (lift ?c) ?k P_except (?W0, ?l0)] =>
    eapply (catch_quiet_verdict c k _ W0 l0) end;
    [ first [apply named_temporary_file_quiet | apply write_file_quiet | apply subprocess_run_quiet]
    | eassumption | reflexivity | intros ? ? Ht; exact Ht ].
  1,3,5: exact Hv.
  6-8: fin_case Hv.
  - apply (catch_emit_verdict _ Uploaded Transcoding); [constructor | exact Hv | intros ? Ht; exact Ht].
  - apply (catch_emit_verdict _ Transcoding Detecting); [constructor | exact Hv | intros ? Ht; exact Ht].
  - exact (process_verdict tfile_downscaled tfile_out model W l Hv (proj2 (proj2 Hpg))).
  - exact (present_verdict tfile_out W l Hv).
  - exact (handler_verdict e W l Hv).
Qed.
End Block.

(** ** The statements of [main] *)

(** [load_model] shows nothing and raises only [Exception]s. *)
Lemma load_model_verdict W :
  ui (load_model model_path W).2 = ui W /\
  forall e, (load_model model_path W).1 = Exc e -> is_exception e = true.
Proof.
  destruct (cache W !! model_path) as [h|] eqn:Hc; [rewrite (cache_hit_run _ h W Hc); split; [reflexivity | discriminate]|].
  rewrite (cache_miss_run _ W Hc). destruct (fs W !! model_path) as [[]|]; split; simpl; try reflexivity;
    intros ? [= <-]; reflexivity.
Qed.

Section Main.
Context `{Scaler} `{Yolo}.

(** Every statement of [main] keeps the fact of the run executing it; the
    uploader hands over to the block on the page [main_page]. *)
Lemma mstmt_verdict p f W l :
  mstmt p = Some f -> main_at p W -> rverdict_at (f (W, l)).1 (f (W, l)).2.1.
Proof.
  destruct p; simpl; intros [= <-] Hv; unfold mcatch, raised; cbn [fst snd];
    try (destruct (is_exception e) eqn:He);
    unfold St.title, St.write, St.error, St.info, St.success, St.file_uploader, bind, gets;
    try (match goal with |- context [St.emit ?el ?W0] =>
           destruct (emit_cases el W0) as [Ee|[Ee Hs]]; rewrite Ee end); simpl.
  all: first
    [ exact I
    | solve [rewrite Hv; reflexivity]
    | solve [split; [reflexivity | exact Hs]]
    | solve [intros _; exact Hs]
    | solve [split; [exact (not_exception e He) | apply Hv; first [reflexivity | exact He]]]
    | solve [destruct (negb _); [exact I | exact Hv]]
    | destruct (widget_upload W); simpl; [|exact I];
      exists []; split; [simpl; rewrite Hv; reflexivity | apply sexec_one; constructor]
    | generalize (load_model_verdict W);
      destruct (load_model model_path W) as [[m|e] W']; simpl; intros [Hu Hx];
      [rewrite Hu; exact Hv | intros Hy; rewrite (Hx e eq_refl) in Hy; discriminate] ].
Qed.
End Main.

Lemma main_frame p w w' :
  main_at p w -> ui w' = ui w -> (stop_after w <> None -> stop_after w' <> None) -> main_at p w'.
Proof.
  destruct p; simpl; intros Hv Hu Hs; try (rewrite Hu; exact Hv); auto.
  destruct r as [a|e]; simpl in *; [exact I | destruct Hv as [-> Hv]; auto].
Qed.

(** ** Every reachable run *)

(** What a run keeps before each statement: its page fact of Isolation.v
    and the stage of the machine it has reached. *)
Definition rfacts `{Scaler} `{Yolo} (w : world) (r : run) : Prop := rpage w r /\ rverdict w r.

Section Run.
Context `{Scaler} `{Yolo}.
Hypothesis infer_exceptions :
  forall wt sz f e, yolo_infer wt sz f = Exc e -> is_exception e = true.

Lemma rstep_verdict r w r' w' :
  rinv w r -> rpage w r -> rverdict w r -> rstep r w = Some (r', w') -> rverdict w' r'.
Proof.
  intros Hinv Hp Hv. unfold rstep. destruct r as [[mp|m up bp] l s]; unfold rverdict in *; simpl in *.
  - destruct (mstmt mp) as [f|] eqn:Hf; [|discriminate].
    pose proof (mstmt_verdict mp f (enter w s) l Hf Hv) as Hq.
    destruct (f _) as [p' [W' l']]. intros [= <- <-]. simpl. rewrite enter_enter, enter_leave. exact Hq.
  - destruct (stmt m up bp) as [g|] eqn:Hg; [|discriminate]. destruct Hinv as (Hsh & _ & _).
    pose proof (stmt_verdict infer_exceptions main_page m up bp l (enter w s) g Hg Hp Hv) as Hq.
    destruct (g _) as [bp' [W' l']]. intros [= <- <-]. simpl. rewrite enter_enter, enter_leave. exact Hq.
Qed.

(** Another run's step leaves the page, the flag and the output file of
    this run alone. *)
Lemma rverdict_frame r w w' : rinv w r -> rverdict w r -> others_frame (rowned r) w w' -> rverdict w' r.
Proof.
  intros Hinv Hv [Hq _]. destruct r as [[mp|m up bp] l s]; unfold rverdict, rowned in *; simpl in *; [exact Hv|].
  destruct Hinv as (Hsh & _ & _). apply (verdict_frame _ _ _ _ Hv); [reflexivity | auto | intros p3 ->].
  simpl in Hsh. destruct Hsh as (a & b & E). rewrite E in Hq. apply Hq. apply list_elem_of_In. simpl. auto.
Qed.

Lemma rinterrupt_facts n r r' w : rinterrupt n r = Some r' -> rfacts w r -> rfacts w r'.
Proof.
  intros Hi (Hp & Hv). rewrite (rinterrupt_shape n r r' Hi).
  unfold rfacts, rverdict, rpage in *. destruct r as [p l s]; simpl in *. split; [exact Hp|].
  destruct p; simpl in *;
    [apply (main_frame _ _ _ Hv) | apply (verdict_frame _ _ _ _ Hv)]; try reflexivity; discriminate.
Qed.

Lemma rstep_facts r w r' w' : rinv w r -> rfacts w r -> rstep r w = Some (r', w') -> rfacts w' r'.
Proof.
  intros Hinv (Hp & Hv) Hst.
  exact (conj (rstep_page r w r' w' Hinv Hp Hst) (rstep_verdict r w r' w' Hinv Hp Hv Hst)).
Qed.

Lemma rtc_facts w ups c : rtc cstep (mkConfig w (map init_run ups)) c -> all_S rfacts c.
Proof.
  intros Hr.
  destruct (rtc_local rfacts) with (m0 := fs w) (c := mkConfig w (map init_run ups)) (c' := c)
    as [_ Hf]; [ | | | exact (init_runs_cinv w ups) | | exact Hr | exact Hf].
  - intros t w0 t' w0' Hi Hp Hs. exact (rstep_facts t w0 t' w0' Hi Hp Hs).
  - intros t w0 w0' Hi (Hp & Hv) Hf.
    exact (conj (rpage_frame t w0 w0' Hi Hp Hf) (rverdict_frame t w0 w0' Hi Hv Hf)).
  - intros n t t' w0 Hi _ Hp. exact (rinterrupt_facts n t t' w0 Hi Hp).
  - intros i t Ht. pose proof (init_runs_page w ups i t Ht) as Hp. simpl in Ht.
    rewrite list_lookup_fmap in Ht. destruct (ups !! i); simpl in Ht; [|discriminate]. injection Ht as <-.
    split; [exact Hp | reflexivity].
Qed.
End Run.

(** ** Theorems *)

(** A rerun or stop request of the session has reached the run. *)
Definition requested (r : run) : Prop := s_stop (r_sess r) <> None.

Section Claims.
Context `{Scaler} `{Yolo}.
Hypothesis infer_exceptions :
  forall wt sz f e, yolo_infer wt sz f = Exc e -> is_exception e = true.

(** C9: refinement of the session machine under any interleaving: whatever
    the other sessions' runs and the users' requests do between its
    statements, a run whose upload block ended normally worked on its own
    session's upload, and its page is the page of [main] followed by a
    trace of the specification's machine from [Idle] to [Ready] or
    [Failed]. *)
Theorem runs_refine_session w ups c i r m up :
  rtc cstep (mkConfig w (map init_run ups)) c -> c_threads c !! i = Some r ->
  r_pc r = R_block m up (P_done (Ok tt)) ->
  ups !! i = Some (Some up) /\
  exists o ph, s_ui (r_sess r) = (main_page ++ o)%list /\ sexec Idle o ph /\ terminal ph = true.
Proof.
  intros Hr Hi Hpc.
  destruct (rtc_run_origin w ups c i r Hr Hi) as (u0 & Hu0 & Ho).
  destruct (rtc_facts infer_exceptions w ups c Hr i r Hi) as (_ & Hv).
  unfold origin_ok, rverdict in *. rewrite Hpc in Ho, Hv. subst u0. split; [exact Hu0|].
  destruct Hv as [_ Ht]. destruct (Ht eq_refl) as (ph & Hph & o & Hu & Hx). exists o, ph. auto.
Qed.

(** C15: a run ends with an exception only when it is Streamlit's
    [ScriptControl] and a rerun or stop request of its session reached
    it: the [except] clauses of [main] and of the block catch every other
    exception the code's calls raise. *)
Theorem runs_fail_only_by_request w ups c i r e :
  rtc cstep (mkConfig w (map init_run ups)) c -> c_threads c !! i = Some r ->
  run_result (r_pc r) = Some (Exc e) -> e = ScriptControl /\ requested r.
Proof.
  intros Hr Hi Hres. destruct (rtc_facts infer_exceptions w ups c Hr i r Hi) as (_ & Hv).
  unfold rverdict, requested in *. destruct r as [[[]|m up []] l s]; simpl in *; try discriminate;
    injection Hres as ->; [exact Hv | exact (proj1 Hv)].
Qed.
End Claims.

(** ** Witnesses: the two runs of Runs.v *)

Section Witness.
#[local] Existing Instances scaler_relabel yolo_two_boxes.

Lemma runs_refine_session_witness :
  exists r, c_threads (run_sched alternate two_runs) !! 0%nat = Some r /\
    r_pc r = R_block (YOLO_ "best.pt" 7) street_upload (P_done (Ok tt)) /\
    two_uploads !! 0%nat = Some (Some street_upload) /\
    exists o ph, s_ui (r_sess r) = (main_page ++ o)%list /\ sexec Idle o ph /\ terminal ph = true.
Proof.
  run_at (run_sched alternate two_runs) 0%nat as r Ht.
  assert (Hp : r_pc r = R_block (YOLO_ "best.pt" 7) street_upload (P_done (Ok tt)))
    by (computed Ht reflexivity).
  exists r. split; [reflexivity|]. split; [exact Hp|].
  exact (@runs_refine_session scaler_relabel yolo_two_boxes (fun wt sz f e Hi => ltac:(discriminate Hi)) loaded_world two_uploads _ 0%nat r
           _ _ (run_sched_rtc alternate two_runs) Ht Hp).
Defined.

Lemma runs_fail_only_by_request_witness :
  exists r, c_threads interrupted_end !! 0%nat = Some r /\
    run_result (r_pc r) = Some (Exc ScriptControl) /\ ScriptControl = ScriptControl /\ requested r.
Proof.
  run_at interrupted_end 0%nat as r Ht.
  assert (Hp : run_result (r_pc r) = Some (Exc ScriptControl))
    by (computed Ht reflexivity).
  assert (Hr : rtc cstep (mkConfig loaded_world (map init_run two_uploads)) interrupted_end)
    by (etransitivity; [exact interrupted_reachable | unfold interrupted_end; apply run_sched_rtc]).
  exists r. split; [reflexivity|]. split; [exact Hp|].
  exact (@runs_fail_only_by_request scaler_relabel yolo_two_boxes (fun wt sz f e Hi => ltac:(discriminate Hi)) loaded_world two_uploads _ 0%nat r
           _ Hr Ht Hp).
Defined.
End Witness.
